(** * Five Towers rules engine: a shallow embedding and its properties

    The engine lives in [five_towers/game_logic]: [state.py] (cards, towers,
    players, game state), [deck.py], [rules.py], [scoring.py] and the two
    phase controllers [phases/bidding.py] and [phases/building.py].

    Conventions of the embedding:
    - Python [int] is [Z]; [Optional[int]] is [option Z].
    - A Python call that may raise ([IndexError] of [players[i]], [KeyError]
      of [towers[suit]], [ZeroDivisionError] of [% len(players)],
      [ValueError] of [get_player_index] and [add_card]) returns [option];
      [None] is the raised exception.
    - A function mutating the game state in place takes the state and
      returns the new one; a function that also returns a [bool] returns the
      pair.
    - [dict[TowerSuit, Tower]] is a [gmap TowerSuit Tower].
    - [random.shuffle] is an oracle [Rng] handed to each call that shuffles;
      all that is known of it is that it permutes its argument.
    - Lists, towers and players are values. The engine never keeps one list
      or one player object in two places (it assigns slices, [copy()]s and
      freshly built lists), so an update through one name is seen through
      no other. *)

From stdpp Require Import base option list gmap strings pretty sorting.

Local Open Scope Z_scope.

(** ** state.py: enumerations *)

Inductive TowerSuit : Type := SAND | STONE | VEGETATION | WATER | FIRE.

Inductive GamePhase : Type := LOBBY | BIDDING | BUILDING | SCORING | GAME_OVER.

Global Instance TowerSuit_eq_dec : EqDecision TowerSuit.
Proof. solve_decision. Defined.

Global Instance GamePhase_eq_dec : EqDecision GamePhase.
Proof. solve_decision. Defined.

(** [for suit in TowerSuit] iterates in declaration order. *)
Definition all_suits : list TowerSuit := [SAND; STONE; VEGETATION; WATER; FIRE].

Definition suit_code (s : TowerSuit) : nat :=
  match s with SAND => 0 | STONE => 1 | VEGETATION => 2 | WATER => 3 | FIRE => 4 end%nat.

Definition suit_of_code (n : nat) : TowerSuit :=
  match n with
  | 0 => SAND | 1 => STONE | 2 => VEGETATION | 3 => WATER | _ => FIRE
  end%nat.

Global Instance TowerSuit_countable : Countable TowerSuit :=
  inj_countable' suit_code suit_of_code
    (λ s, match s with
          | SAND => eq_refl | STONE => eq_refl | VEGETATION => eq_refl
          | WATER => eq_refl | FIRE => eq_refl
          end).

(** ** state.py: Card *)

(** A frozen dataclass: equality ([==], [in], [list.remove]) compares the
    triple (id, suit, value). *)
Record Card : Type := mkCard {
  card_id : Z;
  card_suit : TowerSuit;
  card_value : Z
}.

Global Instance Card_eq_dec : EqDecision Card.
Proof. solve_decision. Defined.

Definition is_tower_top (c : Card) : bool := bool_decide (card_value c = 0).
Definition is_reset (c : Card) : bool := bool_decide (card_value c = 8).
Definition is_wild (c : Card) : bool := bool_decide (card_value c = 9).

(** ** Python list primitives used by the engine *)

(** [l[i]] for an [int] index: a negative index counts from the end, an
    index out of range raises. *)
Definition py_index (n : nat) (i : Z) : option nat :=
  if bool_decide (0 ≤ i < Z.of_nat n) then Some (Z.to_nat i)
  else if bool_decide (- Z.of_nat n ≤ i < 0) then Some (Z.to_nat (Z.of_nat n + i))
  else None.

Definition py_get {A} (l : list A) (i : Z) : option A :=
  j ← py_index (length l) i; l !! j.

(** The cut point of [l[:k]] and [l[k:]]: a negative bound counts from the
    end, and both slices clamp to the list. *)
Definition slice_bound (n : nat) (k : Z) : nat :=
  if bool_decide (0 ≤ k) then Z.to_nat k else Z.to_nat (Z.of_nat n + k).

Definition py_prefix {A} (l : list A) (k : Z) : list A :=
  take (slice_bound (length l) k) l.

Definition py_suffix {A} (l : list A) (k : Z) : list A :=
  drop (slice_bound (length l) k) l.

(** [x in l] *)
Definition py_in (c : Card) (l : list Card) : bool := bool_decide (c ∈ l).

(** [l.remove(x)]: drops the first element equal to [x]; raises when there
    is none. *)
Fixpoint py_remove (c : Card) (l : list Card) : option (list Card) :=
  match l with
  | [] => None
  | x :: l' => if decide (x = c) then Some l' else cons x <$> py_remove c l'
  end.

(** ** state.py: Tower *)

Record Tower : Type := mkTower {
  tower_suit : TowerSuit;
  cards : list Card
}.

Definition top_card (t : Tower) : option Card := last (cards t).

Definition height (t : Tower) : Z := Z.of_nat (length (cards t)).

Definition is_capped (t : Tower) : bool :=
  match top_card t with
  | Some c => is_tower_top c
  | None => false
  end.

Definition can_place (t : Tower) (card : Card) : bool :=
  match top_card t with
  | None => true
  | Some top =>
      if is_tower_top top then false
      else if is_reset top then true
      else if is_wild card then true
      else bool_decide (card_value card < card_value top)
  end.

Definition add_card (t : Tower) (card : Card) : option Tower :=
  if can_place t card
  then Some {| tower_suit := tower_suit t; cards := cards t ++ [card] |}
  else None.

(** Returns the removed cards and the emptied tower. *)
Definition tear_down (t : Tower) : list Card * Tower :=
  (cards t, {| tower_suit := tower_suit t; cards := [] |}).

Definition tower_calculate_score (t : Tower) : Z :=
  match top_card t with
  | None => 0
  | Some top =>
      if is_tower_top top then Z.of_nat (length (cards t)) * 2
      else Z.of_nat (length (cards t))
  end.

(** ** state.py: PlayerState *)

Record PlayerState : Type := mkPlayer {
  player_id : Z;
  name : string;
  towers : gmap TowerSuit Tower;
  hand : list Card;
  tear_down_pile : list Card;
  current_bid : option Z;
  has_passed : bool
}.

Definition set_towers (ts : gmap TowerSuit Tower) (p : PlayerState) : PlayerState :=
  {| player_id := player_id p; name := name p; towers := ts; hand := hand p;
     tear_down_pile := tear_down_pile p; current_bid := current_bid p;
     has_passed := has_passed p |}.

Definition set_tear_down_pile (l : list Card) (p : PlayerState) : PlayerState :=
  {| player_id := player_id p; name := name p; towers := towers p; hand := hand p;
     tear_down_pile := l; current_bid := current_bid p;
     has_passed := has_passed p |}.

Definition set_current_bid (b : option Z) (p : PlayerState) : PlayerState :=
  {| player_id := player_id p; name := name p; towers := towers p; hand := hand p;
     tear_down_pile := tear_down_pile p; current_bid := b;
     has_passed := has_passed p |}.

Definition set_has_passed (b : bool) (p : PlayerState) : PlayerState :=
  {| player_id := player_id p; name := name p; towers := towers p; hand := hand p;
     tear_down_pile := tear_down_pile p; current_bid := current_bid p;
     has_passed := b |}.

(** [__post_init__]: a player created without towers gets one empty tower
    per suit. *)
Definition initial_towers : gmap TowerSuit Tower :=
  list_to_map ((λ s, (s, mkTower s [])) <$> all_suits).

Definition new_player (id : Z) (nm : string) : PlayerState :=
  {| player_id := id; name := nm; towers := initial_towers; hand := [];
     tear_down_pile := []; current_bid := None; has_passed := false |}.

(** [towers.values()] *)
Definition tower_values (p : PlayerState) : list Tower :=
  (map_to_list (towers p)).*2.

Definition get_tower (p : PlayerState) (suit : TowerSuit) : option Tower :=
  towers p !! suit.

Definition sum_Z (l : list Z) : Z := foldr Z.add 0 l.

(** [max(..., default=0)] *)
Definition max_default0 (l : list Z) : Z :=
  match l with
  | [] => 0
  | x :: l' => foldr Z.max x l'
  end.

Definition calculate_penalty (p : PlayerState) : Z :=
  let k := Z.of_nat (length (tear_down_pile p)) in
  (k * (k + 1)) `div` 2.

Definition total_score (p : PlayerState) : Z :=
  let tower_scores := sum_Z (tower_calculate_score <$> tower_values p) in
  let max_height := max_default0 (height <$> tower_values p) in
  let tower_scores :=
    if bool_decide (max_height > 0) then tower_scores + max_height else tower_scores in
  tower_scores - calculate_penalty p.

(** ** state.py: GameState *)

Record GameState : Type := mkGame {
  phase : GamePhase;
  round_number : Z;
  deck : list Card;
  display_cards : list Card;
  discard_pile : list Card;
  players : list PlayerState;
  current_player_index : Z;
  current_high_bid : Z;
  high_bidder_index : option Z;
  auction_winner_index : option Z;
  cards_to_process : list Card
}.

Definition set_phase (x : GamePhase) (s : GameState) : GameState :=
  mkGame x (round_number s) (deck s) (display_cards s) (discard_pile s) (players s)
    (current_player_index s) (current_high_bid s) (high_bidder_index s)
    (auction_winner_index s) (cards_to_process s).

Definition set_round_number (x : Z) (s : GameState) : GameState :=
  mkGame (phase s) x (deck s) (display_cards s) (discard_pile s) (players s)
    (current_player_index s) (current_high_bid s) (high_bidder_index s)
    (auction_winner_index s) (cards_to_process s).

Definition set_deck (x : list Card) (s : GameState) : GameState :=
  mkGame (phase s) (round_number s) x (display_cards s) (discard_pile s) (players s)
    (current_player_index s) (current_high_bid s) (high_bidder_index s)
    (auction_winner_index s) (cards_to_process s).

Definition set_display_cards (x : list Card) (s : GameState) : GameState :=
  mkGame (phase s) (round_number s) (deck s) x (discard_pile s) (players s)
    (current_player_index s) (current_high_bid s) (high_bidder_index s)
    (auction_winner_index s) (cards_to_process s).

Definition set_discard_pile (x : list Card) (s : GameState) : GameState :=
  mkGame (phase s) (round_number s) (deck s) (display_cards s) x (players s)
    (current_player_index s) (current_high_bid s) (high_bidder_index s)
    (auction_winner_index s) (cards_to_process s).

Definition set_players (x : list PlayerState) (s : GameState) : GameState :=
  mkGame (phase s) (round_number s) (deck s) (display_cards s) (discard_pile s) x
    (current_player_index s) (current_high_bid s) (high_bidder_index s)
    (auction_winner_index s) (cards_to_process s).

Definition set_current_player_index (x : Z) (s : GameState) : GameState :=
  mkGame (phase s) (round_number s) (deck s) (display_cards s) (discard_pile s) (players s)
    x (current_high_bid s) (high_bidder_index s)
    (auction_winner_index s) (cards_to_process s).

Definition set_current_high_bid (x : Z) (s : GameState) : GameState :=
  mkGame (phase s) (round_number s) (deck s) (display_cards s) (discard_pile s) (players s)
    (current_player_index s) x (high_bidder_index s)
    (auction_winner_index s) (cards_to_process s).

Definition set_high_bidder_index (x : option Z) (s : GameState) : GameState :=
  mkGame (phase s) (round_number s) (deck s) (display_cards s) (discard_pile s) (players s)
    (current_player_index s) (current_high_bid s) x
    (auction_winner_index s) (cards_to_process s).

Definition set_auction_winner_index (x : option Z) (s : GameState) : GameState :=
  mkGame (phase s) (round_number s) (deck s) (display_cards s) (discard_pile s) (players s)
    (current_player_index s) (current_high_bid s) (high_bidder_index s)
    x (cards_to_process s).

Definition set_cards_to_process (x : list Card) (s : GameState) : GameState :=
  mkGame (phase s) (round_number s) (deck s) (display_cards s) (discard_pile s) (players s)
    (current_player_index s) (current_high_bid s) (high_bidder_index s)
    (auction_winner_index s) x.

(** [GameState()] *)
Definition empty_game : GameState :=
  mkGame LOBBY 0 [] [] [] [] 0 0 None None [].

Definition active_bidders (s : GameState) : list PlayerState :=
  filter (λ p, has_passed p = false) (players s).

(** [(current_player_index + 1) % len(players)]; Python's [%] with a
    positive modulus is [Z.modulo], with modulus 0 it raises. *)
Definition advance_turn (s : GameState) : option GameState :=
  if decide (players s = []) then None
  else Some (set_current_player_index
               ((current_player_index s + 1) `mod` Z.of_nat (length (players s))) s).

Fixpoint get_player_index_from (i : Z) (l : list PlayerState) (id : Z) : option Z :=
  match l with
  | [] => None
  | p :: l' => if decide (player_id p = id) then Some i
               else get_player_index_from (i + 1) l' id
  end.

Definition get_player_index (s : GameState) (id : Z) : option Z :=
  get_player_index_from 0 (players s) id.

Definition is_valid_bid (s : GameState) (amount : Z) : bool :=
  if bool_decide (amount ≤ current_high_bid s) then false
  else if bool_decide (amount > 5) then false
  else true.

(** [player = game_state.players[i]] followed by an assignment to a field
    of [player] updates the list in place at the position the index
    resolves to. *)
Definition update_player (s : GameState) (j : nat) (p : PlayerState) : GameState :=
  set_players (<[j := p]> (players s)) s.

(** ** deck.py *)

(** The outcome of [random.shuffle]: some rearrangement of the list. *)
Record Rng : Type := mkRng {
  shuffle : list Card → list Card;
  shuffle_perm : ∀ l, shuffle l ≡ₚ l
}.

Definition base_set : list (TowerSuit * Z) :=
  s ← all_suits; v ← seqZ 0 16; [(s, v)].

Definition expansion_set : list (TowerSuit * Z) :=
  ((λ s, (s, 0)) <$> all_suits) ++
  ((λ s, (s, 8)) <$> all_suits) ++
  (s ← all_suits; [(s, 5); (s, 6); (s, 7); (s, 10)]).

(** [Card(suit=.., value=..)] draws a fresh [uuid4] for its id: the k-th card
    created takes [fresh k]. *)
Definition create_standard_deck (rng : Rng) (fresh : nat → Z) (num_players : Z)
  : list Card :=
  let spec :=
    if bool_decide (num_players >= 4) then base_set ++ expansion_set else base_set in
  shuffle rng (imap (λ k sv, mkCard (fresh k) sv.1 sv.2) spec).

(** [deck.pop()] on a non-empty list. *)
Definition py_pop (l : list Card) : option (Card * list Card) :=
  match last l with
  | Some c => Some (c, take (length l - 1)%nat l)
  | None => None
  end.

Fixpoint deal_loop (n : nat) (dk acc : list Card) : list Card * list Card :=
  match n with
  | O => (dk, acc)
  | S n' =>
      match py_pop dk with
      | Some (c, dk') => deal_loop n' dk' (acc ++ [c])
      | None => (dk, acc)
      end
  end.

Arguments deal_loop : simpl never.

(** Returns the dealt cards and the new state. *)
Definition deal_display_cards (s : GameState) (count : Z) : list Card * GameState :=
  let '(dk, cs) := deal_loop (Z.to_nat count) (deck s) [] in
  (cs, set_display_cards cs (set_deck dk s)).

Definition shuffle_deck (rng : Rng) (s : GameState) : GameState :=
  set_deck (shuffle rng (deck s)) s.

Definition refill_deck_from_discard (rng : Rng) (s : GameState) : bool * GameState :=
  match discard_pile s with
  | [] => (false, s)
  | _ :: _ =>
      (true, shuffle_deck rng (set_discard_pile [] (set_deck (discard_pile s) s)))
  end.

Definition cards_remaining (s : GameState) : Z := Z.of_nat (length (deck s)).

(** ** rules.py *)

Definition can_bid (s : GameState) (player_index amount : Z) : option bool :=
  if decide (phase s ≠ BIDDING) then Some false
  else if decide (current_player_index s ≠ player_index) then Some false
  else
    player ← py_get (players s) player_index;
    if has_passed player then Some false
    else if bool_decide (amount ≤ current_high_bid s) then Some false
    else if bool_decide (amount > 5) then Some false
    else Some true.

Definition can_pass (s : GameState) (player_index : Z) : option bool :=
  if decide (phase s ≠ BIDDING) then Some false
  else if decide (current_player_index s ≠ player_index) then Some false
  else
    player ← py_get (players s) player_index;
    if has_passed player then Some false else Some true.

Definition can_place_card (s : GameState) (player_index : Z) (card : Card)
    (suit : TowerSuit) : option bool :=
  if decide (phase s ≠ BUILDING) then Some false
  else if decide (auction_winner_index s ≠ Some player_index) then Some false
  else if negb (py_in card (cards_to_process s)) then Some false
  else
    player ← py_get (players s) player_index;
    tower ← get_tower player suit;
    Some (can_place tower card).

Definition can_tear_down (s : GameState) (player_index : Z) (suit : TowerSuit)
  : option bool :=
  if decide (phase s ≠ BUILDING) then Some false
  else if decide (auction_winner_index s ≠ Some player_index) then Some false
  else
    player ← py_get (players s) player_index;
    tower ← get_tower player suit;
    Some (bool_decide (height tower > 0)).

Definition is_bid_winning_bid (s : GameState) (amount : Z) : bool :=
  bool_decide (amount = 5).

(** ** scoring.py *)

Definition calculate_tower_score (tower_cards : list Card) : Z :=
  match last tower_cards with
  | None => 0
  | Some top =>
      if bool_decide (card_value top = 0) then Z.of_nat (length tower_cards) * 2
      else Z.of_nat (length tower_cards)
  end.

Definition calculate_tower_bonus (ts : list (list Card)) : Z :=
  let max_height := max_default0 ((λ cs, Z.of_nat (length cs)) <$> ts) in
  if bool_decide (max_height > 0) then max_height else 0.

Definition calculate_tear_down_penalty (tear_down_count : Z) : Z :=
  if bool_decide (tear_down_count ≤ 0) then 0
  else (tear_down_count * (tear_down_count + 1)) `div` 2.

Definition calculate_player_score (p : PlayerState) : Z :=
  let tower_scores := sum_Z ((λ t, calculate_tower_score (cards t)) <$> tower_values p) in
  let bonus := calculate_tower_bonus (cards <$> tower_values p) in
  let penalty := calculate_tear_down_penalty (Z.of_nat (length (tear_down_pile p))) in
  tower_scores + bonus - penalty.

(** ** phases/bidding.py *)

Definition discard_display_cards (s : GameState) : GameState :=
  set_display_cards [] (set_discard_pile (discard_pile s ++ display_cards s) s).

Definition reset_auction_flags (p : PlayerState) : PlayerState :=
  set_has_passed false (set_current_bid None p).

Definition start_new_round (s : GameState) : GameState :=
  let s1 := set_players (reset_auction_flags <$> players s) s in
  let s2 := set_current_high_bid 0 s1 in
  let s3 := set_high_bidder_index None s2 in
  let s4 := set_auction_winner_index None s3 in
  let '(dealt, s5) := deal_display_cards s4 5 in
  match dealt with
  | [] => set_phase GAME_OVER s5
  | _ :: _ => set_round_number (round_number s5 + 1) (set_phase BIDDING s5)
  end.

(** [player.current_bid or 0] *)
Definition bid_or_0 (b : option Z) : Z :=
  match b with
  | None => 0
  | Some x => x
  end.

(** The part of [end_auction] after the winner is known. *)
Definition award_to_winner (s : GameState) (winner_index : Z) : option GameState :=
  let s1 := set_auction_winner_index (Some winner_index) s in
  winner ← py_get (players s1) winner_index;
  let bid_amount := bid_or_0 (current_bid winner) in
  let s2 :=
    if decide (bid_amount = 0) then
      start_new_round (discard_display_cards s1)
    else
      let cards_to_award := py_prefix (display_cards s1) bid_amount in
      let s' := set_cards_to_process cards_to_award s1 in
      let remaining := py_suffix (display_cards s') bid_amount in
      set_display_cards [] (set_discard_pile (discard_pile s' ++ remaining) s') in
  Some (set_current_player_index winner_index (set_phase BUILDING s2)).

Definition end_auction (s : GameState) (winner_index : option Z) : option GameState :=
  match winner_index with
  | Some w => award_to_winner s w
  | None =>
      match high_bidder_index s with
      | Some h => award_to_winner s h
      | None =>
          match active_bidders s with
          | [only] => w ← get_player_index s (player_id only); award_to_winner s w
          | _ => Some (discard_display_cards s)
          end
      end
  end.

Fixpoint advance_bidding_loop (n : nat) (original_player : Z) (s : GameState)
  : option GameState :=
  match n with
  | O => Some s
  | S n' =>
      s1 ← advance_turn s;
      p ← py_get (players s1) (current_player_index s1);
      if negb (has_passed p) then Some s1
      else if decide (current_player_index s1 = original_player) then Some s1
      else advance_bidding_loop n' original_player s1
  end.

Definition advance_bidding_turn (s : GameState) : option GameState :=
  advance_bidding_loop (length (players s)) (current_player_index s) s.

Definition submit_bid (s : GameState) (player_index amount : Z)
  : option (bool * GameState) :=
  ok ← can_bid s player_index amount;
  if negb ok then Some (false, s)
  else
    j ← py_index (length (players s)) player_index;
    player ← players s !! j;
    let s1 := update_player s j (set_current_bid (Some amount) player) in
    let s2 := set_current_high_bid amount s1 in
    let s3 := set_high_bidder_index (Some player_index) s2 in
    s4 ← (if is_bid_winning_bid s3 amount
          then end_auction s3 (Some player_index)
          else advance_bidding_turn s3);
    Some (true, s4).

(** [player.has_passed = True] on the player at position [j]. *)
Definition mark_passed (s : GameState) (j : nat) (player : PlayerState) : GameState :=
  update_player s j (set_has_passed true player).

Definition submit_pass (s : GameState) (player_index : Z)
  : option (bool * GameState) :=
  ok ← can_pass s player_index;
  if negb ok then Some (false, s)
  else
    j ← py_index (length (players s)) player_index;
    player ← players s !! j;
    let s1 := mark_passed s j player in
    s2 ← match active_bidders s1 with
         | [winner] =>
             winner_idx ← get_player_index s1 (player_id winner);
             end_auction s1 (Some winner_idx)
         | _ => advance_bidding_turn s1
         end;
    Some (true, s2).

(** ** phases/building.py *)

Definition end_building_phase (rng : Rng) (s : GameState) : GameState :=
  if decide (cards_remaining s = 0) then
    match refill_deck_from_discard rng s with
    | (false, s') => set_phase GAME_OVER s'
    | (true, s') => start_new_round s'
    end
  else start_new_round s.

Definition place_card (rng : Rng) (s : GameState) (player_index : Z) (card : Card)
    (suit : TowerSuit) : option (bool * GameState) :=
  ok ← can_place_card s player_index card suit;
  if negb ok then Some (false, s)
  else
    j ← py_index (length (players s)) player_index;
    player ← players s !! j;
    tower ← get_tower player suit;
    tower' ← add_card tower card;
    let s1 := update_player s j (set_towers (<[suit := tower']> (towers player)) player) in
    s2 ← (if py_in card (cards_to_process s1)
          then l ← py_remove card (cards_to_process s1); Some (set_cards_to_process l s1)
          else Some s1);
    let s3 :=
      if decide (length (cards_to_process s2) = 0%nat)
      then end_building_phase rng s2 else s2 in
    Some (true, s3).

Definition tear_down_tower (s : GameState) (player_index : Z) (suit : TowerSuit)
  : option (bool * GameState) :=
  ok ← can_tear_down s player_index suit;
  if negb ok then Some (false, s)
  else
    j ← py_index (length (players s)) player_index;
    player ← players s !! j;
    tower ← get_tower player suit;
    let '(removed_cards, tower') := tear_down tower in
    let player1 := set_towers (<[suit := tower']> (towers player)) player in
    let player2 :=
      set_tear_down_pile (tear_down_pile player1 ++ removed_cards) player1 in
    Some (true, update_player s j player2).

(** ** env.py: the start state and the four player actions *)

(** [FiveTowersEnv.reset]: a fresh deck, [num_players] new players, the
    first display row, phase Bidding, player 0 to move. *)
Definition reset (rng : Rng) (fresh : nat → Z) (num_players : Z) : GameState :=
  let s0 := set_deck (create_standard_deck rng fresh num_players) empty_game in
  let s1 :=
    set_players ((λ i, new_player i ("Player" +:+ pretty i)) <$> seqZ 0 num_players) s0 in
  let '(_, s2) := deal_display_cards s1 5 in
  set_round_number 1 (set_current_player_index 0 (set_phase BIDDING s2)).

(** The calls the environment makes on the engine. A placement carries the
    outcome of the shuffle it may trigger when it ends the building phase. *)
Inductive Action : Type :=
  | Bid (player_index amount : Z)
  | Pass (player_index : Z)
  | Place (rng : Rng) (player_index : Z) (card : Card) (suit : TowerSuit)
  | TearDown (player_index : Z) (suit : TowerSuit).

Definition step (s : GameState) (a : Action) : option (bool * GameState) :=
  match a with
  | Bid p amount => submit_bid s p amount
  | Pass p => submit_pass s p
  | Place rng p c suit => place_card rng s p c suit
  | TearDown p suit => tear_down_tower s p suit
  end.

(** The rules predicate consulted by each action. *)
Definition precondition (s : GameState) (a : Action) : option bool :=
  match a with
  | Bid p amount => can_bid s p amount
  | Pass p => can_pass s p
  | Place _ p c suit => can_place_card s p c suit
  | TearDown p suit => can_tear_down s p suit
  end.

Fixpoint run (s : GameState) (acts : list Action) : option GameState :=
  match acts with
  | [] => Some s
  | a :: acts' => r ← step s a; run r.2 acts'
  end.

(** A state the engine reaches: some game started by [reset] for 2 to 5
    players and advanced by a sequence of actions none of which raised. *)
Definition reachable (s : GameState) : Prop :=
  ∃ rng fresh num_players acts,
    2 ≤ num_players ≤ 5 ∧ run (reset rng fresh num_players) acts = Some s.

(** ** Card counting *)

Definition count (l : list Card) : Z := Z.of_nat (length l).

Definition player_cards (p : PlayerState) : Z :=
  sum_Z (height <$> tower_values p) + count (tear_down_pile p).

(** Deck, discard pile, display row, every tower and teardown pile of every
    player, and the cards awaiting placement. *)
Definition total_cards (s : GameState) : Z :=
  count (deck s) + count (discard_pile s) + count (display_cards s)
  + sum_Z (player_cards <$> players s) + count (cards_to_process s).

(** A shuffle that leaves the list as it is, and one that reverses it. *)
Definition rng_id : Rng := mkRng (λ l, l) (λ l, reflexivity l).
Definition rng_rev : Rng := mkRng reverse reverse_Permutation.

(** ** The placement rule in the words of the specification *)

(** A tower is capped when its top card is a Tower-Top. *)
Definition capped (t : Tower) : Prop :=
  ∃ top, top_card t = Some top ∧ card_value top = 0.

(** Empty tower, or Reset on top, or a Wild card on a tower that is not
    capped, or a value strictly below the top card's; never on a capped
    tower. *)
Definition tower_accepts (t : Tower) (c : Card) : Prop :=
  ¬ capped t ∧
  (cards t = []
   ∨ (∃ top, top_card t = Some top ∧ card_value top = 8)
   ∨ (card_value c = 9 ∧ ¬ capped t)
   ∨ (∃ top, top_card t = Some top ∧ card_value c < card_value top)).

(** ** States used in the examples *)

(** A two-player game as [reset] builds it, with the shuffle that reverses
    the freshly built deck and card ids counting up from 0: the display row
    is Sand 0 to Sand 4 and 75 cards remain in the deck. *)
Definition two_player_start : GameState := reset rng_rev Z.of_nat 2.

(** The Tower-Top card of suit Sand, first of the display row. *)
Definition sand_top : Card := mkCard 0 SAND 0.

(** Player 0 bids 1 and player 1 passes: player 0 wins the Sand 0 card. *)
Definition first_auction : list Action := [Bid 0 1; Pass 1].

(** The state after [first_auction]: Building, one card to place, four cards
    discarded, 75 cards in the deck. *)
Definition building_state : GameState :=
  default two_player_start (run two_player_start first_auction).

(** Player 0 then places the Sand 0 card on the Sand tower, which ends the
    building phase and starts round 2. *)
Definition first_placement : list Action := [Place rng_rev 0 sand_top SAND].

Definition capped_state : GameState :=
  default building_state (run building_state first_placement).

(** In round 2 player 0 wins again and tears the capped Sand tower down. *)
Definition second_round : list Action := [Bid 0 1; Pass 1; TearDown 0 SAND].

Definition torn_down_state : GameState :=
  default capped_state (run capped_state second_round).

(** The state after the first bid of [first_auction]: player 0 has bid 1 and
    player 1 is to move. *)
Definition first_bid_state : GameState :=
  default two_player_start (run two_player_start [Bid 0 1]).

(** The Sand tower of player 0 in [capped_state]. *)
Definition capped_sand_tower : Tower := mkTower SAND [sand_top].

(** The state after the auction of round 2, before the teardown. *)
Definition second_auction_state : GameState :=
  default capped_state (run capped_state first_auction).

(** A player with Sand tower 10, 5 and Fire tower 8, 3, 0 and no teardown. *)
Definition example_player : PlayerState :=
  set_towers
    (<[SAND := mkTower SAND [mkCard 1 SAND 10; mkCard 2 SAND 5]]>
       (<[FIRE := mkTower FIRE [mkCard 3 FIRE 8; mkCard 4 FIRE 3; mkCard 5 FIRE 0]]>
          initial_towers))
    (new_player 0 "Test").

(** The round voided in the words of the specification: the display row is
    discarded and a new round is started. *)
Definition void_round_spec (s : GameState) : GameState :=
  start_new_round (discard_display_cards s).

(** ** The invariant of the states the engine reaches *)

(** A recorded bid is at least 1. *)
Definition bid_ok (p : PlayerState) : Prop :=
  ∀ b, current_bid p = Some b → 1 ≤ b.

Record Inv (s : GameState) : Prop := mkInv {
  (** the turn pointer indexes a player *)
  inv_turn : 0 ≤ current_player_index s < Z.of_nat (length (players s));
  inv_high_bid : 0 ≤ current_high_bid s;
  inv_bids : Forall bid_ok (players s);
  (** nothing awaits placement while bidding *)
  inv_bidding : phase s = BIDDING → cards_to_process s = [];
  (** while building the display row is empty, unless the auction was won
      with a bid of 0 and nobody is the winner *)
  inv_building :
    phase s = BUILDING → display_cards s = [] ∨ auction_winner_index s = None
}.

(** The references the engine follows without checking them resolve: every
    player has a tower of every suit, and the auction winner, when there is
    one, is the index of a player. *)
Record WellFormed (s : GameState) : Prop := mkWellFormed {
  wf_towers : Forall (λ p, ∀ suit, is_Some (towers p !! suit)) (players s);
  wf_winner :
    ∀ w, auction_winner_index s = Some w → 0 ≤ w < Z.of_nat (length (players s))
}.

(** What a player holds: the towers and the teardown pile. *)
Definition holdings (p : PlayerState) : gmap TowerSuit Tower * list Card :=
  (towers p, tear_down_pile p).

Definition holding_cards (h : gmap TowerSuit Tower * list Card) : Z :=
  sum_Z (height <$> (map_to_list h.1).*2) + count h.2.

(** The tower of suit [suit] of the player at position [i]. *)
Definition tower_at (s : GameState) (i : nat) (suit : TowerSuit) : option Tower :=
  pl ← players s !! i; towers pl !! suit.

(** The action is a teardown of the tower of suit [suit] of the player at
    position [i], in a game of [n] players. *)
Definition tears_down (n i : nat) (suit : TowerSuit) (a : Action) : Prop :=
  match a with
  | TearDown p su => su = suit ∧ py_index n p = Some i
  | _ => False
  end.

(** ** The rest of rules.py *)

(** The messages of [validate_bid] and [validate_card_placement]; an
    f-string prints an [int] in decimal. *)
Definition validate_bid (s : GameState) (player_index amount : Z) : option string :=
  if decide (phase s ≠ BIDDING) then Some "Cannot bid outside of bidding phase"
  else if decide (current_player_index s ≠ player_index) then Some "Not your turn"
  else
    player ← py_get (players s) player_index;
    if has_passed player then Some "You have already passed"
    else if bool_decide (amount ≤ current_high_bid s)
    then Some ("Bid must be higher than " +:+ pretty (current_high_bid s))
    else if bool_decide (amount > 5) then Some "Maximum bid is 5"
    else Some "".

Definition validate_card_placement (s : GameState) (player_index : Z) (card : Card)
    (suit : TowerSuit) : option string :=
  if decide (phase s ≠ BUILDING) then Some "Cannot place cards outside of building phase"
  else if decide (auction_winner_index s ≠ Some player_index)
  then Some "Only the auction winner can place cards"
  else if negb (py_in card (cards_to_process s)) then Some "Card is not in your hand"
  else
    player ← py_get (players s) player_index;
    tower ← get_tower player suit;
    if negb (can_place tower card) then
      if is_capped tower then Some "Tower is capped (has Tower Top)"
      else if match top_card tower with Some top => is_reset top | None => false end
      then Some "This should not happen - reset accepts anything"
      else if is_wild card then Some "Wild card cannot be placed on Tower Top"
      else
        match top_card tower with
        | None => Some "Empty tower should accept any card"
        | Some top =>
            if bool_decide (card_value card >= card_value top)
            then Some ("Card value " +:+ pretty (card_value card)
                       +:+ " is not less than top card " +:+ pretty (card_value top))
            else Some ""
        end
    else Some "".

(** [range(current_high_bid + 1, 6)] *)
Definition get_legal_bids (s : GameState) (player_index : Z) : option (list Z) :=
  if decide (phase s ≠ BIDDING) then Some []
  else
    player ← py_get (players s) player_index;
    if has_passed player || bool_decide (current_player_index s ≠ player_index)
    then Some []
    else Some (seqZ (current_high_bid s + 1) (6 - (current_high_bid s + 1))).

(** [for suit in TowerSuit: tower = player.get_tower(suit); if keep(tower):
    legal.append(suit)] *)
Fixpoint select_suits (keep : Tower → bool) (player : PlayerState)
    (suits : list TowerSuit) : option (list TowerSuit) :=
  match suits with
  | [] => Some []
  | suit :: rest =>
      tower ← get_tower player suit;
      legal ← select_suits keep player rest;
      Some (if keep tower then suit :: legal else legal)
  end.

Definition get_legal_placements (s : GameState) (player_index : Z) (card : Card)
  : option (list TowerSuit) :=
  if decide (phase s ≠ BUILDING) then Some []
  else if decide (auction_winner_index s ≠ Some player_index) then Some []
  else if negb (py_in card (cards_to_process s)) then Some []
  else
    player ← py_get (players s) player_index;
    select_suits (λ tower, can_place tower card) player all_suits.

Definition get_legal_tear_downs (s : GameState) (player_index : Z)
  : option (list TowerSuit) :=
  if decide (phase s ≠ BUILDING) then Some []
  else if decide (auction_winner_index s ≠ Some player_index) then Some []
  else
    player ← py_get (players s) player_index;
    select_suits (λ tower, bool_decide (height tower > 0)) player all_suits.

Definition is_game_complete (s : GameState) : bool :=
  bool_decide (length (deck s) = 0%nat)
  && bool_decide (length (display_cards s) = 0%nat)
  && bool_decide (length (cards_to_process s) = 0%nat).

Definition should_start_new_round (s : GameState) : bool :=
  if decide (phase s ≠ BIDDING) then false
  else
    let has_cards :=
      bool_decide (0 < length (deck s))%nat
      || bool_decide (0 < length (discard_pile s))%nat in
    has_cards && bool_decide (length (display_cards s) = 0%nat).

(** ** The rest of phases/building.py *)

(** The penalty a player has after tearing the tower down: [new_penalty]. *)
Definition penalty_after (player : PlayerState) (tower : Tower) : Z :=
  calculate_tear_down_penalty (count (tear_down_pile player) + height tower).

(** The loop of [auto_tear_down_if_stuck] over the suits; [lowest] is
    [None] for [float('inf')]. *)
Fixpoint best_tear_down (player : PlayerState) (suits : list TowerSuit)
    (best_suit : option TowerSuit) (lowest : option Z)
  : option (option TowerSuit * option Z) :=
  match suits with
  | [] => Some (best_suit, lowest)
  | suit :: rest =>
      tower ← get_tower player suit;
      if bool_decide (height tower > 0) then
        let new_penalty := penalty_after player tower in
        if match lowest with
           | None => true
           | Some low => bool_decide (new_penalty < low)
           end
        then best_tear_down player rest (Some suit) (Some new_penalty)
        else best_tear_down player rest best_suit lowest
      else best_tear_down player rest best_suit lowest
  end.

(** Returns the suit reported and the new state; the result of
    [tear_down_tower] is dropped, as in the source. *)
Definition auto_tear_down_if_stuck (s : GameState) (player_index : Z) (card : Card)
  : option (option TowerSuit * GameState) :=
  legal ← get_legal_placements s player_index card;
  match legal with
  | _ :: _ => Some (None, s)
  | [] =>
      player ← py_get (players s) player_index;
      '(best_suit, _) ← best_tear_down player all_suits None None;
      match best_suit with
      | Some suit => r ← tear_down_tower s player_index suit; Some (Some suit, r.2)
      | None => Some (None, s)
      end
  end.

(** [for card in cards: legal = get_legal_placements(...); if not legal:
    return False] and then [return True]. *)
Fixpoint all_placeable (s : GameState) (player_index : Z) (cs : list Card)
  : option bool :=
  match cs with
  | [] => Some true
  | card :: rest =>
      legal ← get_legal_placements s player_index card;
      match legal with
      | [] => Some false
      | _ :: _ => all_placeable s player_index rest
      end
  end.

Definition can_complete_building_phase (s : GameState) : option bool :=
  if decide (phase s ≠ BUILDING) then Some false
  else
    match auction_winner_index s with
    | None => Some false
    | Some player_index => all_placeable s player_index (cards_to_process s)
    end.

(** [for suit in TowerSuit: if player.get_tower(suit).height > 0:
    required.append(suit)] *)
Definition non_empty_towers (player : PlayerState) : option (list TowerSuit) :=
  select_suits (λ tower, bool_decide (height tower > 0)) player all_suits.

Fixpoint required_loop (s : GameState) (player_index : Z) (cs : list Card)
  : option (list TowerSuit) :=
  match cs with
  | [] => Some []
  | card :: rest =>
      legal ← get_legal_placements s player_index card;
      match legal with
      | [] => player ← py_get (players s) player_index; non_empty_towers player
      | _ :: _ => required_loop s player_index rest
      end
  end.

Definition get_required_teardowns (s : GameState) : option (list TowerSuit) :=
  if decide (phase s ≠ BUILDING) then Some []
  else
    match auction_winner_index s with
    | None => Some []
    | Some player_index => required_loop s player_index (cards_to_process s)
    end.

(** ** The rest of deck.py *)

(** [for card in cards: deck.insert(0, card)] *)
Definition return_cards_to_deck (s : GameState) (cs : list Card) : GameState :=
  set_deck (foldl (λ dk card, card :: dk) (deck s) cs) s.

(** Returns the drawn cards and the new state. *)
Definition draw_cards (s : GameState) (n : Z) : list Card * GameState :=
  let '(dk, cs) := deal_loop (Z.to_nat n) (deck s) [] in
  (cs, set_deck dk s).

(** [suit.value], the key of the [by_suit] dictionary. *)
Definition suit_value (suit : TowerSuit) : string :=
  match suit with
  | SAND => "sand" | STONE => "stone" | VEGETATION => "vegetation"
  | WATER => "water" | FIRE => "fire"
  end.

Record DeckSummary : Type := mkDeckSummary {
  summary_total : Z;
  by_suit : gmap string Z;
  by_value : gmap Z Z
}.

(** [by_suit[k] += 1] raises on a missing key; [by_value[v] =
    by_value.get(v, 0) + 1] does not. *)
Definition count_card (acc : option DeckSummary) (card : Card) : option DeckSummary :=
  sm ← acc;
  n ← by_suit sm !! suit_value (card_suit card);
  Some (mkDeckSummary (summary_total sm)
          (<[suit_value (card_suit card) := n + 1]> (by_suit sm))
          (<[card_value card := default 0 (by_value sm !! card_value card) + 1]>
             (by_value sm))).

Definition get_deck_summary (s : GameState) : option DeckSummary :=
  foldl count_card
    (Some (mkDeckSummary (Z.of_nat (length (deck s)))
             (list_to_map ((λ suit, (suit_value suit, 0)) <$> all_suits)) ∅))
    (deck s).

(** The number of cards of a suit, and of a value, in a list. *)
Definition suit_count (suit : TowerSuit) (l : list Card) : Z :=
  Z.of_nat (length (filter (λ c, card_suit c = suit) l)).

Definition value_count (v : Z) (l : list Card) : Z :=
  Z.of_nat (length (filter (λ c, card_value c = v) l)).

(** ** The rest of scoring.py *)

(** A [dict] from player index to score, in insertion order. *)
Definition calculate_all_scores (s : GameState) : list (Z * Z) :=
  imap (λ idx player, (Z.of_nat idx, calculate_player_score player)) (players s).

(** [max(iterable, key=...)]: the first element whose key is largest. *)
Fixpoint py_max_from {A} (key : A → Z) (best : A) (l : list A) : A :=
  match l with
  | [] => best
  | x :: l' => py_max_from key (if bool_decide (key x > key best) then x else best) l'
  end.

Definition py_max_by {A} (key : A → Z) (l : list A) : option A :=
  match l with
  | [] => None
  | x :: l' => Some (py_max_from key x l')
  end.

(** [max(scores, key=scores.get)] iterates over the keys. *)
Definition get_winner (s : GameState) : option Z :=
  match players s with
  | [] => None
  | _ :: _ => fst <$> py_max_by snd (calculate_all_scores s)
  end.

(** [sorted(..., key=..., reverse=True)] is stable: it yields the one
    arrangement in descending key order that keeps elements of equal key in
    their original order. Inserting from the right, each element goes before
    the first one whose key is not larger. *)
Fixpoint insert_desc {A} (key : A → Z) (x : A) (l : list A) : list A :=
  match l with
  | [] => [x]
  | y :: l' => if bool_decide (key x >= key y) then x :: y :: l'
               else y :: insert_desc key x l'
  end.

Definition sorted_desc {A} (key : A → Z) (l : list A) : list A :=
  foldr (insert_desc key) [] l.

Definition get_score_rankings (s : GameState) : list (Z * Z) :=
  sorted_desc snd (calculate_all_scores s).

(** ** The rest of state.py *)

Definition has_tower_for (p : PlayerState) (suit : TowerSuit) : bool :=
  bool_decide (is_Some (towers p !! suit)).

(** Returns the removed card, if any, and the player. *)
Definition remove_top_card (p : PlayerState) (suit : TowerSuit)
  : option (option Card * PlayerState) :=
  tower ← get_tower p suit;
  match py_pop (cards tower) with
  | Some (c, rest) =>
      Some (Some c,
            set_towers (<[suit := mkTower (tower_suit tower) rest]> (towers p)) p)
  | None => Some (None, p)
  end.

Definition current_player (s : GameState) : option PlayerState :=
  py_get (players s) (current_player_index s).

Definition is_bidding_complete (s : GameState) : bool :=
  if decide (phase s ≠ BIDDING) then false
  else bool_decide (length (active_bidders s) ≤ 1)%nat.

Definition is_building_complete (s : GameState) : bool :=
  if decide (phase s ≠ BUILDING) then false
  else bool_decide (length (cards_to_process s) = 0%nat).

(** The [winner] property: [max(players, key=total_score, default=None)]. *)
Definition winner (s : GameState) : option PlayerState :=
  if decide (phase s ≠ GAME_OVER) then None
  else py_max_by total_score (players s).

Definition set_current_player (s : GameState) (player_index : Z) : option GameState :=
  if decide (players s = []) then None
  else Some (set_current_player_index
               (player_index `mod` Z.of_nat (length (players s))) s).

Definition is_game_over (s : GameState) : bool :=
  bool_decide (length (deck s) = 0%nat) && bool_decide (length (display_cards s) = 0%nat).

(** [n] calls of [advance_turn] in a row. *)
Fixpoint advance_turns (n : nat) (s : GameState) : option GameState :=
  match n with
  | O => Some s
  | S n' => s1 ← advance_turn s; advance_turns n' s1
  end.

(** ** A game in progress *)

(** The [has_passed] flag of the player at index [i]. *)
Definition passed_at (s : GameState) (i : Z) : option bool :=
  has_passed <$> players s !! Z.to_nat i.

(** What holds of every reachable state besides [Inv]: at least two players;
    while bidding, cards are on display, at least two bidders are active and
    the player to move is one of them; while building for a winner, cards
    await placement; when the game is over, every pile is empty. *)
Record Playable (s : GameState) : Prop := mkPlayable {
  play_players : (2 ≤ length (players s))%nat;
  play_phase : phase s = BIDDING ∨ phase s = BUILDING ∨ phase s = GAME_OVER;
  play_bidding :
    phase s = BIDDING →
    display_cards s ≠ [] ∧ (2 ≤ length (active_bidders s))%nat
    ∧ passed_at s (current_player_index s) = Some false;
  play_building :
    phase s = BUILDING →
    ∀ w, auction_winner_index s = Some w → cards_to_process s ≠ [];
  play_over :
    phase s = GAME_OVER →
    deck s = [] ∧ discard_pile s = [] ∧ display_cards s = []
    ∧ cards_to_process s = []
}.

(** ** The bookkeeping of an auction *)

(** The identifier and the recorded bid of each player, in order. *)
Definition bids_of (s : GameState) : list (Z * option Z) :=
  (λ p, (player_id p, current_bid p)) <$> players s.

(** For a phase, the identifiers and bids of the players, the high bid and
    the high bidder: the player at position [i] has identifier [i]; the high
    bid is at most 5, and at most 4 while bidding goes on; every recorded
    bid is between 1 and the high bid; no two players have recorded the same
    bid; without a high bidder the high bid is 0, and the high bidder has
    recorded the high bid. *)
Record Bookkeeping (ph : GamePhase) (l : list (Z * option Z)) (high : Z)
    (hb : option Z) : Prop := mkBookkeeping {
  book_ids : ∀ (i : nat) id b, l !! i = Some (id, b) → id = Z.of_nat i;
  book_high : 0 ≤ high ≤ 5;
  book_bidding : ph = BIDDING → high ≤ 4;
  book_bids : ∀ (i : nat) id b, l !! i = Some (id, Some b) → 1 ≤ b ≤ high;
  book_distinct :
    ∀ (i j : nat) idi idj b,
      l !! i = Some (idi, Some b) → l !! j = Some (idj, Some b) → i = j;
  book_bidder :
    match hb with
    | None => high = 0
    | Some h => 0 ≤ h ∧ ∃ id, l !! Z.to_nat h = Some (id, Some high)
    end
}.

Definition Booked (s : GameState) : Prop :=
  Bookkeeping (phase s) (bids_of s) (current_high_bid s) (high_bidder_index s).

(** ** The rotation of an auction *)

(** While bidding there is no auction winner yet; an auction winner is the
    high bidder; and while bidding the high bidder, if any, has not passed,
    the player to move comes [d] places after the high bidder, less than
    once round, and the players between the two have passed. *)
Record Auction (s : GameState) : Prop := mkAuction {
  auct_no_winner : phase s = BIDDING → auction_winner_index s = None;
  auct_winner : ∀ w, auction_winner_index s = Some w → high_bidder_index s = Some w;
  auct_rotation :
    phase s = BIDDING → ∀ h, high_bidder_index s = Some h →
    passed_at s h = Some false
    ∧ ∃ d : nat,
        (1 ≤ d < length (players s))%nat
        ∧ current_player_index s
          = (h + Z.of_nat d) `mod` Z.of_nat (length (players s))
        ∧ ∀ k : nat, (1 ≤ k < d)%nat →
            passed_at s ((h + Z.of_nat k) `mod` Z.of_nat (length (players s)))
            = Some true
}.

(** ** The towers of a game in progress *)

(** Only the top card of a tower can be a Tower Top. *)
Definition cap_on_top (t : Tower) : Prop :=
  ∀ (i : nat) c,
    cards t !! i = Some c → is_tower_top c = true → S i = length (cards t).

(** Every tower is filed under its own suit and has its Tower Top, if any,
    on top. *)
Definition towers_ok (h : gmap TowerSuit Tower * list Card) : Prop :=
  ∀ suit t, h.1 !! suit = Some t → tower_suit t = suit ∧ cap_on_top t.

(** ** More states for the examples *)

(** The state an auction won with a bid of 0 ends in: player 0 passes first
    in a two-player game. *)
Definition zero_bid_state : GameState :=
  default two_player_start (run two_player_start [Pass 0]).

(** A player all of whose towers are capped: Sand 5, 0; Stone 0; Vegetation
    0; Water 7, 0; Fire 0. *)
Definition stuck_player : PlayerState :=
  set_towers
    (<[SAND := mkTower SAND [mkCard 10 SAND 5; mkCard 11 SAND 0]]>
       (<[STONE := mkTower STONE [mkCard 12 STONE 0]]>
          (<[VEGETATION := mkTower VEGETATION [mkCard 13 VEGETATION 0]]>
             (<[WATER := mkTower WATER [mkCard 14 WATER 7; mkCard 15 WATER 0]]>
                (<[FIRE := mkTower FIRE [mkCard 16 FIRE 0]]> initial_towers)))))
    (new_player 0 "Player0").

(** [building_state] with that player as player 0: Building, player 0 is the
    winner and holds the Sand 0 card, which no tower accepts. *)
Definition stuck_state : GameState :=
  set_players [stuck_player; new_player 1 "Player1"] building_state.

(** A player who bids 5 whenever it is their turn, places each card on the
    first tower that accepts it and tears the first non-empty tower down
    when none does; [fuel] bounds the number of actions. *)
Definition greedy_action (s : GameState) : option Action :=
  match phase s with
  | BIDDING => Some (Bid (current_player_index s) 5)
  | BUILDING =>
      match auction_winner_index s, cards_to_process s with
      | Some w, c :: _ =>
          match get_legal_placements s w c with
          | Some (suit :: _) => Some (Place rng_id w c suit)
          | _ =>
              match get_legal_tear_downs s w with
              | Some (suit :: _) => Some (TearDown w suit)
              | _ => None
              end
          end
      | _, _ => None
      end
  | _ => None
  end.

Fixpoint greedy_play (fuel : nat) (s : GameState) : list Action :=
  match fuel with
  | O => []
  | S fuel' =>
      match greedy_action s with
      | Some a =>
          match step s a with
          | Some (_, s') => a :: greedy_play fuel' s'
          | None => []
          end
      | None => []
      end
  end.

(** A whole two-player game played that way. *)
Definition whole_game : list Action := greedy_play 400 two_player_start.

Definition final_state : GameState :=
  default two_player_start (run two_player_start whole_game).

(** * Properties *)

(** ** Python list primitives *)

Lemma py_index_lt n i j : py_index n i = Some j → (j < n)%nat.
Proof.
  unfold py_index. repeat case_bool_decide; intros; simplify_eq; lia.
Qed.

Lemma py_get_Some {A} (l : list A) i x :
  py_get l i = Some x ↔ ∃ j, py_index (length l) i = Some j ∧ l !! j = Some x.
Proof.
  unfold py_get. destruct (py_index (length l) i) as [j|]; simpl.
  - split; [eauto | by intros (? & [= ->] & ?)].
  - split; [done | by intros (? & ? & ?)].
Qed.

Lemma py_get_insert {A} (l : list A) i j x :
  py_index (length l) i = Some j → py_get (<[j := x]> l) i = Some x.
Proof.
  intros Hj. unfold py_get. rewrite length_insert, Hj. simpl.
  apply list_lookup_insert_eq. by eapply py_index_lt.
Qed.

Lemma py_slices {A} (l : list A) k : py_prefix l k ++ py_suffix l k = l.
Proof. apply take_drop. Qed.

Lemma py_in_true c l : py_in c l = true ↔ c ∈ l.
Proof. unfold py_in. by rewrite bool_decide_eq_true. Qed.

Lemma py_remove_length c l l' :
  py_remove c l = Some l' → length l = S (length l').
Proof.
  revert l'. induction l as [|x l IH]; intros l'; simpl; [done|].
  case_decide; [by intros [= ->]|].
  destruct (py_remove c l) as [r|] eqn:Hr; simpl; [|done].
  intros [= <-]. simpl. by rewrite (IH r).
Qed.

Lemma py_remove_is_Some c l : c ∈ l → is_Some (py_remove c l).
Proof.
  induction 1 as [c l|c x l _ IH]; simpl.
  - rewrite decide_True by done. eauto.
  - case_decide; [eauto|]. destruct IH as [r ->]. simpl. eauto.
Qed.

(** ** Scoring (C7) *)

Lemma max_default0_nonneg (l : list Z) : Forall (λ x, 0 ≤ x) l → 0 ≤ max_default0 l.
Proof.
  destruct 1 as [|x l Hx Hl]; simpl; [done|].
  induction Hl; simpl; lia.
Qed.

Lemma tower_score_agree (t : Tower) :
  tower_calculate_score t = calculate_tower_score (cards t).
Proof.
  unfold tower_calculate_score, calculate_tower_score, top_card, is_tower_top.
  by destruct (last (cards t)).
Qed.

Lemma tower_bonus_is_max_height (ts : list Tower) :
  calculate_tower_bonus (cards <$> ts) = max_default0 (height <$> ts).
Proof.
  unfold calculate_tower_bonus. rewrite <- list_fmap_compose.
  change (λ cs : list Card, Z.of_nat (length cs)) with (λ cs : list Card, count cs).
  assert (0 ≤ max_default0 (height <$> ts)) as Hge.
  { apply max_default0_nonneg, Forall_fmap, Forall_true. intros t. unfold height. simpl. lia. }
  change ((λ cs, count cs) ∘ cards) with height.
  case_bool_decide; lia.
Qed.

Lemma penalty_exact (k : Z) :
  0 ≤ k → 2 * ((k * (k + 1)) `div` 2) = k * (k + 1).
Proof.
  intros Hk.
  assert ((k * (k + 1)) `mod` 2 = 0) as Hmod.
  { rewrite Z.mul_mod by lia. rewrite (Z.add_mod k 1) by lia.
    destruct (Z.mod_pos_bound k 2) as [? ?]; [lia|].
    assert (k `mod` 2 = 0 ∨ k `mod` 2 = 1) as [-> | ->] by lia; done. }
  pose proof (Z.div_mod (k * (k + 1)) 2). lia.
Qed.

(** C7. For every teardown-pile size [k] the penalty is the triangular number
    [k(k+1)/2], the division being exact; the listed values hold; the penalty
    method of a player is the same function of its pile; and a player's
    score is the sum of its tower scores plus the height of its tallest
    tower minus that penalty (by [calculate_player_score] and by the
    [total_score] property alike). *)
Theorem teardown_penalty_triangular :
  (∀ k : nat,
     calculate_tear_down_penalty (Z.of_nat k)
       = (Z.of_nat k * (Z.of_nat k + 1)) `div` 2
     ∧ 2 * calculate_tear_down_penalty (Z.of_nat k) = Z.of_nat k * (Z.of_nat k + 1))
  ∧ calculate_tear_down_penalty 0 = 0
  ∧ calculate_tear_down_penalty 1 = 1
  ∧ calculate_tear_down_penalty 2 = 3
  ∧ calculate_tear_down_penalty 3 = 6
  ∧ calculate_tear_down_penalty 5 = 15
  ∧ (∀ p : PlayerState,
       calculate_penalty p = calculate_tear_down_penalty (count (tear_down_pile p))
       ∧ calculate_player_score p
         = sum_Z (tower_calculate_score <$> tower_values p)
           + max_default0 (height <$> tower_values p)
           - calculate_tear_down_penalty (count (tear_down_pile p))
       ∧ total_score p = calculate_player_score p).
Proof.
  assert (∀ k : nat, calculate_tear_down_penalty (Z.of_nat k)
                     = (Z.of_nat k * (Z.of_nat k + 1)) `div` 2) as Htri.
  { intros k. unfold calculate_tear_down_penalty. case_bool_decide; [|done].
    assert (Z.of_nat k = 0) as -> by lia. done. }
  split; [|repeat split; try done].
  - intros k. split; [apply Htri|]. rewrite Htri. apply penalty_exact. lia.
  - unfold calculate_penalty, count. by rewrite Htri.
  - unfold calculate_player_score. rewrite tower_bonus_is_max_height.
    by rewrite (list_fmap_ext tower_calculate_score
                  (λ t, calculate_tower_score (cards t)) (tower_values p))
      by (intros ? t _; apply tower_score_agree).
  - unfold total_score, calculate_player_score.
    rewrite tower_bonus_is_max_height.
    assert (0 ≤ max_default0 (height <$> tower_values p)) as Hge.
    { apply max_default0_nonneg, Forall_fmap, Forall_true. intros t. unfold height. simpl. lia. }
    rewrite (list_fmap_ext tower_calculate_score
               (λ t, calculate_tower_score (cards t)) (tower_values p))
      by (intros ? t _; apply tower_score_agree).
    unfold calculate_penalty, count. rewrite Htri.
    case_bool_decide; lia.
Qed.

(** Tower scores 2 and 3 × 2, tallest tower 3, no penalty. *)
Lemma example_player_score :
  calculate_player_score example_player = 11 ∧ total_score example_player = 11.
Proof. split; vm_compute; reflexivity. Qed.

(** ** Placement legality (C3) *)

Lemma is_capped_true (t : Tower) : is_capped t = true ↔ capped t.
Proof.
  unfold is_capped, capped, is_tower_top. destruct (top_card t) as [c|].
  - rewrite bool_decide_eq_true. split; [eauto | by intros (? & [= <-] & ?)].
  - split; [done | by intros (? & ? & ?)].
Qed.

Lemma top_card_None (t : Tower) : top_card t = None ↔ cards t = [].
Proof. apply last_None. Qed.

Lemma can_place_accepts (t : Tower) (c : Card) :
  can_place t c = true ↔ tower_accepts t c.
Proof.
  unfold tower_accepts, capped, can_place, is_tower_top, is_reset, is_wild.
  rewrite <- top_card_None.
  destruct (top_card t) as [top|]; [|split; [intros _|done]].
  - repeat case_bool_decide; split; try done.
    all: try (intros _; split; [by intros (? & [= <-] & ?)|]).
    all: try by intros [Hn _]; destruct Hn; eauto.
    + right. left. eauto.
    + right. right. left. split; [done | by intros (? & [= <-] & ?)].
    + right. right. right. eauto.
    + intros (_ & [[=] | [(? & [= <-] & ?) | [(? & _) | (? & [= <-] & ?)]]]); done.
  - split; [by intros (? & ? & ?) | by left].
Qed.

Lemma can_place_card_characterised (s : GameState) (player_index : Z) (card : Card)
    (suit : TowerSuit) :
  can_place_card s player_index card suit = Some true ↔
    phase s = BUILDING
    ∧ auction_winner_index s = Some player_index
    ∧ card ∈ cards_to_process s
    ∧ ∃ player tower,
        py_get (players s) player_index = Some player
        ∧ towers player !! suit = Some tower
        ∧ tower_accepts tower card.
Proof.
  unfold can_place_card, get_tower.
  destruct (decide (phase s ≠ BUILDING)) as [Hph|Hph];
    [split; [done | by intros (? & _)]|].
  apply dec_stable in Hph.
  destruct (decide (auction_winner_index s ≠ Some player_index)) as [Hw|Hw];
    [split; [done | by intros (_ & ? & _)]|].
  apply dec_stable in Hw.
  destruct (py_in card (cards_to_process s)) eqn:Hin; simpl.
  - apply py_in_true in Hin.
    destruct (py_get (players s) player_index) as [player|]; simpl;
      [|split; [done | by intros (_ & _ & _ & ? & ? & ? & _)]].
    destruct (towers player !! suit) as [tower|] eqn:Ht; simpl.
    + split.
      * intros [= Hc]. apply can_place_accepts in Hc.
        repeat split; try done. exists player, tower. done.
      * intros (_ & _ & _ & ? & ? & [= <-] & Ht' & Hc).
        rewrite Ht in Ht'. injection Ht' as <-.
        apply can_place_accepts in Hc. by rewrite Hc.
    + split; [done|]. intros (_ & _ & _ & ? & ? & [= <-] & Ht' & _). congruence.
  - split; [done|]. intros (_ & _ & Hc & _).
    apply py_in_true in Hc. congruence.
Qed.

(** For a card of the deck (value at least 0) the four cases alone decide:
    a capped tower has top value 0, which none of them admits. *)
Lemma can_place_cases (t : Tower) (c : Card) :
  0 ≤ card_value c →
  can_place t c = true ↔
    cards t = []
    ∨ (∃ top, top_card t = Some top ∧ card_value top = 8)
    ∨ (card_value c = 9 ∧ ¬ capped t)
    ∨ (∃ top, top_card t = Some top ∧ card_value c < card_value top).
Proof.
  intros Hc. rewrite can_place_accepts. unfold tower_accepts. split; [tauto|].
  intros H. split; [|done]. intros (top & Htop & H0).
  destruct H as [He | [(top' & Htop' & H8) | [[_ Hn] | (top' & Htop' & Hlt)]]].
  - apply top_card_None in He. congruence.
  - rewrite Htop in Htop'. injection Htop' as <-. lia.
  - apply Hn. by exists top.
  - rewrite Htop in Htop'. injection Htop' as <-. lia.
Qed.

(** C3. [can_place_card] returns true exactly when the phase is Building, the
    player is the auction winner, the card is among [cards_to_process], and
    the player's tower of the given suit accepts the card by the placement
    rule of the specification. *)
Theorem can_place_card_iff (s : GameState) (player_index : Z) (card : Card)
    (suit : TowerSuit) :
  can_place_card s player_index card suit = Some true ↔
    phase s = BUILDING
    ∧ auction_winner_index s = Some player_index
    ∧ card ∈ cards_to_process s
    ∧ ∃ player tower,
        py_get (players s) player_index = Some player
        ∧ towers player !! suit = Some tower
        ∧ tower_accepts tower card.
Proof. apply can_place_card_characterised. Qed.

(** ** Illegal actions are rejected without effect (C5) *)

Lemma submit_bid_rejected s p amount :
  can_bid s p amount = Some false → submit_bid s p amount = Some (false, s).
Proof. intros H. unfold submit_bid. by rewrite H. Qed.

Lemma submit_pass_rejected s p :
  can_pass s p = Some false → submit_pass s p = Some (false, s).
Proof. intros H. unfold submit_pass. by rewrite H. Qed.

Lemma place_card_rejected rng s p c suit :
  can_place_card s p c suit = Some false → place_card rng s p c suit = Some (false, s).
Proof. intros H. unfold place_card. by rewrite H. Qed.

Lemma tear_down_tower_rejected s p suit :
  can_tear_down s p suit = Some false → tear_down_tower s p suit = Some (false, s).
Proof. intros H. unfold tear_down_tower. by rewrite H. Qed.

(** C5. Whenever the rules predicate of an action ([can_bid], [can_pass],
    [can_place_card], [can_tear_down]) returns false, the corresponding
    operation ([submit_bid], [submit_pass], [place_card], [tear_down_tower])
    returns false, does not raise, and hands back the state it was given. *)
Theorem illegal_action_rejected (s : GameState) (a : Action) :
  precondition s a = Some false → step s a = Some (false, s).
Proof.
  destruct a; simpl.
  - apply submit_bid_rejected.
  - apply submit_pass_rejected.
  - apply place_card_rejected.
  - apply tear_down_tower_rejected.
Qed.

Lemma illegal_action_rejected_witness :
  step two_player_start (Bid 1 3) = Some (false, two_player_start)
  ∧ step two_player_start (Pass 1) = Some (false, two_player_start)
  ∧ step two_player_start (Place rng_id 0 sand_top SAND) = Some (false, two_player_start)
  ∧ step two_player_start (TearDown 0 SAND) = Some (false, two_player_start).
Proof.
  split; [|split; [|split]];
    apply illegal_action_rejected; vm_compute; reflexivity.
Defined.

(** ** A bid of 5 wins at once (C6) *)

Lemma can_bid_true s p amount :
  can_bid s p amount = Some true →
  phase s = BIDDING ∧ current_player_index s = p
  ∧ current_high_bid s < amount ≤ 5
  ∧ ∃ j player, py_index (length (players s)) p = Some j
                ∧ players s !! j = Some player ∧ has_passed player = false.
Proof.
  unfold can_bid.
  destruct (decide (phase s ≠ BIDDING)) as [|Hph%dec_stable]; [done|].
  destruct (decide (current_player_index s ≠ p)) as [|Hcur%dec_stable]; [done|].
  destruct (py_get (players s) p) as [player|] eqn:Hp; simpl; [|done].
  apply py_get_Some in Hp as (j & Hj & Hl).
  destruct (has_passed player) eqn:Hpass; [done|].
  repeat case_bool_decide; try done. intros _.
  repeat split; try done; try lia. eauto.
Qed.

(** C6. If [can_bid s p 5] holds then [submit_bid s p 5] succeeds and the
    auction is over in the state it returns: [p] is the auction winner, the
    phase is Building and it is [p]'s turn. Nothing is assumed about the
    other players, so this holds however many of them are still active. *)
Theorem bid_of_five_wins (s : GameState) (p : Z) :
  can_bid s p 5 = Some true →
  ∃ s', submit_bid s p 5 = Some (true, s')
        ∧ auction_winner_index s' = Some p
        ∧ phase s' = BUILDING
        ∧ current_player_index s' = p.
Proof.
  intros Hcan. unfold submit_bid. rewrite Hcan. simpl.
  apply can_bid_true in Hcan as (_ & _ & _ & j & player & Hj & Hl & _).
  rewrite Hj. simpl. rewrite Hl. simpl.
  unfold award_to_winner. simpl.
  rewrite (py_get_insert _ _ _ _ Hj). simpl.
  eexists. split; [reflexivity|]. done.
Qed.

Lemma bid_of_five_wins_witness :
  ∃ s', submit_bid two_player_start 0 5 = Some (true, s')
        ∧ auction_winner_index s' = Some 0
        ∧ phase s' = BUILDING
        ∧ current_player_index s' = 0.
Proof. apply (bid_of_five_wins two_player_start 0). vm_compute. reflexivity. Defined.

(** ** Deck composition (C8) *)

Lemma all_suits_complete (suit : TowerSuit) : suit ∈ all_suits.
Proof. unfold all_suits. destruct suit; set_solver. Qed.

Lemma base_set_elem (suit : TowerSuit) (v : Z) :
  0 ≤ v ≤ 15 → (suit, v) ∈ base_set.
Proof.
  intros Hv. unfold base_set. apply list_elem_of_bind.
  exists suit. split; [|apply all_suits_complete].
  apply list_elem_of_bind. exists v. split; [by constructor|].
  apply elem_of_seqZ. lia.
Qed.

Lemma create_standard_deck_length rng fresh n :
  length (create_standard_deck rng fresh n) = if bool_decide (n >= 4) then 110%nat else 80%nat.
Proof.
  unfold create_standard_deck.
  rewrite (Permutation_length (shuffle_perm rng _)), length_imap.
  by case_bool_decide.
Qed.

Lemma create_standard_deck_base rng fresh n suit v :
  (suit, v) ∈ base_set →
  ∃ c, c ∈ create_standard_deck rng fresh n ∧ card_suit c = suit ∧ card_value c = v.
Proof.
  intros Hin. unfold create_standard_deck.
  set (spec := if bool_decide (n >= 4) then base_set ++ expansion_set else base_set).
  assert ((suit, v) ∈ spec) as Hspec.
  { unfold spec. case_bool_decide; [apply elem_of_app; by left | done]. }
  apply list_elem_of_lookup in Hspec as [k Hk].
  exists (mkCard (fresh k) suit v). split; [|done].
  rewrite (shuffle_perm rng _).
  apply list_elem_of_lookup. exists k.
  rewrite list_lookup_imap, Hk. done.
Qed.

(** C8. The deck built for 2 or 3 players has exactly 80 cards, the deck
    built for 4 or 5 players exactly 110, and every deck holds, for each of
    the five suits, a card of every value from 0 to 15. *)
Theorem standard_deck_composition (rng : Rng) (fresh : nat → Z) (num_players : Z) :
  (num_players = 2 ∨ num_players = 3 →
     length (create_standard_deck rng fresh num_players) = 80%nat)
  ∧ (num_players = 4 ∨ num_players = 5 →
     length (create_standard_deck rng fresh num_players) = 110%nat)
  ∧ (∀ suit v, 0 ≤ v ≤ 15 →
       ∃ c, c ∈ create_standard_deck rng fresh num_players
            ∧ card_suit c = suit ∧ card_value c = v).
Proof.
  rewrite create_standard_deck_length. repeat split.
  - intros [-> | ->]; done.
  - intros [-> | ->]; done.
  - intros suit v Hv. by apply create_standard_deck_base, base_set_elem.
Qed.

Lemma standard_deck_composition_witness :
  length (create_standard_deck rng_rev Z.of_nat 2) = 80%nat
  ∧ length (create_standard_deck rng_rev Z.of_nat 5) = 110%nat
  ∧ ∃ c, c ∈ create_standard_deck rng_rev Z.of_nat 4
         ∧ card_suit c = FIRE ∧ card_value c = 15.
Proof.
  split; [|split].
  - apply (proj1 (standard_deck_composition rng_rev Z.of_nat 2)). by left.
  - apply (proj1 (proj2 (standard_deck_composition rng_rev Z.of_nat 5))). by right.
  - apply (proj2 (proj2 (standard_deck_composition rng_rev Z.of_nat 4))). lia.
Defined.

(** ** Resolving an auction (C1, C2) *)

Lemma award_zero_bid s w winner :
  py_get (players s) w = Some winner →
  bid_or_0 (current_bid winner) = 0 →
  end_auction s (Some w)
  = Some (set_current_player_index w
            (set_phase BUILDING
               (start_new_round
                  (discard_display_cards (set_auction_winner_index (Some w) s))))).
Proof.
  intros Hw Hbid. simpl. unfold award_to_winner. simpl.
  rewrite Hw. simpl. by rewrite decide_True.
Qed.

(** Whatever the state, an auction won with a bid of 0 leaves the phase at
    Building: the assignment at the end of [end_auction] runs after
    [start_new_round] has set the phase. *)
Lemma award_zero_bid_phase s w winner s' :
  py_get (players s) w = Some winner →
  bid_or_0 (current_bid winner) = 0 →
  end_auction s (Some w) = Some s' →
  phase s' = BUILDING ∧ auction_winner_index s' = None
  ∧ cards_to_process s' = cards_to_process s.
Proof.
  intros Hw Hbid. rewrite (award_zero_bid _ _ _ Hw Hbid). intros [= <-].
  unfold start_new_round, deal_display_cards. simpl.
  destruct (deal_loop _ _ _) as [dk cs]. by destruct cs.
Qed.

(** C1. In a two-player game fresh from [reset], player 0 passes; player 1,
    who never bid, is the sole active bidder and [end_auction] resolves with
    a winning bid of 0. The display row is discarded and a new round is
    dealt, yet the phase that results is Building, with no auction winner
    and no card to place. *)
Theorem zero_bid_auction_ends_in_building :
  (∃ winner s1,
     py_get (players two_player_start) 1 = Some winner
     ∧ current_bid winner = None
     ∧ end_auction two_player_start (Some 1) = Some s1
     ∧ phase s1 = BUILDING)
  ∧ (∃ s1,
       submit_pass two_player_start 0 = Some (true, s1)
       ∧ phase s1 = BUILDING
       ∧ auction_winner_index s1 = None
       ∧ cards_to_process s1 = []
       ∧ length (display_cards s1) = 5%nat
       ∧ length (discard_pile s1) = 5%nat
       ∧ round_number s1 = 2).
Proof.
  split.
  - eexists _, _. split; [vm_compute; reflexivity|].
    split; [reflexivity|]. split; [vm_compute; reflexivity|]. reflexivity.
  - eexists. split; [vm_compute; reflexivity|].
    repeat split; vm_compute; reflexivity.
Qed.

(** C2 (as the code has it). When [end_auction] is called with no explicit
    winner, no high bidder is recorded and the number of active bidders is
    not one, the display row is appended to the discard pile and emptied,
    and nothing else changes: no new round is started. *)
Theorem void_auction_only_discards (s : GameState) :
  high_bidder_index s = None →
  length (active_bidders s) ≠ 1%nat →
  ∃ s', end_auction s None = Some s'
        ∧ discard_pile s' = discard_pile s ++ display_cards s
        ∧ display_cards s' = []
        ∧ phase s' = phase s
        ∧ round_number s' = round_number s
        ∧ deck s' = deck s
        ∧ players s' = players s
        ∧ current_player_index s' = current_player_index s
        ∧ current_high_bid s' = current_high_bid s
        ∧ high_bidder_index s' = high_bidder_index s
        ∧ auction_winner_index s' = auction_winner_index s
        ∧ cards_to_process s' = cards_to_process s.
Proof.
  intros Hhigh Hact. exists (discard_display_cards s). split; [|done].
  simpl. rewrite Hhigh.
  destruct (active_bidders s) as [|only [|? ?]]; done.
Qed.

Lemma void_auction_only_discards_witness :
  ∃ s', end_auction two_player_start None = Some s'
        ∧ discard_pile s' = discard_pile two_player_start ++ display_cards two_player_start
        ∧ display_cards s' = []
        ∧ phase s' = phase two_player_start
        ∧ round_number s' = round_number two_player_start
        ∧ deck s' = deck two_player_start
        ∧ players s' = players two_player_start
        ∧ current_player_index s' = current_player_index two_player_start
        ∧ current_high_bid s' = current_high_bid two_player_start
        ∧ high_bidder_index s' = high_bidder_index two_player_start
        ∧ auction_winner_index s' = auction_winner_index two_player_start
        ∧ cards_to_process s' = cards_to_process two_player_start.
Proof.
  apply (void_auction_only_discards two_player_start).
  - vm_compute. reflexivity.
  - vm_compute. lia.
Defined.

(** The claim C2 as worded fails on the start state of a two-player game:
    both players are active and nobody has bid, the row goes to the discard
    pile, and that is all; no row is dealt from the 75 cards of the deck and
    the round number stays. *)
Lemma void_auction_starts_no_round :
  high_bidder_index two_player_start = None
  ∧ length (active_bidders two_player_start) = 2%nat
  ∧ end_auction two_player_start None ≠ Some (void_round_spec two_player_start)
  ∧ (∃ s', end_auction two_player_start None = Some s'
           ∧ display_cards s' = []
           ∧ length (deck s') = 75%nat
           ∧ round_number s' = round_number two_player_start
           ∧ length (display_cards (void_round_spec two_player_start)) = 5%nat).
Proof.
  split; [vm_compute; reflexivity|]. split; [vm_compute; reflexivity|]. split.
  - intros Heq. apply (f_equal (fmap (λ s, length (display_cards s)))) in Heq.
    vm_compute in Heq. discriminate.
  - eexists. split; [vm_compute; reflexivity|]. repeat split; vm_compute; reflexivity.
Qed.

(** ** Counting cards *)

Lemma sum_Z_app l1 l2 : sum_Z (l1 ++ l2) = sum_Z l1 + sum_Z l2.
Proof. induction l1 as [|x l1 IH]; simpl; lia. Qed.

Lemma sum_Z_Permutation l1 l2 : l1 ≡ₚ l2 → sum_Z l1 = sum_Z l2.
Proof. induction 1; simpl; lia. Qed.

Lemma sum_Z_insert (l : list Z) j x y :
  l !! j = Some x → sum_Z (<[j := y]> l) = sum_Z l - x + y.
Proof.
  revert j. induction l as [|z l IH]; intros [|j]; simpl; try done.
  - intros [= ->]. lia.
  - intros Hj. rewrite (IH _ Hj). lia.
Qed.

Lemma count_app l1 l2 : count (l1 ++ l2) = count l1 + count l2.
Proof. unfold count. rewrite length_app. lia. Qed.

Lemma count_Permutation l1 l2 : l1 ≡ₚ l2 → count l1 = count l2.
Proof. unfold count. by intros ->. Qed.

Lemma player_cards_holdings p : player_cards p = holding_cards (holdings p).
Proof. reflexivity. Qed.

Lemma sum_player_cards (l : list PlayerState) :
  sum_Z (player_cards <$> l) = sum_Z (holding_cards <$> (holdings <$> l)).
Proof. by rewrite <- list_fmap_compose. Qed.

Lemma tower_heights_insert (m : gmap TowerSuit Tower) suit t t' :
  m !! suit = Some t →
  sum_Z (height <$> (map_to_list (<[suit := t']> m)).*2)
  = sum_Z (height <$> (map_to_list m).*2) - height t + height t'.
Proof.
  intros Hm.
  assert (map_to_list (<[suit := t']> m) ≡ₚ (suit, t') :: map_to_list (delete suit m))
    as Hnew.
  { rewrite <- insert_delete_eq. apply map_to_list_insert, lookup_delete_eq. }
  assert (map_to_list m ≡ₚ (suit, t) :: map_to_list (delete suit m)) as Hold.
  { symmetry. by apply map_to_list_delete. }
  rewrite (sum_Z_Permutation _ _
             (fmap_Permutation height _ _ (fmap_Permutation snd _ _ Hnew))).
  rewrite (sum_Z_Permutation _ _
             (fmap_Permutation height _ _ (fmap_Permutation snd _ _ Hold))).
  simpl. lia.
Qed.

Lemma holdings_reset_flags (l : list PlayerState) :
  holdings <$> (reset_auction_flags <$> l) = holdings <$> l.
Proof. by rewrite <- list_fmap_compose. Qed.

Lemma holdings_insert_same (l : list PlayerState) j p p' :
  l !! j = Some p → holdings p' = holdings p →
  holdings <$> <[j := p']> l = holdings <$> l.
Proof.
  intros Hj Hh. rewrite list_fmap_insert, Hh.
  apply list_insert_id. by rewrite list_lookup_fmap, Hj.
Qed.

Lemma tower_at_holdings s i suit :
  tower_at s i suit = (holdings <$> players s) !! i ≫= (λ h, h.1 !! suit).
Proof. unfold tower_at. rewrite list_lookup_fmap. by destruct (players s !! i). Qed.

Lemma holdings_length s s' :
  holdings <$> players s' = holdings <$> players s →
  length (players s') = length (players s).
Proof. intros H. apply (f_equal length) in H. by rewrite !length_fmap in H. Qed.

(** ** What the helpers of the controllers do *)

Lemma py_pop_length dk c dk' :
  py_pop dk = Some (c, dk') → length dk = S (length dk').
Proof.
  unfold py_pop. destruct (last dk) as [x|] eqn:Hlast; [|done].
  intros [= <- <-]. rewrite length_take.
  destruct dk; [done|]. simpl. lia.
Qed.

Lemma deal_loop_length n dk acc dk' cs :
  deal_loop n dk acc = (dk', cs) →
  (length dk' + length cs = length dk + length acc)%nat.
Proof.
  revert dk acc. induction n as [|n IH]; intros dk acc; unfold deal_loop; fold deal_loop.
  - by intros [= <- <-].
  - destruct (py_pop dk) as [[c dk1]|] eqn:Hpop; [|by intros [= <- <-]].
    intros Hloop. apply IH in Hloop. apply py_pop_length in Hpop.
    rewrite length_app in Hloop. simpl in Hloop. lia.
Qed.

Lemma deal_display_cards_shape s n :
  ∃ dk cs,
    deal_display_cards s n = (cs, set_display_cards cs (set_deck dk s))
    ∧ (length dk + length cs = length (deck s))%nat.
Proof.
  unfold deal_display_cards.
  destruct (deal_loop (Z.to_nat n) (deck s) []) as [dk cs] eqn:Hloop.
  exists dk, cs. split; [done|].
  apply deal_loop_length in Hloop. simpl in Hloop. lia.
Qed.

Lemma start_new_round_shape s :
  ∃ ph rn dk cs,
    start_new_round s
    = mkGame ph rn dk cs (discard_pile s) (reset_auction_flags <$> players s)
        (current_player_index s) 0 None None (cards_to_process s)
    ∧ ph ≠ BUILDING
    ∧ (length dk + length cs = length (deck s))%nat.
Proof.
  unfold start_new_round.
  destruct (deal_display_cards_shape
              (set_auction_winner_index None
                 (set_high_bidder_index None
                    (set_current_high_bid 0
                       (set_players (reset_auction_flags <$> players s) s)))) 5)
    as (dk & cs & -> & Hlen).
  simpl in Hlen. destruct cs as [|c cs]; simpl; eauto 10.
Qed.

Lemma count_slices (l : list Card) k : count (py_prefix l k) + count (py_suffix l k) = count l.
Proof. rewrite <- count_app. by rewrite py_slices. Qed.

Lemma bid_ok_reset_flags (l : list PlayerState) : Forall bid_ok (reset_auction_flags <$> l).
Proof. apply Forall_fmap, Forall_true. intros p b. done. Qed.

Lemma total_cards_holdings s :
  total_cards s
  = count (deck s) + count (discard_pile s) + count (display_cards s)
    + sum_Z (holding_cards <$> (holdings <$> players s)) + count (cards_to_process s).
Proof. unfold total_cards. by rewrite sum_player_cards. Qed.

(** Awarding the row to a winner whose index is in range, when nothing
    awaits placement: the invariant holds afterwards, no card is lost and
    no player's holdings change. *)
Lemma award_to_winner_effect s w s' :
  award_to_winner s w = Some s' →
  0 ≤ w < Z.of_nat (length (players s)) →
  0 ≤ current_high_bid s →
  Forall bid_ok (players s) →
  cards_to_process s = [] →
  Inv s' ∧ total_cards s' = total_cards s
  ∧ holdings <$> players s' = holdings <$> players s.
Proof.
  intros Haward Hw Hhigh Hbids Hctp. unfold award_to_winner in Haward.
  simpl in Haward.
  destruct (py_get (players s) w) as [winner|]; simpl in Haward; [|done].
  destruct (decide (bid_or_0 (current_bid winner) = 0)) as [Hzero|Hnz].
  - destruct (start_new_round_shape
                (discard_display_cards (set_auction_winner_index (Some w) s)))
      as (ph & rn & dk & cs & Hshape & Hph & Hlen).
    rewrite Hshape in Haward. simpl in Haward, Hlen. injection Haward as <-.
    split; [|split].
    + split; simpl; try done; try lia.
      * by rewrite length_fmap.
      * apply bid_ok_reset_flags.
      * auto.
    + rewrite !total_cards_holdings. simpl.
      rewrite holdings_reset_flags, count_app. unfold count in *. simpl. lia.
    + simpl. apply holdings_reset_flags.
  - injection Haward as <-.
    split; [|split].
    + split; simpl; try done. auto.
    + rewrite !total_cards_holdings. simpl.
      rewrite count_app, Hctp.
      pose proof (count_slices (display_cards s) (bid_or_0 (current_bid winner))).
      unfold count in *. simpl. lia.
    + done.
Qed.

Lemma get_player_index_from_range i l id w :
  get_player_index_from i l id = Some w → i ≤ w < i + Z.of_nat (length l).
Proof.
  revert i. induction l as [|p l IH]; intros i; simpl; [done|].
  case_decide; [intros [= <-]; lia|].
  intros Hw. apply IH in Hw. lia.
Qed.

Lemma get_player_index_range s id w :
  get_player_index s id = Some w → 0 ≤ w < Z.of_nat (length (players s)).
Proof. intros Hw. apply get_player_index_from_range in Hw. lia. Qed.

Lemma advance_bidding_loop_shape n original s s' :
  advance_bidding_loop n original s = Some s' →
  ∃ x, s' = set_current_player_index x s
       ∧ (x = current_player_index s ∨ 0 ≤ x < Z.of_nat (length (players s))).
Proof.
  revert s. induction n as [|n IH]; intros s; simpl.
  - intros [= <-]. exists (current_player_index s). by destruct s; auto.
  - unfold advance_turn. destruct (decide (players s = [])) as [|Hne]; [done|]. simpl.
    set (x := (current_player_index s + 1) `mod` Z.of_nat (length (players s))).
    assert (0 ≤ x < Z.of_nat (length (players s))) as Hx.
    { apply Z.mod_pos_bound. destruct (players s); simpl; [done | lia]. }
    destruct (py_get (players s) x) as [p|]; simpl; [|done].
    destruct (has_passed p); simpl.
    + case_decide.
      * intros [= <-]. eauto.
      * intros Hloop. apply IH in Hloop as (y & -> & Hy). simpl in *.
        exists y. split; [done|]. destruct Hy as [-> | Hy]; auto.
    + intros [= <-]. eauto.
Qed.

Lemma update_player_same_holdings s j p p' :
  players s !! j = Some p → holdings p' = holdings p →
  holdings <$> players (update_player s j p') = holdings <$> players s
  ∧ total_cards (update_player s j p') = total_cards s.
Proof.
  intros Hj Hh.
  assert (holdings <$> players (update_player s j p') = holdings <$> players s) as Heq.
  { simpl. by eapply holdings_insert_same. }
  split; [done|]. rewrite !total_cards_holdings, Heq. done.
Qed.

(** ** The four actions keep the invariant and the cards *)

Lemma submit_bid_effect s p amount ok s' :
  Inv s → submit_bid s p amount = Some (ok, s') →
  Inv s' ∧ total_cards s' = total_cards s
  ∧ holdings <$> players s' = holdings <$> players s.
Proof.
  intros HI. unfold submit_bid.
  destruct (can_bid s p amount) as [[|]|] eqn:Hcan; simpl; [|by intros [= <- <-]|done].
  apply can_bid_true in Hcan as (Hph & Hcur & Hamt & j & player & Hj & Hl & _).
  rewrite Hj. simpl. rewrite Hl. simpl.
  set (player' := set_current_bid (Some amount) player).
  destruct (update_player_same_holdings s j player player' Hl eq_refl) as [Hh Htot].
  destruct HI as [Hturn Hhigh Hbids Hbidding Hbuilding].
  assert (Forall bid_ok (<[j := player']> (players s))) as Hbids'.
  { apply Forall_insert; [done|]. intros b [= <-]. lia. }
  set (s3 := set_high_bidder_index (Some p)
               (set_current_high_bid amount (update_player s j player'))).
  destruct (is_bid_winning_bid s3 amount).
  - destruct (award_to_winner s3 p) as [s4|] eqn:Haward; simpl; [|done].
    intros [= <- <-].
    apply award_to_winner_effect in Haward as (HI4 & Htot4 & Hh4); simpl.
    + split; [done|]. split; [by rewrite Htot4, <- Htot | by rewrite Hh4, <- Hh].
    + rewrite length_insert. lia.
    + lia.
    + done.
    + auto.
  - destruct (advance_bidding_turn s3) as [s4|] eqn:Hadv; simpl; [|done].
    intros [= <- <-].
    apply advance_bidding_loop_shape in Hadv as (x & -> & Hx). simpl in Hx.
    rewrite length_insert in Hx.
    split; [|split; [by rewrite <- Htot | by rewrite <- Hh]].
    split; simpl; try done.
    + rewrite length_insert. lia.
    + lia.
Qed.

Lemma can_pass_true s p :
  can_pass s p = Some true →
  phase s = BIDDING ∧ current_player_index s = p
  ∧ ∃ j player, py_index (length (players s)) p = Some j
                ∧ players s !! j = Some player ∧ has_passed player = false.
Proof.
  unfold can_pass.
  destruct (decide (phase s ≠ BIDDING)) as [|Hph%dec_stable]; [done|].
  destruct (decide (current_player_index s ≠ p)) as [|Hcur%dec_stable]; [done|].
  destruct (py_get (players s) p) as [player|] eqn:Hp; simpl; [|done].
  apply py_get_Some in Hp as (j & Hj & Hl).
  destruct (has_passed player) eqn:Hpass; [done|]. intros _.
  repeat split; try done. eauto.
Qed.

Lemma submit_pass_effect s p ok s' :
  Inv s → submit_pass s p = Some (ok, s') →
  Inv s' ∧ total_cards s' = total_cards s
  ∧ holdings <$> players s' = holdings <$> players s.
Proof.
  intros HI. unfold submit_pass.
  destruct (can_pass s p) as [[|]|] eqn:Hcan; simpl; [|by intros [= <- <-]|done].
  apply can_pass_true in Hcan as (Hph & Hcur & j & player & Hj & Hl & _).
  rewrite Hj. simpl. rewrite Hl. simpl. unfold mark_passed.
  set (player' := set_has_passed true player).
  destruct (update_player_same_holdings s j player player' Hl eq_refl) as [Hh Htot].
  destruct HI as [Hturn Hhigh Hbids Hbidding Hbuilding].
  assert (Forall bid_ok (<[j := player']> (players s))) as Hbids'.
  { apply Forall_insert; [done|].
    intros b Hb. by eapply (Forall_lookup_1 _ _ _ _ Hbids Hl). }
  set (s1 := update_player s j player').
  assert (∀ w s2, award_to_winner s1 w = Some s2 →
                  0 ≤ w < Z.of_nat (length (players s1)) →
                  Inv s2 ∧ total_cards s2 = total_cards s
                  ∧ holdings <$> players s2 = holdings <$> players s) as Haward.
  { intros w s2 Hw Hrange.
    apply award_to_winner_effect in Hw as (HI2 & Htot2 & Hh2); simpl; auto.
    split; [done|]. split; [by rewrite Htot2, <- Htot | by rewrite Hh2, <- Hh]. }
  assert (∀ s2, advance_bidding_turn s1 = Some s2 →
                Inv s2 ∧ total_cards s2 = total_cards s
                ∧ holdings <$> players s2 = holdings <$> players s) as Hadv.
  { intros s2 Hs2.
    apply advance_bidding_loop_shape in Hs2 as (x & -> & Hx). simpl in Hx.
    rewrite length_insert in Hx.
    split; [|split; [by rewrite <- Htot | by rewrite <- Hh]].
    split; simpl; try done. rewrite length_insert. lia. }
  destruct (active_bidders s1) as [|winner [|? ?]].
  - destruct (advance_bidding_turn s1) as [s2|] eqn:Hs2; simpl; [|done].
    intros [= <- <-]. by apply Hadv.
  - destruct (get_player_index s1 (player_id winner)) as [w|] eqn:Hw; simpl; [|done].
    destruct (award_to_winner s1 w) as [s2|] eqn:Hs2; simpl; [|done].
    intros [= <- <-]. apply Haward with w; [done|].
    by apply get_player_index_range in Hw.
  - destruct (advance_bidding_turn s1) as [s2|] eqn:Hs2; simpl; [|done].
    intros [= <- <-]. by apply Hadv.
Qed.

Lemma end_building_phase_holdings rng s :
  holdings <$> players (end_building_phase rng s) = holdings <$> players s.
Proof.
  unfold end_building_phase, refill_deck_from_discard.
  case_decide.
  - destruct (discard_pile s) eqn:Hd; [done|].
    destruct (start_new_round_shape
                (shuffle_deck rng (set_discard_pile [] (set_deck (c :: l) s))))
      as (ph & rn & dk & cs & -> & _ & _).
    simpl. apply holdings_reset_flags.
  - destruct (start_new_round_shape s) as (ph & rn & dk & cs & -> & _ & _).
    simpl. apply holdings_reset_flags.
Qed.

(** Ending the building phase with an empty display row and nothing left
    to place. *)
Lemma end_building_phase_effect rng s :
  display_cards s = [] →
  cards_to_process s = [] →
  0 ≤ current_player_index s < Z.of_nat (length (players s)) →
  0 ≤ current_high_bid s →
  Forall bid_ok (players s) →
  Inv (end_building_phase rng s)
  ∧ total_cards (end_building_phase rng s) = total_cards s.
Proof.
  intros Hdisp Hctp Hturn Hhigh Hbids.
  unfold end_building_phase, refill_deck_from_discard, cards_remaining.
  case_decide as Hdeck.
  - assert (deck s = []) as Hdk by (destruct (deck s); simpl in *; [done | lia]).
    destruct (discard_pile s) as [|c l] eqn:Hd.
    + split; [split; simpl; try done|].
      rewrite !total_cards_holdings. done.
    + destruct (start_new_round_shape
                  (shuffle_deck rng (set_discard_pile [] (set_deck (c :: l) s))))
        as (ph & rn & dk & cs & -> & Hph & Hlen).
      simpl in Hlen. rewrite (Permutation_length (shuffle_perm rng _)) in Hlen.
      simpl in Hlen. split.
      * split; simpl; try done.
        -- by rewrite length_fmap.
        -- apply bid_ok_reset_flags.
      * rewrite !total_cards_holdings. simpl.
        rewrite holdings_reset_flags, Hdisp, Hdk, Hd.
        unfold count. simpl. lia.
  - destruct (start_new_round_shape s) as (ph & rn & dk & cs & -> & Hph & Hlen).
    split.
    + split; simpl; try done.
      * by rewrite length_fmap.
      * apply bid_ok_reset_flags.
    + rewrite !total_cards_holdings. simpl.
      rewrite holdings_reset_flags, Hdisp. unfold count. simpl. lia.
Qed.

Lemma can_place_card_true s p c suit :
  can_place_card s p c suit = Some true →
  phase s = BUILDING ∧ auction_winner_index s = Some p ∧ c ∈ cards_to_process s
  ∧ ∃ j player tower,
      py_index (length (players s)) p = Some j ∧ players s !! j = Some player
      ∧ towers player !! suit = Some tower ∧ can_place tower c = true.
Proof.
  intros Hcan. apply can_place_card_characterised in Hcan
    as (Hph & Hw & Hc & player & tower & Hp & Ht & Hacc).
  apply py_get_Some in Hp as (j & Hj & Hl).
  apply can_place_accepts in Hacc. eauto 12.
Qed.

Lemma place_card_shape rng s p c suit s' :
  place_card rng s p c suit = Some (true, s') →
  ∃ j player tower l,
    py_index (length (players s)) p = Some j
    ∧ players s !! j = Some player
    ∧ towers player !! suit = Some tower
    ∧ can_place tower c = true
    ∧ phase s = BUILDING
    ∧ auction_winner_index s = Some p
    ∧ py_remove c (cards_to_process s) = Some l
    ∧ s' = (let tower' := mkTower (tower_suit tower) (cards tower ++ [c]) in
            let s2 := set_cards_to_process l
                        (update_player s j
                           (set_towers (<[suit := tower']> (towers player)) player)) in
            if decide (length l = 0%nat) then end_building_phase rng s2 else s2).
Proof.
  unfold place_card.
  destruct (can_place_card s p c suit) as [[|]|] eqn:Hcan; simpl; [|done|done].
  apply can_place_card_true in Hcan
    as (Hph & Hw & Hc & j & player & tower & Hj & Hl & Ht & Hacc).
  rewrite Hj. simpl. rewrite Hl. simpl. unfold get_tower. rewrite Ht. simpl.
  unfold add_card. rewrite Hacc. simpl.
  apply py_in_true in Hc as Hin. rewrite Hin.
  destruct (py_remove_is_Some _ _ Hc) as [l Hrem]. rewrite Hrem. simpl.
  intros [= <-]. exists j, player, tower, l. done.
Qed.

Lemma tear_down_tower_shape s p suit s' :
  tear_down_tower s p suit = Some (true, s') →
  ∃ j player tower,
    py_index (length (players s)) p = Some j
    ∧ players s !! j = Some player
    ∧ towers player !! suit = Some tower
    ∧ height tower > 0
    ∧ phase s = BUILDING
    ∧ auction_winner_index s = Some p
    ∧ s' = update_player s j
             (set_tear_down_pile (tear_down_pile player ++ cards tower)
                (set_towers (<[suit := mkTower (tower_suit tower) []]> (towers player))
                   player)).
Proof.
  unfold tear_down_tower, can_tear_down.
  destruct (decide (phase s ≠ BUILDING)) as [|Hph%dec_stable]; [done|].
  destruct (decide (auction_winner_index s ≠ Some p)) as [|Hw%dec_stable]; [done|].
  destruct (py_get (players s) p) as [player|] eqn:Hp; simpl; [|done].
  apply py_get_Some in Hp as (j & Hj & Hl).
  unfold get_tower. destruct (towers player !! suit) as [tower|] eqn:Ht; simpl; [|done].
  case_bool_decide as Hh; simpl; [|done].
  rewrite Hj. simpl. rewrite Hl. simpl. rewrite Ht. simpl.
  intros [= <-]. exists j, player, tower. done.
Qed.

Lemma step_false s a s' : step s a = Some (false, s') → s' = s.
Proof.
  destruct a; simpl.
  - unfold submit_bid. destruct (can_bid _ _ _) as [[|]|]; simpl; [|congruence|done].
    destruct (py_index _ _); simpl; [|done]. destruct (players s !! _); simpl; [|done].
    destruct (if is_bid_winning_bid _ _ then _ else _); simpl; [congruence|done].
  - unfold submit_pass. destruct (can_pass _ _) as [[|]|]; simpl; [|congruence|done].
    destruct (py_index _ _); simpl; [|done]. destruct (players s !! _); simpl; [|done].
    destruct (match active_bidders _ with [] => _ | _ => _ end); simpl; [congruence|done].
  - unfold place_card.
    destruct (can_place_card _ _ _ _) as [[|]|]; simpl; [|congruence|done].
    destruct (py_index _ _); simpl; [|done]. destruct (players s !! _); simpl; [|done].
    destruct (get_tower _ _); simpl; [|done]. destruct (add_card _ _); simpl; [|done].
    destruct (if py_in _ _ then _ else _); simpl; [congruence|done].
  - unfold tear_down_tower.
    destruct (can_tear_down _ _ _) as [[|]|]; simpl; [|congruence|done].
    destruct (py_index _ _); simpl; [|done]. destruct (players s !! _); simpl; [|done].
    destruct (get_tower _ _); simpl; [congruence|done].
Qed.

Lemma sum_holdings_insert (l : list PlayerState) j p h :
  l !! j = Some p →
  sum_Z (holding_cards <$> <[j := h]> (holdings <$> l))
  = sum_Z (holding_cards <$> (holdings <$> l)) - player_cards p + holding_cards h.
Proof.
  intros Hj. rewrite list_fmap_insert.
  apply sum_Z_insert. by rewrite !list_lookup_fmap, Hj.
Qed.

Lemma place_card_effect rng s p c suit s' :
  Inv s → place_card rng s p c suit = Some (true, s') →
  Inv s' ∧ total_cards s' = total_cards s.
Proof.
  intros [Hturn Hhigh Hbids Hbidding Hbuilding] Hplace.
  apply place_card_shape in Hplace
    as (j & player & tower & l & Hj & Hl & Ht & Hacc & Hph & Hw & Hrem & ->).
  set (tower' := mkTower (tower_suit tower) (cards tower ++ [c])).
  set (player' := set_towers (<[suit := tower']> (towers player)) player).
  set (s2 := set_cards_to_process l (update_player s j player')).
  assert (display_cards s = []) as Hdisp.
  { destruct (Hbuilding Hph) as [?|Hnone]; [done | congruence]. }
  assert (Forall bid_ok (<[j := player']> (players s))) as Hbids'.
  { apply Forall_insert; [done|].
    intros b Hb. by eapply (Forall_lookup_1 _ _ _ _ Hbids Hl). }
  assert (total_cards s2 = total_cards s) as Htot.
  { rewrite !total_cards_holdings. simpl.
    rewrite list_fmap_insert, (sum_holdings_insert _ _ _ _ Hl).
    rewrite player_cards_holdings. unfold holding_cards, holdings. simpl.
    rewrite (tower_heights_insert _ _ _ tower' Ht).
    apply py_remove_length in Hrem.
    unfold height, tower', count. simpl. rewrite length_app. simpl. lia. }
  simpl. destruct (decide (length l = 0%nat)) as [Hempty|Hne].
  - destruct (end_building_phase_effect rng s2) as [HI' Htot']; simpl; try done.
    + by destruct l.
    + rewrite length_insert. lia.
    + split; [exact HI' | exact (eq_trans Htot' Htot)].
  - split; [|exact Htot]. split; simpl; try done.
    + rewrite length_insert. lia.
    + congruence.
Qed.

Lemma tear_down_tower_effect s p suit s' :
  Inv s → tear_down_tower s p suit = Some (true, s') →
  Inv s' ∧ total_cards s' = total_cards s.
Proof.
  intros [Hturn Hhigh Hbids Hbidding Hbuilding] Htear.
  apply tear_down_tower_shape in Htear
    as (j & player & tower & Hj & Hl & Ht & Hh & Hph & Hw & ->).
  split.
  - split; simpl; try done.
    + rewrite length_insert. lia.
    + apply Forall_insert; [done|].
      intros b Hb. by eapply (Forall_lookup_1 _ _ _ _ Hbids Hl).
  - rewrite !total_cards_holdings. simpl.
    rewrite list_fmap_insert, (sum_holdings_insert _ _ _ _ Hl).
    rewrite player_cards_holdings. unfold holding_cards, holdings. simpl.
    rewrite (tower_heights_insert _ _ _ _ Ht), count_app.
    unfold height, count. simpl. lia.
Qed.

(** Every action, from a state that satisfies the invariant, leads to a
    state that satisfies it and holds as many cards. *)
Lemma step_effect s a ok s' :
  Inv s → step s a = Some (ok, s') → Inv s' ∧ total_cards s' = total_cards s.
Proof.
  intros HI Hstep. destruct ok; [|by apply step_false in Hstep as ->].
  destruct a; simpl in Hstep.
  - by destruct (submit_bid_effect _ _ _ _ _ HI Hstep) as (? & ? & _).
  - by destruct (submit_pass_effect _ _ _ _ HI Hstep) as (? & ? & _).
  - by eapply place_card_effect.
  - by eapply tear_down_tower_effect.
Qed.

Lemma run_effect s acts s' :
  Inv s → run s acts = Some s' → Inv s' ∧ total_cards s' = total_cards s.
Proof.
  revert s. induction acts as [|a acts IH]; intros s HI; simpl.
  - by intros [= <-].
  - destruct (step s a) as [[ok s1]|] eqn:Hstep; simpl; [|done].
    intros Hrun. destruct (step_effect _ _ _ _ HI Hstep) as [HI1 Htot1].
    destruct (IH _ HI1 Hrun) as [HI' Htot']. split; [done | lia].
Qed.

Lemma reset_Inv rng fresh n : 2 ≤ n ≤ 5 → Inv (reset rng fresh n).
Proof.
  intros Hn. unfold reset.
  destruct (deal_display_cards_shape
              (set_players
                 ((λ i, new_player i ("Player" +:+ pretty i)) <$> seqZ 0 n)
                 (set_deck (create_standard_deck rng fresh n) empty_game)) 5)
    as (dk & cs & -> & _).
  split; simpl; try done.
  - rewrite length_fmap, length_seqZ. lia.
  - apply Forall_fmap, Forall_true. intros i b. done.
Qed.

Lemma reachable_Inv s : reachable s → Inv s.
Proof.
  intros (rng & fresh & n & acts & Hn & Hrun).
  by destruct (run_effect _ _ _ (reset_Inv rng fresh n Hn) Hrun).
Qed.

Lemma new_player_cards id nm : player_cards (new_player id nm) = 0.
Proof. vm_compute. reflexivity. Qed.

Lemma reset_total rng fresh n :
  total_cards (reset rng fresh n) = if bool_decide (n >= 4) then 110 else 80.
Proof.
  unfold reset.
  destruct (deal_display_cards_shape
              (set_players
                 ((λ i, new_player i ("Player" +:+ pretty i)) <$> seqZ 0 n)
                 (set_deck (create_standard_deck rng fresh n) empty_game)) 5)
    as (dk & cs & -> & Hlen).
  simpl in Hlen. rewrite create_standard_deck_length in Hlen.
  unfold total_cards. simpl. rewrite <- list_fmap_compose.
  assert (sum_Z ((player_cards ∘ (λ i, new_player i ("Player" +:+ pretty i)))
                   <$> seqZ 0 n) = 0) as ->.
  { induction (seqZ 0 n) as [|i l IH]; [done|].
    rewrite fmap_cons. unfold sum_Z in *. simpl foldr. rewrite IH.
    unfold compose. by rewrite new_player_cards. }
  unfold count. simpl. case_bool_decide; lia.
Qed.

(** The total is the size of the deck the game started with. *)
Lemma reachable_total s : reachable s → total_cards s = 80 ∨ total_cards s = 110.
Proof.
  intros (rng & fresh & n & acts & Hn & Hrun).
  destruct (run_effect _ _ _ (reset_Inv rng fresh n Hn) Hrun) as [_ ->].
  rewrite reset_total. case_bool_decide; auto.
Qed.

Lemma reachable_run s acts s' : reachable s → run s acts = Some s' → reachable s'.
Proof.
  intros (rng & fresh & n & acts0 & Hn & Hrun0) Hrun.
  exists rng, fresh, n, (acts0 ++ acts). split; [done|].
  revert Hrun0. generalize (reset rng fresh n). clear Hn.
  induction acts0 as [|a acts0 IH]; intros s0; simpl.
  - by intros [= ->].
  - destruct (step s0 a) as [[ok s1]|]; simpl; [|done]. apply IH.
Qed.

(** ** The bidding actions leave every player's holdings alone *)

Lemma award_to_winner_holdings s w s' :
  award_to_winner s w = Some s' →
  holdings <$> players s' = holdings <$> players s.
Proof.
  unfold award_to_winner. simpl.
  destruct (py_get (players s) w) as [winner|]; simpl; [|done].
  destruct (decide (bid_or_0 (current_bid winner) = 0)); intros [= <-]; [|done].
  destruct (start_new_round_shape
              (discard_display_cards (set_auction_winner_index (Some w) s)))
    as (ph & rn & dk & cs & -> & _ & _).
  simpl. apply holdings_reset_flags.
Qed.

Lemma advance_bidding_turn_holdings s s' :
  advance_bidding_turn s = Some s' →
  holdings <$> players s' = holdings <$> players s.
Proof. intros H. by apply advance_bidding_loop_shape in H as (x & -> & _). Qed.

Lemma submit_bid_holdings s p amount ok s' :
  submit_bid s p amount = Some (ok, s') →
  holdings <$> players s' = holdings <$> players s.
Proof.
  unfold submit_bid.
  destruct (can_bid s p amount) as [[|]|]; simpl; [|by intros [= <- <-]|done].
  destruct (py_index _ _) as [j|]; simpl; [|done].
  destruct (players s !! j) as [player|] eqn:Hl; simpl; [|done].
  set (player' := set_current_bid (Some amount) player).
  destruct (update_player_same_holdings s j player player' Hl eq_refl) as [Hh _].
  destruct (is_bid_winning_bid _ _).
  - destruct (award_to_winner _ p) as [s4|] eqn:Haward; simpl; [|done].
    intros [= <- <-]. apply award_to_winner_holdings in Haward. by rewrite Haward.
  - destruct (advance_bidding_turn _) as [s4|] eqn:Hadv; simpl; [|done].
    intros [= <- <-]. apply advance_bidding_turn_holdings in Hadv. by rewrite Hadv.
Qed.

Lemma submit_pass_holdings s p ok s' :
  submit_pass s p = Some (ok, s') →
  holdings <$> players s' = holdings <$> players s.
Proof.
  unfold submit_pass.
  destruct (can_pass s p) as [[|]|]; simpl; [|by intros [= <- <-]|done].
  destruct (py_index _ _) as [j|]; simpl; [|done].
  destruct (players s !! j) as [player|] eqn:Hl; simpl; [|done].
  unfold mark_passed. set (player' := set_has_passed true player).
  destruct (update_player_same_holdings s j player player' Hl eq_refl) as [Hh _].
  set (s1 := update_player s j player') in *.
  assert (∀ s2, advance_bidding_turn s1 = Some s2 →
                holdings <$> players s2 = holdings <$> players s) as Hadv.
  { intros s2 Hs2. apply advance_bidding_turn_holdings in Hs2. by rewrite Hs2. }
  destruct (active_bidders s1) as [|winner [|? ?]].
  - destruct (advance_bidding_turn s1) as [s2|] eqn:Hs2; simpl; [|done].
    intros [= <- <-]. by apply Hadv.
  - destruct (get_player_index s1 (player_id winner)) as [w|]; simpl; [|done].
    destruct (award_to_winner s1 w) as [s2|] eqn:Hs2; simpl; [|done].
    intros [= <- <-]. apply award_to_winner_holdings in Hs2. by rewrite Hs2.
  - destruct (advance_bidding_turn s1) as [s2|] eqn:Hs2; simpl; [|done].
    intros [= <- <-]. by apply Hadv.
Qed.

(** ** No action raises in a reachable state *)

Lemma py_get_in_range {A} (l : list A) i :
  0 ≤ i < Z.of_nat (length l) →
  ∃ x, py_index (length l) i = Some (Z.to_nat i) ∧ l !! Z.to_nat i = Some x
       ∧ py_get l i = Some x.
Proof.
  intros Hi.
  destruct (lookup_lt_is_Some_2 l (Z.to_nat i)) as [x Hx]; [lia|].
  assert (py_index (length l) i = Some (Z.to_nat i)) as Hj.
  { unfold py_index. by rewrite bool_decide_eq_true_2. }
  exists x. split; [done|]. split; [done|]. apply py_get_Some. eauto.
Qed.

Lemma award_to_winner_returns s w :
  0 ≤ w < Z.of_nat (length (players s)) → is_Some (award_to_winner s w).
Proof.
  intros Hw. unfold award_to_winner. simpl.
  destruct (py_get_in_range (players s) w Hw) as (x & _ & _ & ->). simpl. eauto.
Qed.

Lemma advance_bidding_loop_returns n original s :
  players s ≠ [] → is_Some (advance_bidding_loop n original s).
Proof.
  revert s. induction n as [|n IH]; intros s Hne; simpl; [eauto|].
  unfold advance_turn. rewrite decide_False by done. simpl.
  set (x := (current_player_index s + 1) `mod` Z.of_nat (length (players s))).
  assert (0 ≤ x < Z.of_nat (length (players s))) as Hx.
  { apply Z.mod_pos_bound. destruct (players s); simpl; [done | lia]. }
  destruct (py_get_in_range (players s) x Hx) as (p & _ & _ & ->). simpl.
  destruct (has_passed p); simpl; [|eauto].
  case_decide; [eauto|]. by apply IH.
Qed.

Lemma get_player_index_from_returns i (l : list PlayerState) p :
  p ∈ l → is_Some (get_player_index_from i l (player_id p)).
Proof.
  intros Hp. revert i. induction Hp as [p l|p q l _ IH]; intros i; simpl.
  - rewrite decide_True by done. eauto.
  - case_decide; [eauto | apply IH].
Qed.

Lemma award_to_winner_winner s w s' :
  award_to_winner s w = Some s' →
  auction_winner_index s' = None ∨ auction_winner_index s' = Some w.
Proof.
  unfold award_to_winner. simpl.
  destruct (py_get (players s) w) as [winner|]; simpl; [|done].
  destruct (decide (bid_or_0 (current_bid winner) = 0)); intros [= <-]; [|by right].
  destruct (start_new_round_shape
              (discard_display_cards (set_auction_winner_index (Some w) s)))
    as (ph & rn & dk & cs & -> & _ & _).
  by left.
Qed.

Lemma end_building_phase_winner rng s :
  auction_winner_index (end_building_phase rng s) = None
  ∨ auction_winner_index (end_building_phase rng s) = auction_winner_index s.
Proof.
  unfold end_building_phase, refill_deck_from_discard.
  case_decide.
  - destruct (discard_pile s) eqn:Hd; [by right|].
    destruct (start_new_round_shape
                (shuffle_deck rng (set_discard_pile [] (set_deck (c :: l) s))))
      as (ph & rn & dk & cs & -> & _ & _).
    by left.
  - destruct (start_new_round_shape s) as (ph & rn & dk & cs & -> & _ & _). by left.
Qed.

Lemma submit_bid_shape s p amount s' :
  submit_bid s p amount = Some (true, s') →
  ∃ j player,
    current_player_index s = p
    ∧ py_index (length (players s)) p = Some j
    ∧ players s !! j = Some player
    ∧ (let s3 := set_high_bidder_index (Some p)
                   (set_current_high_bid amount
                      (update_player s j (set_current_bid (Some amount) player))) in
       award_to_winner s3 p = Some s'
       ∨ (advance_bidding_turn s3 = Some s'
          ∧ auction_winner_index s' = auction_winner_index s)).
Proof.
  unfold submit_bid.
  destruct (can_bid s p amount) as [[|]|] eqn:Hcan; simpl; [|done|done].
  apply can_bid_true in Hcan as (_ & Hcur & _ & j & player & Hj & Hl & _).
  rewrite Hj. simpl. rewrite Hl. simpl. intros Hres.
  exists j, player. split; [done|]. split; [done|]. split; [done|]. cbv zeta.
  destruct (is_bid_winning_bid _ _).
  - destruct (award_to_winner _ p) as [s4|]; simpl in Hres; [|done].
    left. congruence.
  - destruct (advance_bidding_turn _) as [s4|] eqn:Hadv; simpl in Hres; [|done].
    injection Hres as <-. right. split; [done|].
    by apply advance_bidding_loop_shape in Hadv as (x & -> & _).
Qed.

Lemma submit_pass_shape s p s' :
  submit_pass s p = Some (true, s') →
  ∃ j player,
    py_index (length (players s)) p = Some j
    ∧ players s !! j = Some player
    ∧ ((∃ w, 0 ≤ w < Z.of_nat (length (players s))
             ∧ award_to_winner (mark_passed s j player) w = Some s')
       ∨ (advance_bidding_turn (mark_passed s j player) = Some s'
          ∧ auction_winner_index s' = auction_winner_index s)).
Proof.
  unfold submit_pass.
  destruct (can_pass s p) as [[|]|] eqn:Hcan; simpl; [|done|done].
  apply can_pass_true in Hcan as (_ & _ & j & player & Hj & Hl & _).
  rewrite Hj. simpl. rewrite Hl. simpl. intros Hres.
  exists j, player. split; [done|]. split; [done|].
  set (s1 := mark_passed s j player) in *.
  assert (∀ s2, advance_bidding_turn s1 = Some s2 →
                auction_winner_index s2 = auction_winner_index s) as Hadv.
  { intros s2 Hs. by apply advance_bidding_loop_shape in Hs as (x & -> & _). }
  destruct (active_bidders s1) as [|winner [|? ?]].
  - destruct (advance_bidding_turn s1) as [s2|] eqn:Hs; simpl in Hres; [|done].
    injection Hres as <-. right. split; [done | by apply Hadv].
  - destruct (get_player_index s1 (player_id winner)) as [w|] eqn:Hw;
      simpl in Hres; [|done].
    destruct (award_to_winner s1 w) as [s2|] eqn:Hs2; simpl in Hres; [|done].
    left. exists w. split; [|congruence].
    apply get_player_index_range in Hw. simpl in Hw. by rewrite length_insert in Hw.
  - destruct (advance_bidding_turn s1) as [s2|] eqn:Hs; simpl in Hres; [|done].
    injection Hres as <-. right. split; [done | by apply Hadv].
Qed.

Lemma wf_towers_holdings (l l' : list PlayerState) :
  holdings <$> l' = holdings <$> l →
  Forall (λ p, ∀ suit, is_Some (towers p !! suit)) l →
  Forall (λ p, ∀ suit, is_Some (towers p !! suit)) l'.
Proof.
  intros Hh Hl.
  apply (Forall_fmap holdings (λ h, ∀ suit, is_Some (h.1 !! suit))).
  rewrite Hh. by apply Forall_fmap.
Qed.

Lemma step_WellFormed s a ok s' :
  Inv s → WellFormed s → step s a = Some (ok, s') → WellFormed s'.
Proof.
  intros HI [Htw Hwin] Hstep.
  destruct ok; [|by apply step_false in Hstep as ->].
  destruct a as [p amount|p|rng p c su|p su]; simpl in Hstep.
  - pose proof (submit_bid_holdings _ _ _ _ _ Hstep) as Hh.
    pose proof (holdings_length _ _ Hh) as Hlen.
    split; [by eapply wf_towers_holdings|]. rewrite Hlen.
    apply submit_bid_shape in Hstep as (j & player & Hcur & _ & _ & [Haw | [_ Hw]]).
    + apply award_to_winner_winner in Haw as [-> | ->]; [done|].
      intros w [= <-]. subst p. apply HI.
    + by rewrite Hw.
  - pose proof (submit_pass_holdings _ _ _ _ Hstep) as Hh.
    pose proof (holdings_length _ _ Hh) as Hlen.
    split; [by eapply wf_towers_holdings|]. rewrite Hlen.
    apply submit_pass_shape in Hstep as (j & player & _ & _ & [(w & Hw & Haw) | [_ Hw]]).
    + apply award_to_winner_winner in Haw as [-> | ->]; [done|].
      by intros w' [= <-].
    + by rewrite Hw.
  - apply place_card_shape in Hstep
      as (j & player & tower & l & Hj & Hl & Htower & _ & _ & _ & _ & ->).
    cbv zeta.
    set (tower' := mkTower (tower_suit tower) (cards tower ++ [c])).
    set (player' := set_towers (<[su := tower']> (towers player)) player).
    set (s2 := set_cards_to_process l (update_player s j player')).
    assert (WellFormed s2) as [Htw2 Hwin2].
    { split; simpl; [|by rewrite length_insert].
      apply Forall_insert; [done|]. intros suit. simpl.
      destruct (decide (su = suit)) as [->|Hne].
      - rewrite lookup_insert_eq. eauto.
      - rewrite lookup_insert_ne by done.
        by apply (Forall_lookup_1 _ _ _ _ Htw Hl). }
    destruct (decide (length l = 0%nat)); [|by split].
    split.
    + eapply wf_towers_holdings; [apply end_building_phase_holdings | done].
    + rewrite (holdings_length _ _ (end_building_phase_holdings rng s2)).
      destruct (end_building_phase_winner rng s2) as [-> | ->]; done.
  - apply tear_down_tower_shape in Hstep
      as (j & player & tower & Hj & Hl & Htower & _ & _ & _ & ->).
    split; simpl; [|by rewrite length_insert].
    apply Forall_insert; [done|]. intros suit. simpl.
    destruct (decide (su = suit)) as [->|Hne].
    + rewrite lookup_insert_eq. eauto.
    + rewrite lookup_insert_ne by done.
      by apply (Forall_lookup_1 _ _ _ _ Htw Hl).
Qed.

Lemma step_returns s a : Inv s → WellFormed s → is_Some (step s a).
Proof.
  intros [Hturn Hhigh Hbids Hbidding Hbuilding] [Htw Hwin].
  assert (players s ≠ []) as Hne.
  { intros Hnil. rewrite Hnil in Hturn. simpl in Hturn. lia. }
  destruct a as [p amount|p|rng p c su|p su]; simpl.
  - unfold submit_bid, can_bid.
    destruct (decide (phase s ≠ BIDDING)); [simpl; eauto|].
    destruct (decide (current_player_index s ≠ p)) as [|Hcur%dec_stable]; [simpl; eauto|].
    subst p.
    destruct (py_get_in_range (players s) _ Hturn) as (player & Hj & Hl & ->). simpl.
    destruct (has_passed player); [simpl; eauto|].
    case_bool_decide; [simpl; eauto|]. case_bool_decide; [simpl; eauto|]. simpl.
    rewrite Hj. simpl. rewrite Hl. simpl.
    destruct (is_bid_winning_bid _ _).
    + destruct (award_to_winner_returns
                  (set_high_bidder_index (Some (current_player_index s))
                     (set_current_high_bid amount
                        (update_player s (Z.to_nat (current_player_index s))
                           (set_current_bid (Some amount) player))))
                  (current_player_index s)) as [s4 Hs4].
      { simpl. by rewrite length_insert. }
      simpl in Hs4. rewrite Hs4. simpl. eauto.
    + destruct (advance_bidding_loop_returns
                  (length (<[Z.to_nat (current_player_index s) :=
                               set_current_bid (Some amount) player]> (players s)))
                  (current_player_index s)
                  (set_high_bidder_index (Some (current_player_index s))
                     (set_current_high_bid amount
                        (update_player s (Z.to_nat (current_player_index s))
                           (set_current_bid (Some amount) player))))) as [s4 Hs4].
      { simpl. intros Hnil. apply (f_equal length) in Hnil.
        rewrite length_insert in Hnil. by destruct (players s). }
      unfold advance_bidding_turn. simpl. simpl in Hs4. rewrite Hs4. simpl. eauto.
  - unfold submit_pass, can_pass.
    destruct (decide (phase s ≠ BIDDING)); [simpl; eauto|].
    destruct (decide (current_player_index s ≠ p)) as [|Hcur%dec_stable]; [simpl; eauto|].
    subst p.
    destruct (py_get_in_range (players s) _ Hturn) as (player & Hj & Hl & ->). simpl.
    destruct (has_passed player); [simpl; eauto|]. simpl.
    rewrite Hj. simpl. rewrite Hl. simpl.
    set (s1 := mark_passed s (Z.to_nat (current_player_index s)) player).
    assert (players s1 ≠ []) as Hne1.
    { simpl. intros Hnil. apply (f_equal length) in Hnil.
      rewrite length_insert in Hnil. by destruct (players s). }
    assert (is_Some (advance_bidding_turn s1)) as [s2 Hadv]
      by (by apply advance_bidding_loop_returns).
    destruct (active_bidders s1) as [|winner [|? ?]] eqn:Hact.
    + rewrite Hadv. simpl. eauto.
    + assert (winner ∈ players s1) as Hin.
      { assert (winner ∈ active_bidders s1) as Hw by (rewrite Hact; by left).
        unfold active_bidders in Hw. by apply list_elem_of_filter in Hw as [_ ?]. }
      destruct (get_player_index_from_returns 0 _ _ Hin) as [w Hw].
      unfold get_player_index. rewrite Hw. simpl.
      apply get_player_index_from_range in Hw.
      destruct (award_to_winner_returns s1 w) as [s3 ->]; [lia|]. simpl. eauto.
    + rewrite Hadv. simpl. eauto.
  - unfold place_card.
    destruct (can_place_card s p c su) as [[|]|] eqn:Hcan; simpl; [|eauto|].
    + apply can_place_card_true in Hcan
        as (_ & _ & Hc & j & player & tower & Hj & Hl & Htower & Hacc).
      rewrite Hj. simpl. rewrite Hl. simpl. unfold get_tower. rewrite Htower. simpl.
      unfold add_card. rewrite Hacc. simpl.
      apply py_in_true in Hc as Hin. rewrite Hin.
      destruct (py_remove_is_Some _ _ Hc) as [l ->]. simpl. eauto.
    + exfalso. unfold can_place_card in Hcan.
      destruct (decide (phase s ≠ BUILDING)); [done|].
      destruct (decide (auction_winner_index s ≠ Some p)) as [|Hw%dec_stable]; [done|].
      destruct (negb (py_in c (cards_to_process s))); [done|].
      destruct (py_get_in_range (players s) p (Hwin p Hw)) as (player & _ & Hl & Hget).
      rewrite Hget in Hcan. simpl in Hcan. unfold get_tower in Hcan.
      destruct (Forall_lookup_1 _ _ _ _ Htw Hl su) as [tower Htower].
      by rewrite Htower in Hcan.
  - unfold tear_down_tower, can_tear_down.
    destruct (decide (phase s ≠ BUILDING)); [simpl; eauto|].
    destruct (decide (auction_winner_index s ≠ Some p)) as [|Hw%dec_stable]; [simpl; eauto|].
    destruct (py_get_in_range (players s) p (Hwin p Hw)) as (player & Hj & Hl & ->).
    simpl. unfold get_tower.
    destruct (Forall_lookup_1 _ _ _ _ Htw Hl su) as [tower Htower].
    rewrite Htower. simpl.
    case_bool_decide; simpl; [|eauto].
    rewrite Hj. simpl. rewrite Hl. simpl. rewrite Htower. simpl. eauto.
Qed.

Lemma reset_WellFormed rng fresh n : WellFormed (reset rng fresh n).
Proof.
  unfold reset.
  destruct (deal_display_cards_shape
              (set_players
                 ((λ i, new_player i ("Player" +:+ pretty i)) <$> seqZ 0 n)
                 (set_deck (create_standard_deck rng fresh n) empty_game)) 5)
    as (dk & cs & -> & _).
  split; simpl; [|done].
  apply Forall_fmap, Forall_true. intros i suit. simpl.
  by destruct suit; vm_compute; eauto.
Qed.

Lemma run_returns s acts :
  Inv s → WellFormed s →
  ∃ s', run s acts = Some s' ∧ Inv s' ∧ WellFormed s' ∧ total_cards s' = total_cards s.
Proof.
  revert s. induction acts as [|a acts IH]; intros s HI HW; simpl; [eauto|].
  destruct (step_returns s a HI HW) as [[ok s1] Hstep]. rewrite Hstep. simpl.
  destruct (step_effect _ _ _ _ HI Hstep) as [HI1 Htot1].
  destruct (IH s1 HI1 (step_WellFormed _ _ _ _ HI HW Hstep))
    as (s' & -> & HI' & HW' & Htot').
  exists s'. split; [done|]. split; [done|]. split; [done | lia].
Qed.

Lemma reachable_WellFormed s : reachable s → WellFormed s.
Proof.
  intros (rng & fresh & n & acts & Hn & Hrun).
  destruct (run_returns _ acts (reset_Inv rng fresh n Hn) (reset_WellFormed rng fresh n))
    as (s' & Hrun' & _ & HW & _).
  congruence.
Qed.

(** ** Conservation of cards (C4) *)

Lemma discard_display_cards_total s :
  total_cards (discard_display_cards s) = total_cards s.
Proof.
  unfold total_cards. simpl. rewrite count_app. unfold count. simpl. lia.
Qed.

Lemma start_new_round_total s :
  total_cards (start_new_round s) = total_cards s - count (display_cards s).
Proof.
  destruct (start_new_round_shape s) as (ph & rn & dk & cs & -> & _ & Hlen).
  rewrite !total_cards_holdings. simpl. rewrite holdings_reset_flags.
  unfold count. lia.
Qed.

Lemma deal_display_cards_total s n :
  total_cards (deal_display_cards s n).2 = total_cards s - count (display_cards s).
Proof.
  destruct (deal_display_cards_shape s n) as (dk & cs & -> & Hlen).
  unfold total_cards, count. simpl. lia.
Qed.

Lemma refill_deck_from_discard_total rng s :
  total_cards (refill_deck_from_discard rng s).2 = total_cards s
  ∨ total_cards (refill_deck_from_discard rng s).2 = total_cards s - count (deck s).
Proof.
  unfold refill_deck_from_discard. destruct (discard_pile s) as [|c l] eqn:Hd; [by left|].
  right. unfold total_cards. simpl.
  rewrite (count_Permutation _ _ (shuffle_perm rng _)), Hd. unfold count. simpl. lia.
Qed.

Lemma award_to_winner_total s w s' :
  award_to_winner s w = Some s' →
  total_cards s' = total_cards s
  ∨ total_cards s' = total_cards s - count (cards_to_process s).
Proof.
  unfold award_to_winner. simpl.
  destruct (py_get (players s) w) as [winner|]; simpl; [|done].
  destruct (decide (bid_or_0 (current_bid winner) = 0)); intros [= <-].
  - left.
    set (s1 := discard_display_cards (set_auction_winner_index (Some w) s)).
    transitivity (total_cards (start_new_round s1)); [done|].
    rewrite start_new_round_total. unfold s1.
    rewrite discard_display_cards_total. unfold total_cards, count. simpl. lia.
  - right. unfold total_cards. simpl. rewrite count_app.
    pose proof (count_slices (display_cards s) (bid_or_0 (current_bid winner))).
    unfold count in *. simpl. lia.
Qed.

Lemma end_auction_total s w s' :
  cards_to_process s = [] → end_auction s w = Some s' →
  total_cards s' = total_cards s.
Proof.
  intros Hctp.
  assert (∀ x, award_to_winner s x = Some s' → total_cards s' = total_cards s) as Haward.
  { intros x Hx. apply award_to_winner_total in Hx. rewrite Hctp in Hx.
    unfold count in Hx. simpl in Hx. lia. }
  unfold end_auction. destruct w as [w|]; [apply Haward|].
  destruct (high_bidder_index s) as [h|]; [apply Haward|].
  destruct (active_bidders s) as [|only [|? ?]].
  - intros [= <-]. apply discard_display_cards_total.
  - destruct (get_player_index s (player_id only)); simpl; [apply Haward | done].
  - intros [= <-]. apply discard_display_cards_total.
Qed.

(** C4 (as the code has it). From every reachable state each of the four
    actions returns, whether it accepts or rejects, and leaves the total
    number of cards (deck, discard pile, display row, all towers, all
    teardown piles, cards to process) unchanged, and so does every sequence
    of actions. The helpers conserve the total where the engine calls them:
    [end_auction] when no card awaits placement, [start_new_round] and
    [deal_display_cards] when the display row is empty,
    [refill_deck_from_discard] when the deck is empty. *)
Theorem card_conservation :
  (∀ s a,
     reachable s →
     ∃ ok s', step s a = Some (ok, s') ∧ total_cards s' = total_cards s)
  ∧ (∀ s acts,
       reachable s →
       ∃ s', run s acts = Some s' ∧ total_cards s' = total_cards s)
  ∧ (∀ s w s',
       cards_to_process s = [] → end_auction s w = Some s' →
       total_cards s' = total_cards s)
  ∧ (∀ s, display_cards s = [] → total_cards (start_new_round s) = total_cards s)
  ∧ (∀ s n,
       display_cards s = [] → total_cards (deal_display_cards s n).2 = total_cards s)
  ∧ (∀ rng s,
       deck s = [] → total_cards (refill_deck_from_discard rng s).2 = total_cards s).
Proof.
  split; [|split; [|split; [|split; [|split]]]].
  - intros s a Hs.
    pose proof (reachable_Inv _ Hs) as HI.
    destruct (step_returns s a HI (reachable_WellFormed _ Hs)) as [[ok s'] Hstep].
    exists ok, s'. split; [done|]. by destruct (step_effect _ _ _ _ HI Hstep).
  - intros s acts Hs.
    destruct (run_returns s acts (reachable_Inv _ Hs) (reachable_WellFormed _ Hs))
      as (s' & Hrun & _ & _ & Htot).
    by exists s'.
  - apply end_auction_total.
  - intros s Hd. rewrite start_new_round_total, Hd. unfold count. simpl. lia.
  - intros s n Hd. rewrite deal_display_cards_total, Hd. unfold count. simpl. lia.
  - intros rng s Hd. destruct (refill_deck_from_discard_total rng s) as [-> | ->]; [done|].
    rewrite Hd. unfold count. simpl. lia.
Qed.

Lemma two_player_start_reachable : reachable two_player_start.
Proof. exists rng_rev, Z.of_nat, 2, []. split; [lia | reflexivity]. Qed.

Lemma building_state_run : run two_player_start first_auction = Some building_state.
Proof. vm_compute. reflexivity. Qed.

Lemma capped_state_run : run building_state first_placement = Some capped_state.
Proof. vm_compute. reflexivity. Qed.

Lemma torn_down_state_run : run capped_state second_round = Some torn_down_state.
Proof. vm_compute. reflexivity. Qed.

Lemma card_conservation_witness :
  (∃ s', run two_player_start first_auction = Some s'
         ∧ total_cards s' = total_cards two_player_start)
  ∧ total_cards (start_new_round building_state) = total_cards building_state.
Proof.
  split.
  - apply (proj1 (proj2 card_conservation) two_player_start first_auction).
    exists rng_rev, Z.of_nat, 2, []. split; [lia | reflexivity].
  - apply (proj1 (proj2 (proj2 (proj2 card_conservation))) building_state).
    vm_compute. reflexivity.
Defined.

Lemma stray_helper_totals :
  total_cards two_player_start = 80
  ∧ total_cards (deal_display_cards two_player_start 5).2 = 75
  ∧ total_cards (start_new_round two_player_start) = 75
  ∧ total_cards building_state = 80
  ∧ total_cards (refill_deck_from_discard rng_rev building_state).2 = 5
  ∧ total_cards <$> end_auction building_state None = Some 79.
Proof. repeat split; vm_compute; reflexivity. Qed.

Lemma building_state_reachable : reachable building_state.
Proof.
  exact (reachable_run _ _ _ two_player_start_reachable building_state_run).
Qed.

(** The claim C4 as worded fails for the helpers called on reachable states
    that hold cards where they write: dealing or starting a round over the
    display row of the start state drops its five cards (80 to 75);
    refilling the deck from the discard pile while 75 cards are in the deck
    drops them (80 to 5); ending the auction again while a won card awaits
    placement drops that card (80 to 79). *)
Lemma helpers_overwrite_cards :
  ¬ (∀ s n, reachable s → total_cards (deal_display_cards s n).2 = total_cards s)
  ∧ ¬ (∀ s, reachable s → total_cards (start_new_round s) = total_cards s)
  ∧ ¬ (∀ rng s,
         reachable s → total_cards (refill_deck_from_discard rng s).2 = total_cards s)
  ∧ ¬ (∀ s w s',
         reachable s → end_auction s w = Some s' → total_cards s' = total_cards s).
Proof.
  destruct stray_helper_totals as (H80 & Hdeal & Hround & Hb80 & Hrefill & Hend).
  repeat split.
  - intros H. specialize (H two_player_start 5 two_player_start_reachable). lia.
  - intros H. specialize (H two_player_start two_player_start_reachable). lia.
  - intros H. specialize (H rng_rev building_state building_state_reachable). lia.
  - intros H. destruct (end_auction building_state None) as [s'|] eqn:Hs'; [|done].
    specialize (H building_state None s' building_state_reachable Hs').
    injection Hend as Hend. lia.
Qed.

(** ** Capped towers (C9) *)

Lemma capped_rejects (t : Tower) : is_capped t = true → ∀ c, can_place t c = false.
Proof.
  unfold is_capped, can_place. destruct (top_card t) as [top|]; [|done].
  by intros ->.
Qed.

(** An action other than a teardown of that tower leaves a capped tower as
    it is, and every action leaves the number of players as it is. *)
Lemma step_capped_tower s a ok s' i suit t :
  step s a = Some (ok, s') →
  tower_at s i suit = Some t →
  is_capped t = true →
  ¬ tears_down (length (players s)) i suit a →
  tower_at s' i suit = Some t ∧ length (players s') = length (players s).
Proof.
  intros Hstep Ht Hcap Hno.
  destruct ok; [|by apply step_false in Hstep as ->].
  assert (holdings <$> players s' = holdings <$> players s →
          tower_at s' i suit = Some t ∧ length (players s') = length (players s))
    as Hsame.
  { intros Hh. split; [|by apply holdings_length].
    by rewrite tower_at_holdings, Hh, <- tower_at_holdings. }
  destruct a as [p amount|p|rng p c su|p su]; simpl in Hstep.
  - by eapply Hsame, submit_bid_holdings.
  - by eapply Hsame, submit_pass_holdings.
  - apply place_card_shape in Hstep
      as (j & player & tower & l & Hj & Hl & Htw & Hacc & _ & _ & _ & ->).
    set (tower' := mkTower (tower_suit tower) (cards tower ++ [c])).
    set (player' := set_towers (<[su := tower']> (towers player)) player).
    set (s2 := set_cards_to_process l (update_player s j player')).
    assert (tower_at s2 i suit = Some t ∧ length (players s2) = length (players s))
      as [Ht2 Hlen2].
    { split; [|simpl; by rewrite length_insert].
      unfold tower_at in *. simpl.
      destruct (decide (i = j)) as [->|Hij].
      - rewrite list_lookup_insert_eq by (by eapply lookup_lt_Some).
        rewrite Hl in Ht. simpl in *.
        destruct (decide (su = suit)) as [->|Hsu].
        + rewrite Htw in Ht. injection Ht as ->.
          by rewrite (capped_rejects _ Hcap) in Hacc.
        + by rewrite lookup_insert_ne.
      - by rewrite list_lookup_insert_ne. }
    simpl. destruct (decide (length l = 0%nat)); [|done].
    split.
    + by rewrite tower_at_holdings, end_building_phase_holdings, <- tower_at_holdings.
    + rewrite <- Hlen2. apply holdings_length, end_building_phase_holdings.
  - apply tear_down_tower_shape in Hstep
      as (j & player & tower & Hj & Hl & Htw & _ & _ & _ & ->).
    split; [|simpl; by rewrite length_insert].
    unfold tower_at in *. simpl in *.
    destruct (decide (i = j)) as [->|Hij].
    + rewrite list_lookup_insert_eq by (by eapply lookup_lt_Some).
      rewrite Hl in Ht. simpl in *.
      destruct (decide (su = suit)) as [->|Hsu]; [tauto|].
      by rewrite lookup_insert_ne.
    + by rewrite list_lookup_insert_ne.
Qed.

Lemma run_capped_tower s acts s' i suit t :
  tower_at s i suit = Some t →
  is_capped t = true →
  Forall (λ a, ¬ tears_down (length (players s)) i suit a) acts →
  run s acts = Some s' →
  tower_at s' i suit = Some t.
Proof.
  revert s. induction acts as [|a acts IH]; intros s Ht Hcap Hno; simpl.
  - by intros [= <-].
  - destruct (step s a) as [[ok s1]|] eqn:Hstep; simpl; [|done].
    apply Forall_cons in Hno as [Ha Hacts].
    destruct (step_capped_tower _ _ _ _ _ _ _ Hstep Ht Hcap Ha) as [Ht1 Hlen].
    apply IH; [done | done | by rewrite Hlen].
Qed.

(** C9 (as the code has it). A Tower-Top card placed on a tower becomes its
    top card and the tower is capped; a capped tower rejects every card; and
    through any sequence of actions in which that tower is not torn down it
    stays the same tower, capped and rejecting every card. A successful
    [tear_down_tower] on it leaves it empty: no longer capped, accepting
    every card. *)
Theorem capped_tower_stays_capped_until_torn_down :
  (∀ rng s p c suit s',
     is_tower_top c = true →
     place_card rng s p c suit = Some (true, s') →
     ∃ j t', py_index (length (players s)) p = Some j
             ∧ tower_at s' j suit = Some t'
             ∧ top_card t' = Some c ∧ is_capped t' = true)
  ∧ (∀ s i suit t acts s',
       tower_at s i suit = Some t →
       is_capped t = true →
       Forall (λ a, ¬ tears_down (length (players s)) i suit a) acts →
       run s acts = Some s' →
       tower_at s' i suit = Some t ∧ is_capped t = true
       ∧ ∀ c, can_place t c = false)
  ∧ (∀ s p suit s',
       tear_down_tower s p suit = Some (true, s') →
       ∃ j t', py_index (length (players s)) p = Some j
               ∧ tower_at s' j suit = Some t'
               ∧ cards t' = [] ∧ is_capped t' = false
               ∧ ∀ c, can_place t' c = true).
Proof.
  split; [|split].
  - intros rng s p c suit s' Htop Hplace.
    apply place_card_shape in Hplace
      as (j & player & tower & l & Hj & Hl & Htw & Hacc & _ & _ & _ & ->).
    set (tower' := mkTower (tower_suit tower) (cards tower ++ [c])).
    set (s2 := set_cards_to_process l
                 (update_player s j
                    (set_towers (<[suit := tower']> (towers player)) player))).
    exists j, tower'.
    assert (tower_at s2 j suit = Some tower') as Ht2.
    { unfold tower_at. simpl.
      rewrite list_lookup_insert_eq by (by eapply lookup_lt_Some).
      simpl. by rewrite lookup_insert_eq. }
    assert (top_card tower' = Some c) as Htc.
    { unfold top_card, tower'. simpl. apply last_snoc. }
    split; [done|]. split; [|split; [done | unfold is_capped; by rewrite Htc]].
    simpl. destruct (decide (length l = 0%nat)); [|exact Ht2].
    by rewrite tower_at_holdings, end_building_phase_holdings, <- tower_at_holdings.
  - intros s i suit t acts s' Ht Hcap Hno Hrun.
    split; [by eapply run_capped_tower|]. split; [done | by apply capped_rejects].
  - intros s p suit s' Htear.
    apply tear_down_tower_shape in Htear
      as (j & player & tower & Hj & Hl & Htw & _ & _ & _ & ->).
    exists j, (mkTower (tower_suit tower) []).
    split; [done|]. split; [|done].
    unfold tower_at. simpl.
    rewrite list_lookup_insert_eq by (by eapply lookup_lt_Some).
    simpl. by rewrite lookup_insert_eq.
Qed.

Lemma capped_tower_stays_capped_until_torn_down_witness :
  tower_at second_auction_state 0 SAND = Some capped_sand_tower
  ∧ is_capped capped_sand_tower = true
  ∧ ∀ c, can_place capped_sand_tower c = false.
Proof.
  apply (proj1 (proj2 capped_tower_stays_capped_until_torn_down)
           capped_state 0%nat SAND capped_sand_tower first_auction
           second_auction_state).
  - vm_compute. reflexivity.
  - reflexivity.
  - unfold first_auction. repeat constructor; simpl; tauto.
  - vm_compute. reflexivity.
Defined.

Lemma capped_state_reachable : reachable capped_state.
Proof. exact (reachable_run _ _ _ building_state_reachable capped_state_run). Qed.

Lemma torn_down_tower_values :
  tower_at capped_state 0 SAND = Some capped_sand_tower
  ∧ is_capped capped_sand_tower = true
  ∧ tower_at torn_down_state 0 SAND = Some (mkTower SAND [])
  ∧ is_capped (mkTower SAND []) = false
  ∧ can_place (mkTower SAND []) sand_top = true.
Proof. repeat split; vm_compute; reflexivity. Qed.

(** The claim C9 as worded fails in a game of two players: player 0 wins
    the Sand 0 card and caps the Sand tower with it; in the next round
    player 0 wins again and tears that tower down. The tower is then empty,
    not capped, and accepts a card. *)
Lemma torn_down_tower_accepts_again :
  ¬ (∀ s i suit t acts s',
       reachable s →
       tower_at s i suit = Some t →
       is_capped t = true →
       run s acts = Some s' →
       ∃ t', tower_at s' i suit = Some t' ∧ is_capped t' = true
             ∧ ∀ c, can_place t' c = false).
Proof.
  intros H.
  destruct torn_down_tower_values as (Ht & Hcap & Ht' & Hcap' & Hacc).
  destruct (H capped_state 0%nat SAND capped_sand_tower second_round torn_down_state
              capped_state_reachable Ht Hcap torn_down_state_run)
    as (t' & Ht'' & Hcap'' & _).
  rewrite Ht' in Ht''. injection Ht'' as <-. congruence.
Qed.

(** ** A bid of 0 (C10) *)

Lemma can_bid_zero s p : Inv s → can_bid s p 0 = Some false.
Proof.
  intros [Hturn Hhigh _ _ _]. unfold can_bid.
  destruct (decide (phase s ≠ BIDDING)); [done|].
  destruct (decide (current_player_index s ≠ p)) as [|Hcur%dec_stable]; [done|].
  subst p.
  destruct (lookup_lt_is_Some_2 (players s) (Z.to_nat (current_player_index s)))
    as [player Hl]; [lia|].
  assert (py_get (players s) (current_player_index s) = Some player) as ->.
  { apply py_get_Some. exists (Z.to_nat (current_player_index s)).
    split; [|done]. unfold py_index. by rewrite bool_decide_eq_true_2. }
  simpl. destruct (has_passed player); [done|].
  by rewrite bool_decide_eq_true_2.
Qed.

Lemma bid_ok_zero (p : PlayerState) :
  bid_ok p → bid_or_0 (current_bid p) = 0 → current_bid p = None.
Proof.
  unfold bid_ok. destruct (current_bid p) as [b|]; [|done].
  simpl. intros Hb ->. specialize (Hb 0 eq_refl). lia.
Qed.

Lemma py_get_elem_of {A} (l : list A) i x : py_get l i = Some x → x ∈ l.
Proof.
  intros H. apply py_get_Some in H as (j & _ & Hj). by eapply list_elem_of_lookup_2.
Qed.

(** C10. In every state the engine reaches the current high bid is at least
    0, so [is_valid_bid] and [can_bid] are false for a bid of 0 by any player
    and [submit_bid]
    returns failure with the state unchanged; no player's recorded bid is 0,
    so wherever [end_auction] finds a winning bid of 0 (in a reachable state,
    or in the state in which [submit_pass] calls it, just after marking the
    pass) the winner's current bid is unset. *)
Theorem zero_bid_never_legal (s : GameState) :
  reachable s →
  0 ≤ current_high_bid s
  ∧ is_valid_bid s 0 = false
  ∧ (∀ p, can_bid s p 0 = Some false ∧ submit_bid s p 0 = Some (false, s))
  ∧ (∀ w winner,
       py_get (players s) w = Some winner →
       bid_or_0 (current_bid winner) = 0 → current_bid winner = None)
  ∧ (∀ j player w winner,
       players s !! j = Some player →
       py_get (players (mark_passed s j player)) w = Some winner →
       bid_or_0 (current_bid winner) = 0 → current_bid winner = None).
Proof.
  intros Hs. pose proof (reachable_Inv _ Hs) as HI.
  split; [apply HI|]. split; [|split; [|split]].
  - unfold is_valid_bid. rewrite bool_decide_eq_true_2; [done | apply HI].
  - intros p. pose proof (can_bid_zero s p HI) as Hcan.
    split; [done | by apply submit_bid_rejected].
  - intros w winner Hw. apply bid_ok_zero.
    apply py_get_elem_of in Hw.
    by eapply (proj1 (Forall_forall _ _) (inv_bids _ HI)).
  - intros j player w winner Hl Hw. apply bid_ok_zero.
    apply py_get_elem_of in Hw. simpl in Hw.
    assert (Forall bid_ok (<[j := set_has_passed true player]> (players s))) as Hall.
    { apply Forall_insert; [apply HI|].
      intros b Hb. by eapply (Forall_lookup_1 _ _ _ _ (inv_bids _ HI) Hl). }
    by eapply (proj1 (Forall_forall _ _) Hall).
Qed.

Lemma zero_bid_never_legal_witness :
  0 ≤ current_high_bid building_state
  ∧ is_valid_bid building_state 0 = false
  ∧ (∀ p, can_bid building_state p 0 = Some false
          ∧ submit_bid building_state p 0 = Some (false, building_state))
  ∧ (∀ w winner,
       py_get (players building_state) w = Some winner →
       bid_or_0 (current_bid winner) = 0 → current_bid winner = None)
  ∧ (∀ j player w winner,
       players building_state !! j = Some player →
       py_get (players (mark_passed building_state j player)) w = Some winner →
       bid_or_0 (current_bid winner) = 0 → current_bid winner = None).
Proof.
  apply (zero_bid_never_legal building_state).
  exists rng_rev, Z.of_nat, 2, first_auction. split; [lia | vm_compute; reflexivity].
Defined.

(** * Further properties of the engine *)

(** ** Legality queries and validators agree with the rules (rules.py) *)

Lemma can_bid_Some_true_iff s p amount :
  can_bid s p amount = Some true ↔
    phase s = BIDDING ∧ current_player_index s = p
    ∧ current_high_bid s < amount ≤ 5
    ∧ ∃ player, py_get (players s) p = Some player ∧ has_passed player = false.
Proof.
  split.
  - intros H. apply can_bid_true in H as (? & ? & ? & j & player & Hj & Hl & ?).
    repeat split; try done; try lia. exists player. split; [|done].
    apply py_get_Some. eauto.
  - intros (Hph & Hcur & Hamt & player & Hp & Hpass). unfold can_bid.
    rewrite decide_False by (by intros ?).
    rewrite decide_False by (by intros ?).
    rewrite Hp. simpl. rewrite Hpass.
    rewrite !bool_decide_eq_false_2 by lia. done.
Qed.

(** X1. Whenever [get_legal_bids] returns, the amounts it lists are exactly
    those for which [can_bid] holds, in increasing order without
    repetition. *)
Theorem get_legal_bids_sound_complete (s : GameState) (p : Z) (legal : list Z) :
  get_legal_bids s p = Some legal →
  (∀ amount, amount ∈ legal ↔ can_bid s p amount = Some true)
  ∧ StronglySorted Z.lt legal.
Proof.
  unfold get_legal_bids.
  destruct (decide (phase s ≠ BIDDING)) as [Hph|Hph%dec_stable].
  - intros [= <-]. split; [|constructor].
    intros amount. rewrite can_bid_Some_true_iff. split; [by intros ?%elem_of_nil|].
    by intros (? & _).
  - destruct (py_get (players s) p) as [player|] eqn:Hp; simpl; [|done].
    destruct (has_passed player) eqn:Hpass; simpl.
    { intros [= <-]. split; [|constructor].
      intros amount. rewrite can_bid_Some_true_iff.
      split; [by intros ?%elem_of_nil|].
      intros (_ & _ & _ & player' & Hp' & Hpass'). congruence. }
    case_bool_decide as Hcur; simpl.
    { intros [= <-]. split; [|constructor].
      intros amount. rewrite can_bid_Some_true_iff.
      split; [by intros ?%elem_of_nil|]. by intros (_ & ? & _). }
    intros [= <-]. split.
    + intros amount. rewrite elem_of_seqZ, can_bid_Some_true_iff. split.
      * intros Hamt. repeat split; try done; try lia. eauto.
      * intros (_ & _ & Hamt & _). lia.
    + generalize (current_high_bid s + 1) (6 - (current_high_bid s + 1)).
      intros m len. unfold seqZ.
      generalize (Z.to_nat len) 0%nat. clear.
      intros n. induction n as [|n IH]; intros k; simpl; constructor.
      * apply IH.
      * apply Forall_forall. intros x Hx.
        apply list_elem_of_fmap in Hx as (i & -> & Hi).
        apply elem_of_seq in Hi. lia.
Qed.

Lemma get_legal_bids_sound_complete_witness :
  (∀ amount, amount ∈ [1; 2; 3; 4; 5] ↔ can_bid two_player_start 0 amount = Some true)
  ∧ StronglySorted Z.lt [1; 2; 3; 4; 5].
Proof.
  apply (get_legal_bids_sound_complete two_player_start 0 [1; 2; 3; 4; 5]).
  vm_compute. reflexivity.
Defined.

(** X2. [validate_bid] returns the empty message exactly when [can_bid]
    holds, returns a message that is not empty exactly when [can_bid] is
    false, and raises exactly when [can_bid] raises. *)
Theorem validate_bid_agrees_with_can_bid (s : GameState) (p amount : Z) :
  (validate_bid s p amount = Some "" ↔ can_bid s p amount = Some true)
  ∧ ((∃ msg, validate_bid s p amount = Some msg ∧ msg ≠ "")
     ↔ can_bid s p amount = Some false)
  ∧ (validate_bid s p amount = None ↔ can_bid s p amount = None).
Proof.
  unfold validate_bid, can_bid.
  destruct (decide (phase s ≠ BIDDING)); [by split; [|split]; split; try done; eauto; intros (? & [= <-] & ?)|].
  destruct (decide (current_player_index s ≠ p)); [by split; [|split]; split; try done; eauto; intros (? & [= <-] & ?)|].
  destruct (py_get (players s) p) as [player|]; simpl;
    [|by split; [|split]; split; try done; intros (? & ? & ?)].
  destruct (has_passed player); [by split; [|split]; split; try done; eauto; intros (? & [= <-] & ?)|].
  case_bool_decide.
  { split; [|split]; split; try done.
    - intros _. eexists. split; [done|]. done. }
  case_bool_decide; [by split; [|split]; split; try done; eauto; intros (? & [= <-] & ?)|].
  split; [|split]; split; try done. by intros (? & [= <-] & ?).
Qed.

(** X3. [validate_card_placement] returns the empty message exactly when
    [can_place_card] holds and raises exactly when it raises; three of its
    messages (reset on top, wild card, empty tower) are never returned,
    since the tower accepts the card in each of these cases. *)
Theorem validate_card_placement_agrees (s : GameState) (p : Z) (c : Card)
    (suit : TowerSuit) :
  (validate_card_placement s p c suit = Some "" ↔ can_place_card s p c suit = Some true)
  ∧ (validate_card_placement s p c suit = None ↔ can_place_card s p c suit = None)
  ∧ validate_card_placement s p c suit
    ≠ Some "This should not happen - reset accepts anything"
  ∧ validate_card_placement s p c suit ≠ Some "Wild card cannot be placed on Tower Top"
  ∧ validate_card_placement s p c suit ≠ Some "Empty tower should accept any card".
Proof.
  unfold validate_card_placement, can_place_card.
  destruct (decide (phase s ≠ BUILDING)); [by repeat split|].
  destruct (decide (auction_winner_index s ≠ Some p)); [by repeat split|].
  destruct (negb (py_in c (cards_to_process s))); [by repeat split|].
  destruct (py_get (players s) p) as [player|]; simpl; [|by repeat split].
  destruct (get_tower player suit) as [tower|]; simpl; [|by repeat split].
  destruct (can_place tower c) eqn:Hacc; simpl; [by repeat split|].
  unfold can_place in Hacc. unfold is_capped.
  destruct (top_card tower) as [top|]; [|done].
  destruct (is_tower_top top); [by repeat split|].
  destruct (is_reset top); [done|].
  destruct (is_wild c); [done|].
  apply bool_decide_eq_false in Hacc.
  rewrite bool_decide_eq_true_2 by lia.
  by repeat split.
Qed.

Lemma select_suits_spec keep player suits legal :
  select_suits keep player suits = Some legal →
  legal = filter (λ suit, from_option keep false (get_tower player suit) = true) suits
  ∧ ∀ suit, suit ∈ suits → is_Some (get_tower player suit).
Proof.
  revert legal. induction suits as [|suit suits IH]; intros legal; simpl.
  - intros [= <-]. split; [done|]. by intros ? ?%elem_of_nil.
  - destruct (get_tower player suit) as [tower|] eqn:Ht; simpl; [|done].
    destruct (select_suits keep player suits) as [rest|]; simpl; [|done].
    destruct (IH rest eq_refl) as [-> Hall]. intros [= <-]. split.
    + rewrite filter_cons, Ht. simpl. by destruct (keep tower).
    + intros su [-> | Hin]%elem_of_cons; [eauto | by apply Hall].
Qed.

(** X4. Whenever [get_legal_placements] returns, the suits it lists are
    exactly those on which [can_place_card] allows the card, each once and
    in the order of the suits. *)
Theorem get_legal_placements_sound_complete (s : GameState) (p : Z) (c : Card)
    (legal : list TowerSuit) :
  get_legal_placements s p c = Some legal →
  (∀ suit, suit ∈ legal ↔ can_place_card s p c suit = Some true)
  ∧ sublist legal all_suits.
Proof.
  unfold get_legal_placements, can_place_card.
  destruct (decide (phase s ≠ BUILDING));
    [intros [= <-]; split; [by split; [intros ?%elem_of_nil|] | apply sublist_nil_l]|].
  destruct (decide (auction_winner_index s ≠ Some p));
    [intros [= <-]; split; [by split; [intros ?%elem_of_nil|] | apply sublist_nil_l]|].
  destruct (negb (py_in c (cards_to_process s)));
    [intros [= <-]; split; [by split; [intros ?%elem_of_nil|] | apply sublist_nil_l]|].
  destruct (py_get (players s) p) as [player|]; [|done].
  unfold mbind, option_bind.
  intros Hsel. apply select_suits_spec in Hsel as [-> Hall]. split.
  - intros suit. rewrite list_elem_of_filter.
    destruct (Hall suit (all_suits_complete suit)) as [tower Ht]. rewrite Ht. simpl.
    split.
    + by intros [-> _].
    + intros [= Hacc]. split; [done | apply all_suits_complete].
  - apply sublist_filter.
Qed.

(** X5. Whenever [get_legal_tear_downs] returns, the suits it lists are
    exactly those for which [can_tear_down] holds, each once and in the order
    of the suits. *)
Theorem get_legal_tear_downs_sound_complete (s : GameState) (p : Z)
    (legal : list TowerSuit) :
  get_legal_tear_downs s p = Some legal →
  (∀ suit, suit ∈ legal ↔ can_tear_down s p suit = Some true)
  ∧ sublist legal all_suits.
Proof.
  unfold get_legal_tear_downs, can_tear_down.
  destruct (decide (phase s ≠ BUILDING));
    [intros [= <-]; split; [by split; [intros ?%elem_of_nil|] | apply sublist_nil_l]|].
  destruct (decide (auction_winner_index s ≠ Some p));
    [intros [= <-]; split; [by split; [intros ?%elem_of_nil|] | apply sublist_nil_l]|].
  destruct (py_get (players s) p) as [player|]; [|done].
  unfold mbind, option_bind.
  intros Hsel. apply select_suits_spec in Hsel as [-> Hall]. split.
  - intros suit. rewrite list_elem_of_filter.
    destruct (Hall suit (all_suits_complete suit)) as [tower Ht]. rewrite Ht. simpl.
    split.
    + by intros [-> _].
    + intros [= Hh]. split; [done | apply all_suits_complete].
  - apply sublist_filter.
Qed.

(** ** Turn order while bidding (phases/bidding.py) *)

Lemma active_bidders_flags s :
  length (active_bidders s)
  = length (filter (λ b, b = false) (has_passed <$> players s)).
Proof.
  unfold active_bidders. induction (players s) as [|p l IH]; [done|].
  rewrite fmap_cons, !filter_cons.
  destruct (decide (has_passed p = false)) as [Hp|Hp].
  - simpl. by rewrite IH.
  - apply IH.
Qed.

Lemma flags_mark_passed (fl : list bool) j :
  fl !! j = Some false →
  S (length (filter (λ b, b = false) (<[j := true]> fl)))
  = length (filter (λ b, b = false) fl).
Proof.
  revert j. induction fl as [|b fl IH]; intros [|j]; simpl; try done.
  - intros [= ->]. by rewrite !filter_cons.
  - intros Hj. rewrite !filter_cons. destruct (decide (b = false)); simpl.
    + by rewrite (IH _ Hj).
    + by apply IH.
Qed.

Lemma flags_some_active (fl : list bool) :
  (1 ≤ length (filter (λ b, b = false) fl))%nat → ∃ a, fl !! a = Some false.
Proof.
  induction fl as [|b fl IH]; simpl; [lia|].
  rewrite filter_cons. destruct b; simpl.
  - intros H. destruct (IH H) as [a Ha]. by exists (S a).
  - intros _. by exists 0%nat.
Qed.

Lemma flags_none_passed (l : list PlayerState) :
  length (filter (λ b, b = false) (has_passed <$> (reset_auction_flags <$> l)))
  = length l.
Proof.
  induction l as [|p l IH]; [done|].
  rewrite !fmap_cons, filter_cons. simpl. by rewrite IH.
Qed.

(** Where the rotation stops: after [k] steps, at the first player met who
    has not passed or is the player the rotation started from; or, when the
    [n] steps are used up, at a player who has passed like all those met. *)
Lemma advance_bidding_loop_lands n original s s' :
  0 ≤ current_player_index s < Z.of_nat (length (players s)) →
  advance_bidding_loop n original s = Some s' →
  ∃ k : nat,
    (k ≤ n)%nat
    ∧ s' = set_current_player_index
             ((current_player_index s + Z.of_nat k) `mod` Z.of_nat (length (players s))) s
    ∧ (∀ k' : nat, (1 ≤ k' < k)%nat →
         passed_at s ((current_player_index s + Z.of_nat k')
                      `mod` Z.of_nat (length (players s))) = Some true)
    ∧ ((k = n ∧ ∀ k' : nat, (1 ≤ k' ≤ n)%nat →
          passed_at s ((current_player_index s + Z.of_nat k')
                       `mod` Z.of_nat (length (players s))) = Some true)
       ∨ ((1 ≤ k)%nat
          ∧ (passed_at s' (current_player_index s') = Some false
             ∨ current_player_index s' = original))).
Proof.
  revert s. induction n as [|n IH]; intros s Hc; simpl.
  - intros [= <-]. exists 0%nat. split; [done|]. split.
    + rewrite Z.add_0_r, Z.mod_small by done. by destruct s.
    + split; [intros; lia|]. left. split; [done|]. intros; lia.
  - unfold advance_turn. destruct (decide (players s = [])) as [|Hne]; [done|]. simpl.
    set (N := Z.of_nat (length (players s))) in *.
    set (c := current_player_index s) in *.
    assert (0 ≤ (c + 1) `mod` N < N) as Hc1 by (apply Z.mod_pos_bound; lia).
    destruct (py_get_in_range (players s) ((c + 1) `mod` N) Hc1) as (p & _ & Hl & ->).
    simpl. destruct (has_passed p) eqn:Hpass; simpl.
    + case_decide as Horig.
      * intros [= <-]. exists 1%nat. split; [lia|]. split; [done|].
        split; [intros; lia|]. right. split; [done|]. by right.
      * intros Hloop. apply IH in Hloop as (k & Hk & -> & Hbefore & Hend); [|done].
        simpl in *. fold N in Hbefore, Hend |- *.
        assert (∀ i : nat, ((c + 1) `mod` N + Z.of_nat i) `mod` N
                           = (c + Z.of_nat (S i)) `mod` N) as Hshift.
        { intros i. rewrite Zplus_mod_idemp_l. f_equal. lia. }
        assert (∀ k' : nat, (1 ≤ k' < S k)%nat →
                  passed_at s ((c + Z.of_nat k') `mod` N) = Some true) as Hbefore'.
        { intros [|[|k']] Hk'; [lia| |].
          - replace (c + Z.of_nat 1) with (c + 1) by lia.
            unfold passed_at. by rewrite Hl; simpl; rewrite Hpass.
          - rewrite <- Hshift. apply Hbefore. lia. }
        exists (S k). split; [lia|]. split; [by rewrite Hshift|].
        split; [done|].
        destruct Hend as [[-> Hall] | [Hk1 Hstop]].
        -- left. split; [done|]. intros [|[|k']] Hk'; [lia| |].
           ++ replace (c + Z.of_nat 1) with (c + 1) by lia.
              unfold passed_at. by rewrite Hl; simpl; rewrite Hpass.
           ++ rewrite <- Hshift. apply Hall. lia.
        -- right. split; [lia | exact Hstop].
    + intros [= <-]. exists 1%nat. split; [lia|]. split; [done|].
      split; [intros; lia|]. right. split; [done|]. left.
      unfold passed_at. simpl. by rewrite Hl; simpl; rewrite Hpass.
Qed.

Lemma mod_wraps_once c k N :
  0 ≤ c < N → 1 ≤ k ≤ N → (c + k) `mod` N = c → k = N.
Proof.
  intros Hc Hk Hmod. destruct (decide (c + k < N)) as [Hlt|Hge].
  - rewrite Z.mod_small in Hmod by lia. lia.
  - replace (c + k) with ((c + k - N) + 1 * N) in Hmod by lia.
    rewrite Z_mod_plus_full, Z.mod_small in Hmod by lia. lia.
Qed.

Lemma mod_reaches c a N :
  0 ≤ c < N → 0 ≤ a < N →
  ∃ k, 1 ≤ k ≤ N ∧ (c + k) `mod` N = a ∧ (k = N → a = c).
Proof.
  intros Hc Ha. destruct (decide (a = c)) as [->|Hne].
  - exists N. split; [lia|]. split; [|done].
    replace (c + N) with (c + 1 * N) by lia.
    by rewrite Z_mod_plus_full, Z.mod_small.
  - exists ((a - c) `mod` N).
    assert (0 ≤ (a - c) `mod` N < N) as Hr by (apply Z.mod_pos_bound; lia).
    assert ((a - c) `mod` N ≠ 0) as Hnz.
    { intros H0. apply Z.mod_divide in H0 as [q Hq]; [|lia].
      destruct (Z_lt_le_dec q 0); [nia|]. destruct (Z_lt_le_dec 0 q); [nia|].
      assert (q = 0) as -> by lia. lia. }
    split; [lia|]. split; [|lia].
    rewrite Zplus_mod_idemp_r. replace (c + (a - c)) with a by lia.
    by apply Z.mod_small.
Qed.

(** When some player has not passed, the rotation of [advance_bidding_turn]
    started at the player to move ends on a player who has not passed. *)
Lemma advance_bidding_turn_lands_on_active s s' (a : nat) :
  0 ≤ current_player_index s < Z.of_nat (length (players s)) →
  has_passed <$> players s !! a = Some false →
  advance_bidding_turn s = Some s' →
  players s' = players s
  ∧ 0 ≤ current_player_index s' < Z.of_nat (length (players s))
  ∧ passed_at s' (current_player_index s') = Some false
  ∧ ∃ x, s' = set_current_player_index x s.
Proof.
  intros Hc Ha Hadv.
  set (N := Z.of_nat (length (players s))) in *.
  set (c := current_player_index s) in *.
  assert (0 ≤ Z.of_nat a < N) as HaN.
  { destruct (players s !! a) eqn:Hl; [|done]. apply lookup_lt_Some in Hl. lia. }
  assert (passed_at s (Z.of_nat a) = Some false) as Hpa.
  { unfold passed_at. by rewrite Nat2Z.id. }
  apply advance_bidding_loop_lands in Hadv as (k & Hk & -> & Hbefore & Hend); [|done].
  fold N c in Hbefore, Hend |- *. simpl in *.
  assert (0 ≤ (c + Z.of_nat k) `mod` N < N) as Hx by (apply Z.mod_pos_bound; lia).
  split; [done|]. split; [done|]. split; [|eauto].
  destruct (mod_reaches c (Z.of_nat a) N Hc HaN) as (ka & Hka & Hreach & Hfull).
  destruct Hend as [[-> Hall] | [Hk1 [Hstop | Horig]]]; [|done|].
  - specialize (Hall (Z.to_nat ka)). rewrite Z2Nat.id, Hreach in Hall by lia.
    rewrite Hall in Hpa by lia. done.
  - apply mod_wraps_once in Horig as HkN; [|done|lia].
    destruct (decide (ka = N)) as [HkaN|HkaN].
    + rewrite Horig. rewrite (Hfull HkaN) in Hpa. exact Hpa.
    + specialize (Hbefore (Z.to_nat ka)). rewrite Z2Nat.id, Hreach in Hbefore by lia.
      rewrite Hbefore in Hpa by lia. done.
Qed.

(** ** Every reachable state is playable *)

Lemma deal_loop_extends n dk acc dk' cs :
  deal_loop n dk acc = (dk', cs) → ∃ rest, cs = acc ++ rest.
Proof.
  revert dk acc. induction n as [|n IH]; intros dk acc; unfold deal_loop; fold deal_loop.
  - intros [= <- <-]. exists []. by rewrite app_nil_r.
  - destruct (py_pop dk) as [[c dk1]|]; [|intros [= <- <-]; exists []; by rewrite app_nil_r].
    intros Hloop. apply IH in Hloop as [rest ->]. exists (c :: rest).
    by rewrite <- app_assoc.
Qed.

Lemma py_pop_is_Some dk : dk ≠ [] → ∃ c dk', py_pop dk = Some (c, dk').
Proof.
  intros Hne. unfold py_pop. destruct (last dk) as [c|] eqn:Hlast; [eauto|].
  by apply last_None in Hlast.
Qed.

Lemma deal_loop_deals n dk dk' cs :
  dk ≠ [] → deal_loop (S n) dk [] = (dk', cs) → cs ≠ [].
Proof.
  intros Hne. unfold deal_loop; fold deal_loop.
  destruct (py_pop_is_Some dk Hne) as (c & dk1 & ->).
  intros Hloop. apply deal_loop_extends in Hloop as [rest ->]. done.
Qed.

Lemma start_new_round_deals s :
  deck s ≠ [] →
  ∃ rn dk c cs,
    start_new_round s
    = mkGame BIDDING rn dk (c :: cs) (discard_pile s)
        (reset_auction_flags <$> players s) (current_player_index s) 0 None None
        (cards_to_process s).
Proof.
  intros Hne. unfold start_new_round, deal_display_cards. simpl.
  change (Z.to_nat 5) with 5%nat.
  destruct (deal_loop 5 (deck s) []) as [dk cs] eqn:Hloop.
  apply deal_loop_deals in Hloop as Hcs; [|done].
  destruct cs as [|c cs]; [done|]. simpl. eauto 10.
Qed.

Lemma award_to_winner_nonzero s w winner b :
  py_get (players s) w = Some winner →
  current_bid winner = Some b → b ≠ 0 →
  award_to_winner s w
  = Some (mkGame BUILDING (round_number s) (deck s) []
            (discard_pile s ++ py_suffix (display_cards s) b) (players s) w
            (current_high_bid s) (high_bidder_index s) (Some w)
            (py_prefix (display_cards s) b)).
Proof.
  intros Hw Hb Hnz. unfold award_to_winner. simpl. rewrite Hw. simpl.
  rewrite Hb. simpl. by rewrite decide_False.
Qed.

Lemma py_prefix_nonempty (l : list Card) b : l ≠ [] → 1 ≤ b → py_prefix l b ≠ [].
Proof.
  intros Hl Hb. unfold py_prefix, slice_bound.
  rewrite bool_decide_eq_true_2 by lia.
  destruct l as [|c l]; [done|].
  destruct (Z.to_nat b) as [|n] eqn:Hn; [lia|]. done.
Qed.

Lemma submit_bid_result s p amount s' :
  submit_bid s p amount = Some (true, s') →
  ∃ j player,
    phase s = BIDDING ∧ current_player_index s = p
    ∧ current_high_bid s < amount ≤ 5
    ∧ py_index (length (players s)) p = Some j
    ∧ players s !! j = Some player
    ∧ has_passed player = false
    ∧ (let s3 := set_high_bidder_index (Some p)
                   (set_current_high_bid amount
                      (update_player s j (set_current_bid (Some amount) player))) in
       (amount = 5 ∧ award_to_winner s3 p = Some s')
       ∨ (amount ≠ 5 ∧ advance_bidding_turn s3 = Some s')).
Proof.
  unfold submit_bid.
  destruct (can_bid s p amount) as [[|]|] eqn:Hcan; simpl; [|done|done].
  apply can_bid_true in Hcan as (Hph & Hcur & Hamt & j & player & Hj & Hl & Hpass).
  rewrite Hj. simpl. rewrite Hl. simpl. intros Hres.
  exists j, player. repeat (split; [done|]). cbv zeta.
  unfold is_bid_winning_bid in Hres. case_bool_decide as H5.
  - destruct (award_to_winner _ p) as [s4|]; simpl in Hres; [|done].
    left. split; [done | congruence].
  - destruct (advance_bidding_turn _) as [s4|]; simpl in Hres; [|done].
    right. split; [done | congruence].
Qed.

Lemma submit_pass_result s p s' :
  submit_pass s p = Some (true, s') →
  ∃ j player,
    phase s = BIDDING ∧ current_player_index s = p
    ∧ py_index (length (players s)) p = Some j
    ∧ players s !! j = Some player
    ∧ has_passed player = false
    ∧ ((∃ only w, active_bidders (mark_passed s j player) = [only]
                  ∧ get_player_index (mark_passed s j player) (player_id only) = Some w
                  ∧ award_to_winner (mark_passed s j player) w = Some s')
       ∨ (length (active_bidders (mark_passed s j player)) ≠ 1%nat
          ∧ advance_bidding_turn (mark_passed s j player) = Some s')).
Proof.
  unfold submit_pass.
  destruct (can_pass s p) as [[|]|] eqn:Hcan; simpl; [|done|done].
  apply can_pass_true in Hcan as (Hph & Hcur & j & player & Hj & Hl & Hpass).
  rewrite Hj. simpl. rewrite Hl. simpl. intros Hres.
  exists j, player. repeat (split; [done|]).
  set (s1 := mark_passed s j player) in *.
  destruct (active_bidders s1) as [|only [|? ?]].
  - destruct (advance_bidding_turn s1) as [s2|]; simpl in Hres; [|done].
    right. split; [done | congruence].
  - destruct (get_player_index s1 (player_id only)) as [w|] eqn:Hw;
      simpl in Hres; [|done].
    destruct (award_to_winner s1 w) as [s2|] eqn:Hs2; simpl in Hres; [|done].
    left. exists only, w. split; [done|]. split; [done | congruence].
  - destruct (advance_bidding_turn s1) as [s2|]; simpl in Hres; [|done].
    right. split; [done | congruence].
Qed.

Lemma py_index_nat n i j : py_index n i = Some j → 0 ≤ i → j = Z.to_nat i.
Proof.
  unfold py_index. repeat case_bool_decide; intros; simplify_eq; [done | lia].
Qed.

Lemma flags_insert_same (l : list PlayerState) j p p' :
  l !! j = Some p → has_passed p' = has_passed p →
  has_passed <$> <[j := p']> l = has_passed <$> l.
Proof.
  intros Hj Hp. rewrite list_fmap_insert, Hp.
  apply list_insert_id. by rewrite list_lookup_fmap, Hj.
Qed.

Lemma new_round_Playable rn dk c cs ds (pls : list PlayerState) cur ctp :
  (2 ≤ length pls)%nat → 0 ≤ cur < Z.of_nat (length pls) →
  Playable (mkGame BIDDING rn dk (c :: cs) ds (reset_auction_flags <$> pls) cur 0
              None None ctp).
Proof.
  intros Hn Hcur. split; simpl; try done; [by rewrite length_fmap | auto |].
  intros _. split; [done|]. split.
  - rewrite active_bidders_flags. simpl. by rewrite flags_none_passed.
  - unfold passed_at. simpl.
    destruct (lookup_lt_is_Some_2 pls (Z.to_nat cur)) as [p Hp]; [lia|].
    by rewrite list_lookup_fmap, Hp.
Qed.

Lemma end_building_phase_Playable rng s :
  (2 ≤ length (players s))%nat →
  0 ≤ current_player_index s < Z.of_nat (length (players s)) →
  display_cards s = [] → cards_to_process s = [] →
  Playable (end_building_phase rng s).
Proof.
  intros Hn Hcur Hdisp Hctp.
  unfold end_building_phase, refill_deck_from_discard, cards_remaining.
  case_decide as Hdeck.
  - assert (deck s = []) as Hdk by (destruct (deck s); simpl in *; [done | lia]).
    destruct (discard_pile s) as [|c l] eqn:Hd.
    + split; simpl; try done. auto.
    + destruct (start_new_round_deals
                  (shuffle_deck rng (set_discard_pile [] (set_deck (c :: l) s))))
        as (rn & dk & c' & cs & ->).
      * simpl. intros Hnil. pose proof (shuffle_perm rng (c :: l)) as Hperm.
        rewrite Hnil in Hperm. by apply Permutation_nil_l in Hperm.
      * by apply new_round_Playable.
  - destruct (start_new_round_deals s) as (rn & dk & c' & cs & ->).
    + intros Hnil. rewrite Hnil in Hdeck. done.
    + by apply new_round_Playable.
Qed.

Lemma step_Playable s a ok s' :
  Inv s → Playable s → step s a = Some (ok, s') → Playable s'.
Proof.
  intros [Hturn Hhigh Hbids Hbidding Hbuilding] HP Hstep.
  destruct ok; [|by apply step_false in Hstep as ->].
  destruct HP as [Hn Hphase Hbid Hbuild Hover].
  destruct a as [p amount|p|rng p c su|p su]; simpl in Hstep.
  - apply submit_bid_result in Hstep
      as (j & player & Hph & Hcur & Hamt & Hj & Hl & Hpass & Hres).
    destruct (Hbid Hph) as (Hdisp & Hact & _). cbv zeta in Hres.
    destruct Hres as [[-> Haward] | [_ Hadv]].
    + rewrite (award_to_winner_nonzero _ p (set_current_bid (Some 5) player) 5)
        in Haward; [|simpl; by apply py_get_insert|done|done].
      injection Haward as <-.
      split; simpl; [by rewrite length_insert | auto | done | | done].
      intros _ w _. by apply py_prefix_nonempty.
    + eapply (advance_bidding_turn_lands_on_active _ _ j) in Hadv
        as (Hpl & Hcur' & Hpassed & x & Hx); simpl.
      * subst s'. simpl in *. rewrite length_insert in Hcur'.
        split; simpl; [by rewrite length_insert | auto | | by rewrite Hph | by rewrite Hph].
        intros _. split; [done|]. split; [|done].
        rewrite active_bidders_flags. simpl.
        rewrite (flags_insert_same _ _ _ (set_current_bid (Some amount) player)
                   Hl eq_refl).
        by rewrite <- active_bidders_flags.
      * by rewrite length_insert.
      * rewrite list_lookup_insert_eq by (by eapply lookup_lt_Some).
        simpl. by rewrite Hpass.
  - apply submit_pass_result in Hstep
      as (j & player & Hph & Hcur & Hj & Hl & Hpass & Hres).
    destruct (Hbid Hph) as (Hdisp & Hact & _).
    assert (Forall bid_ok (<[j := set_has_passed true player]> (players s))) as Hbids'.
    { apply Forall_insert; [done|].
      intros b Hb. by eapply (Forall_lookup_1 _ _ _ _ Hbids Hl). }
    destruct Hres as [(only & w & _ & Hw & Haward) | [Hne Hadv]].
    + apply get_player_index_range in Hw. simpl in Hw. rewrite length_insert in Hw.
      unfold award_to_winner in Haward. simpl in Haward.
      destruct (py_get _ w) as [winner|] eqn:Hwin; simpl in Haward; [|done].
      apply py_get_elem_of in Hwin as Hin.
      pose proof (proj1 (Forall_forall _ _) Hbids' _ Hin) as Hok.
      destruct (decide (bid_or_0 (current_bid winner) = 0)) as [Hzero|Hnz].
      * destruct (start_new_round_shape
                    (discard_display_cards
                       (set_auction_winner_index (Some w) (mark_passed s j player))))
          as (ph & rn & dk & cs & Hshape & _ & _).
        rewrite Hshape in Haward. simpl in Haward. injection Haward as <-.
        split; simpl;
          [by rewrite length_fmap, length_insert | auto | done | done | done].
      * injection Haward as <-.
        split; simpl; [by rewrite length_insert | auto | done | | done].
        intros _ w' _. apply py_prefix_nonempty; [done|].
        destruct (current_bid winner) as [b|] eqn:Hb; [|done].
        simpl. by apply Hok.
    + assert (has_passed <$> players (mark_passed s j player)
              = <[j := true]> (has_passed <$> players s)) as Hflags.
      { simpl. by rewrite list_fmap_insert. }
      assert (S (length (active_bidders (mark_passed s j player)))
              = length (active_bidders s)) as Hcount.
      { rewrite !active_bidders_flags, Hflags. apply flags_mark_passed.
        by rewrite list_lookup_fmap, Hl; simpl; rewrite Hpass. }
      destruct (flags_some_active (has_passed <$> players (mark_passed s j player)))
        as [a Ha].
      { rewrite <- active_bidders_flags. lia. }
      eapply (advance_bidding_turn_lands_on_active _ _ a) in Hadv
        as (Hpl & Hcur' & Hpassed & x & Hx); simpl.
      * subst s'. simpl in *. rewrite length_insert in Hcur'.
        split; simpl; [by rewrite length_insert | auto | | by rewrite Hph | by rewrite Hph].
        intros _. split; [done|]. split; [|done].
        change (2 ≤ length (active_bidders (mark_passed s j player)))%nat. lia.
      * by rewrite length_insert.
      * by rewrite list_lookup_fmap in Ha.
  - apply place_card_shape in Hstep
      as (j & player & tower & l & Hj & Hl & Htower & _ & Hph & Hw & Hrem & ->).
    cbv zeta.
    assert (display_cards s = []) as Hdisp.
    { destruct (Hbuilding Hph) as [?|Hnone]; [done | congruence]. }
    destruct (decide (length l = 0%nat)) as [Hl0|Hl0].
    + apply end_building_phase_Playable; simpl; try done.
      * by rewrite length_insert.
      * by rewrite length_insert.
      * by destruct l.
    + split; simpl; [by rewrite length_insert | auto | by rewrite Hph | | by rewrite Hph].
      intros _ w _ ->. done.
  - apply tear_down_tower_shape in Hstep
      as (j & player & tower & Hj & Hl & Htower & _ & Hph & Hw & ->).
    split; simpl; [by rewrite length_insert | auto | by rewrite Hph | done | by rewrite Hph].
Qed.

Lemma reset_Playable rng fresh n : 2 ≤ n ≤ 5 → Playable (reset rng fresh n).
Proof.
  intros Hn. unfold reset, deal_display_cards. simpl.
  change (Z.to_nat 5) with 5%nat.
  destruct (deal_loop 5 (create_standard_deck rng fresh n) []) as [dk cs] eqn:Hloop.
  apply deal_loop_deals in Hloop as Hcs.
  2:{ intros Hnil. pose proof (create_standard_deck_length rng fresh n) as Hlen.
      rewrite Hnil in Hlen. simpl in Hlen. by case_bool_decide. }
  assert (length (seqZ 0 n) = Z.to_nat n) as Hseq by (rewrite length_seqZ; lia).
  split; simpl; [rewrite length_fmap; lia | auto | | done | done].
  intros _. split; [done|]. split.
  - rewrite active_bidders_flags. simpl.
    assert (∀ l : list Z,
              length (filter (λ b, b = false)
                        (has_passed <$> ((λ i, new_player i ("Player" +:+ pretty i)) <$> l)))
              = length l) as Hall.
    { induction l as [|i l IH]; [done|]. rewrite !fmap_cons, filter_cons. simpl.
      by rewrite IH. }
    rewrite Hall. lia.
  - unfold passed_at. simpl.
    destruct (seqZ 0 n) as [|i l] eqn:Hs; [simpl in Hseq; lia | done].
Qed.

Lemma run_Playable s acts s' :
  Inv s → Playable s → run s acts = Some s' → Playable s'.
Proof.
  revert s. induction acts as [|a acts IH]; intros s HI HP; simpl.
  - by intros [= <-].
  - destruct (step s a) as [[ok s1]|] eqn:Hstep; simpl; [|done].
    apply IH.
    + by destruct (step_effect _ _ _ _ HI Hstep).
    + by eapply step_Playable.
Qed.

Lemma reachable_Playable s : reachable s → Playable s.
Proof.
  intros (rng & fresh & n & acts & Hn & Hrun).
  exact (run_Playable _ _ _ (reset_Inv rng fresh n Hn) (reset_Playable rng fresh n Hn) Hrun).
Qed.

(** ** Accepted actions, dead ends and the end of the game *)

Lemma step_flag s a ok s' : step s a = Some (ok, s') → precondition s a = Some ok.
Proof.
  destruct a; simpl.
  - unfold submit_bid. destruct (can_bid _ _ _) as [[|]|]; simpl; [|congruence|done].
    destruct (py_index _ _); simpl; [|done]. destruct (players s !! _); simpl; [|done].
    destruct (if is_bid_winning_bid _ _ then _ else _); simpl; [congruence|done].
  - unfold submit_pass. destruct (can_pass _ _) as [[|]|]; simpl; [|congruence|done].
    destruct (py_index _ _); simpl; [|done]. destruct (players s !! _); simpl; [|done].
    destruct (match active_bidders _ with [] => _ | _ => _ end); simpl; [congruence|done].
  - unfold place_card.
    destruct (can_place_card _ _ _ _) as [[|]|]; simpl; [|congruence|done].
    destruct (py_index _ _); simpl; [|done]. destruct (players s !! _); simpl; [|done].
    destruct (get_tower _ _); simpl; [|done]. destruct (add_card _ _); simpl; [|done].
    destruct (if py_in _ _ then _ else _); simpl; [congruence|done].
  - unfold tear_down_tower.
    destruct (can_tear_down _ _ _) as [[|]|]; simpl; [|congruence|done].
    destruct (py_index _ _); simpl; [|done]. destruct (players s !! _); simpl; [|done].
    destruct (get_tower _ _); simpl; [congruence|done].
Qed.

(** X6. In every reachable state each of [submit_bid], [submit_pass],
    [place_card] and [tear_down_tower] returns, whatever its arguments (no
    index, key or value error is raised), and the flag it returns is the
    value of [can_bid], [can_pass], [can_place_card] or [can_tear_down] on
    the state before: an action is accepted exactly when its rules predicate
    holds. *)
Theorem accepted_iff_precondition (s : GameState) (a : Action) :
  reachable s →
  ∃ ok s', step s a = Some (ok, s') ∧ precondition s a = Some ok.
Proof.
  intros Hs.
  destruct (step_returns s a (reachable_Inv _ Hs) (reachable_WellFormed _ Hs))
    as [[ok s'] Hstep].
  exists ok, s'. split; [done|]. by apply step_flag in Hstep.
Qed.

Lemma accepted_iff_precondition_witness :
  ∃ ok s', step two_player_start (Bid 0 3) = Some (ok, s')
           ∧ precondition two_player_start (Bid 0 3) = Some ok.
Proof.
  apply (accepted_iff_precondition two_player_start (Bid 0 3)).
  apply two_player_start_reachable.
Defined.

Lemma precondition_accepted s a :
  reachable s → precondition s a = Some true → ∃ s', step s a = Some (true, s').
Proof.
  intros Hs Hpre.
  destruct (step_returns s a (reachable_Inv _ Hs) (reachable_WellFormed _ Hs))
    as [[ok s'] Hstep].
  apply step_flag in Hstep as Hpre'.
  rewrite Hpre in Hpre'. injection Hpre' as <-. eauto.
Qed.

Lemma can_pass_current s :
  Inv s → Playable s → phase s = BIDDING →
  can_pass s (current_player_index s) = Some true.
Proof.
  intros HI HP Hph. destruct (play_bidding _ HP Hph) as (_ & _ & Hpassed).
  unfold can_pass. rewrite decide_False by (by intros ?).
  rewrite decide_False by (by intros ?).
  destruct (py_get_in_range (players s) _ (inv_turn _ HI)) as (pl & _ & Hl & ->).
  simpl. unfold passed_at in Hpassed. rewrite Hl in Hpassed. simpl in Hpassed.
  by injection Hpassed as ->.
Qed.

(** X7. In every reachable state in the Bidding phase there are cards on
    display, at least two players have not passed, the player to move is one
    of them, and that player's pass is accepted. So [is_bidding_complete]
    and [should_start_new_round] are false there. *)
Theorem bidding_turn_is_playable (s : GameState) :
  reachable s → phase s = BIDDING →
  display_cards s ≠ []
  ∧ (2 ≤ length (active_bidders s))%nat
  ∧ (∃ player, current_player s = Some player ∧ has_passed player = false)
  ∧ (∃ s', submit_pass s (current_player_index s) = Some (true, s'))
  ∧ is_bidding_complete s = false
  ∧ should_start_new_round s = false.
Proof.
  intros Hs Hph.
  pose proof (reachable_Inv _ Hs) as HI. pose proof (reachable_Playable _ Hs) as HP.
  destruct (play_bidding _ HP Hph) as (Hdisp & Hact & Hpassed).
  split; [done|]. split; [done|]. split; [|split; [|split]].
  - destruct (py_get_in_range (players s) _ (inv_turn _ HI)) as (pl & _ & Hl & Hget).
    exists pl. split; [done|]. unfold passed_at in Hpassed.
    rewrite Hl in Hpassed. simpl in Hpassed. by injection Hpassed.
  - apply (precondition_accepted s (Pass (current_player_index s)) Hs).
    by apply can_pass_current.
  - unfold is_bidding_complete. rewrite decide_False by (by intros ?).
    apply bool_decide_eq_false. lia.
  - unfold should_start_new_round. rewrite decide_False by (by intros ?).
    rewrite (bool_decide_eq_false_2 (length (display_cards s) = 0%nat)).
    + apply andb_false_r.
    + by destruct (display_cards s).
Qed.

Lemma bidding_turn_is_playable_witness :
  display_cards two_player_start ≠ []
  ∧ (2 ≤ length (active_bidders two_player_start))%nat
  ∧ (∃ player, current_player two_player_start = Some player
               ∧ has_passed player = false)
  ∧ (∃ s', submit_pass two_player_start (current_player_index two_player_start)
           = Some (true, s'))
  ∧ is_bidding_complete two_player_start = false
  ∧ should_start_new_round two_player_start = false.
Proof.
  apply (bidding_turn_is_playable two_player_start).
  - exists rng_rev, Z.of_nat, 2, []. split; [lia | reflexivity].
  - reflexivity.
Defined.

Lemma empty_tower_accepts (t : Tower) c : can_place t c = false → height t > 0.
Proof.
  unfold can_place, top_card, height.
  destruct (cards t) as [|x l]; simpl; [done | lia].
Qed.

Lemma building_choice s w :
  reachable s → phase s = BUILDING → auction_winner_index s = Some w →
  cards_to_process s ≠ []
  ∧ ∀ c, c ∈ cards_to_process s →
      (∃ suit, can_place_card s w c suit = Some true)
      ∨ (∃ suit, can_tear_down s w suit = Some true).
Proof.
  intros Hs Hph Hw.
  pose proof (reachable_WellFormed _ Hs) as [Htw Hwin].
  pose proof (reachable_Playable _ Hs) as HP.
  split; [by eapply (play_building _ HP)|].
  intros c Hc.
  destruct (py_get_in_range (players s) w (Hwin w Hw)) as (player & _ & Hl & Hget).
  destruct (Forall_lookup_1 _ _ _ _ Htw Hl SAND) as [tower Htower].
  destruct (can_place tower c) eqn:Hacc.
  - left. exists SAND. apply can_place_card_characterised.
    split; [done|]. split; [done|]. split; [done|]. exists player, tower.
    split; [done|]. split; [done|]. by apply can_place_accepts.
  - right. exists SAND. unfold can_tear_down.
    rewrite decide_False by (by intros ?). rewrite decide_False by (by intros ?).
    rewrite Hget. simpl. unfold get_tower. rewrite Htower. simpl.
    by rewrite bool_decide_eq_true_2 by (by eapply empty_tower_accepts).
Qed.

(** X8. In every reachable state in the Building phase that has an auction
    winner, cards await placement ([is_building_complete] is false), and
    for each of them the winner can place it on some tower or can tear some
    tower down: a tower that rejects a card is not empty. *)
Theorem builder_has_a_move (s : GameState) (w : Z) :
  reachable s → phase s = BUILDING → auction_winner_index s = Some w →
  cards_to_process s ≠ []
  ∧ is_building_complete s = false
  ∧ ∀ c, c ∈ cards_to_process s →
      (∃ suit, can_place_card s w c suit = Some true)
      ∨ (∃ suit, can_tear_down s w suit = Some true).
Proof.
  intros Hs Hph Hw. destruct (building_choice s w Hs Hph Hw) as [Hne Hmove].
  split; [done|]. split; [|done].
  unfold is_building_complete. rewrite decide_False by (by intros ?).
  apply bool_decide_eq_false_2. by destruct (cards_to_process s).
Qed.

Lemma builder_has_a_move_witness :
  cards_to_process building_state ≠ []
  ∧ is_building_complete building_state = false
  ∧ ∀ c, c ∈ cards_to_process building_state →
      (∃ suit, can_place_card building_state 0 c suit = Some true)
      ∨ (∃ suit, can_tear_down building_state 0 suit = Some true).
Proof.
  apply (builder_has_a_move building_state 0).
  - exists rng_rev, Z.of_nat, 2, first_auction. split; [lia | vm_compute; reflexivity].
  - reflexivity.
  - reflexivity.
Defined.

Lemma precondition_outside_play s a :
  phase s ≠ BIDDING → phase s ≠ BUILDING → precondition s a = Some false.
Proof.
  intros Hbid Hbuild. destruct a; simpl.
  - unfold can_bid. by rewrite decide_True.
  - unfold can_pass. by rewrite decide_True.
  - unfold can_place_card. by rewrite decide_True.
  - unfold can_tear_down. by rewrite decide_True.
Qed.

Lemma precondition_no_winner s a :
  phase s = BUILDING → auction_winner_index s = None → precondition s a = Some false.
Proof.
  intros Hph Hw. destruct a; simpl.
  - unfold can_bid. rewrite decide_True; [done | by rewrite Hph].
  - unfold can_pass. rewrite decide_True; [done | by rewrite Hph].
  - unfold can_place_card. rewrite decide_False by (by intros ?).
    rewrite decide_True; [done | by rewrite Hw].
  - unfold can_tear_down. rewrite decide_False by (by intros ?).
    rewrite decide_True; [done | by rewrite Hw].
Qed.

Lemma rejected_unchanged s a :
  precondition s a = Some false → step s a = Some (false, s).
Proof.
  destruct a; simpl.
  - apply submit_bid_rejected.
  - apply submit_pass_rejected.
  - apply place_card_rejected.
  - apply tear_down_tower_rejected.
Qed.

(** X9. When a reachable state is in the GameOver phase, the deck, the
    discard pile, the display row and the cards to process are all empty
    ([is_game_complete] and [is_game_over] hold), every card of the game is
    in a tower or a teardown pile, and every action is rejected and leaves
    the state as it is. *)
Theorem game_over_is_final (s : GameState) :
  reachable s → phase s = GAME_OVER →
  is_game_complete s = true ∧ is_game_over s = true
  ∧ discard_pile s = []
  ∧ total_cards s = sum_Z (player_cards <$> players s)
  ∧ ∀ a, step s a = Some (false, s).
Proof.
  intros Hs Hph. pose proof (reachable_Playable _ Hs) as HP.
  destruct (play_over _ HP Hph) as (Hdeck & Hdisc & Hdisp & Hctp).
  split; [|split; [|split; [|split]]].
  - unfold is_game_complete. by rewrite Hdeck, Hdisp, Hctp.
  - unfold is_game_over. by rewrite Hdeck, Hdisp.
  - done.
  - unfold total_cards. rewrite Hdeck, Hdisc, Hdisp, Hctp. unfold count. simpl. lia.
  - intros a. apply rejected_unchanged, precondition_outside_play; by rewrite Hph.
Qed.

Lemma bidding_move s :
  reachable s → phase s = BIDDING →
  ∃ s', step s (Pass (current_player_index s)) = Some (true, s').
Proof.
  intros Hs Hph. apply (precondition_accepted s _ Hs). simpl.
  apply can_pass_current; [by apply reachable_Inv | by apply reachable_Playable | done].
Qed.

Lemma building_move s w :
  reachable s → phase s = BUILDING → auction_winner_index s = Some w →
  (∃ c suit s', step s (Place rng_id w c suit) = Some (true, s'))
  ∨ (∃ suit s', step s (TearDown w suit) = Some (true, s')).
Proof.
  intros Hs Hph Hw. destruct (building_choice s w Hs Hph Hw) as [Hne Hall].
  destruct (cards_to_process s) as [|c l] eqn:Hctp; [done|].
  destruct (Hall c) as [[suit Hplace] | [suit Htear]]; [by left| |].
  - left. exists c, suit. by apply (precondition_accepted s (Place rng_id w c suit) Hs).
  - right. exists suit. by apply (precondition_accepted s (TearDown w suit) Hs).
Qed.

(** X10. A reachable state is a dead end, where every action is rejected,
    exactly when the game is over or the phase is Building with no auction
    winner (the state an auction won with a bid of 0 ends in). *)
Theorem dead_ends (s : GameState) :
  reachable s →
  (∀ a, step s a = Some (false, s))
  ↔ (phase s = GAME_OVER ∨ (phase s = BUILDING ∧ auction_winner_index s = None)).
Proof.
  intros Hs. pose proof (reachable_Playable _ Hs) as HP. split.
  - intros Hdead.
    destruct (play_phase _ HP) as [Hph | [Hph | Hph]]; [| |by left].
    + exfalso. destruct (bidding_move s Hs Hph) as [s' Hpass].
      specialize (Hdead (Pass (current_player_index s))). congruence.
    + right. split; [done|].
      destruct (auction_winner_index s) as [w|] eqn:Hw; [|done]. exfalso.
      destruct (building_move s w Hs Hph Hw)
        as [(c & suit & s' & Hplace) | (suit & s' & Htear)].
      * specialize (Hdead (Place rng_id w c suit)). congruence.
      * specialize (Hdead (TearDown w suit)). congruence.
  - intros [Hph | [Hph Hw]] a; apply rejected_unchanged.
    + apply precondition_outside_play; by rewrite Hph.
    + by apply precondition_no_winner.
Qed.

Lemma final_state_reachable : reachable final_state.
Proof.
  exists rng_rev, Z.of_nat, 2, whole_game. split; [lia | vm_compute; reflexivity].
Qed.

Lemma zero_bid_state_reachable : reachable zero_bid_state.
Proof.
  exists rng_rev, Z.of_nat, 2, [Pass 0]. split; [lia | vm_compute; reflexivity].
Qed.

Lemma game_over_is_final_witness :
  is_game_complete final_state = true ∧ is_game_over final_state = true
  ∧ discard_pile final_state = []
  ∧ total_cards final_state = sum_Z (player_cards <$> players final_state)
  ∧ ∀ a, step final_state a = Some (false, final_state).
Proof.
  apply (game_over_is_final final_state).
  - exists rng_rev, Z.of_nat, 2, whole_game. split; [lia | vm_compute; reflexivity].
  - vm_compute. reflexivity.
Defined.

Lemma dead_ends_witness :
  (∀ a, step zero_bid_state a = Some (false, zero_bid_state))
  ↔ (phase zero_bid_state = GAME_OVER
     ∨ (phase zero_bid_state = BUILDING ∧ auction_winner_index zero_bid_state = None)).
Proof.
  apply (dead_ends zero_bid_state).
  exists rng_rev, Z.of_nat, 2, [Pass 0]. split; [lia | vm_compute; reflexivity].
Defined.

Lemma get_legal_placements_sound_complete_witness :
  (∀ suit, suit ∈ all_suits ↔ can_place_card building_state 0 sand_top suit = Some true)
  ∧ sublist all_suits all_suits.
Proof.
  apply (get_legal_placements_sound_complete building_state 0 sand_top all_suits).
  vm_compute. reflexivity.
Defined.

Lemma get_legal_tear_downs_sound_complete_witness :
  (∀ suit, suit ∈ [SAND] ↔ can_tear_down second_auction_state 0 suit = Some true)
  ∧ sublist [SAND] all_suits.
Proof.
  apply (get_legal_tear_downs_sound_complete second_auction_state 0 [SAND]).
  vm_compute. reflexivity.
Defined.

(** ** The stuck-detection helper (phases/building.py) *)

Lemma penalty_strictly_increasing a b :
  0 ≤ a → a < b → calculate_tear_down_penalty a < calculate_tear_down_penalty b.
Proof.
  intros Ha Hab. unfold calculate_tear_down_penalty.
  pose proof (penalty_exact b ltac:(lia)) as Hb.
  rewrite (bool_decide_eq_false_2 (b ≤ 0)) by lia.
  case_bool_decide.
  - assert (a = 0) as -> by lia. nia.
  - pose proof (penalty_exact a Ha). nia.
Qed.

Lemma best_tear_down_spec player suits best lowest best' lowest' :
  best_tear_down player suits best lowest = Some (best', lowest') →
  ((best = None ∧ lowest = None)
   ∨ ∃ suit tower, best = Some suit ∧ get_tower player suit = Some tower
                   ∧ height tower > 0 ∧ lowest = Some (penalty_after player tower)) →
  ((best' = None ∧ lowest' = None)
   ∨ ∃ suit tower, best' = Some suit ∧ get_tower player suit = Some tower
                   ∧ height tower > 0 ∧ lowest' = Some (penalty_after player tower))
  ∧ (∀ low, lowest = Some low → ∃ low', lowest' = Some low' ∧ low' ≤ low)
  ∧ (∀ suit, suit ∈ suits →
       ∃ tower, get_tower player suit = Some tower
                ∧ (height tower > 0 →
                   ∃ low', lowest' = Some low' ∧ low' ≤ penalty_after player tower)).
Proof.
  revert best lowest. induction suits as [|suit suits IH]; intros best lowest; simpl.
  - intros [= <- <-] Hinv. split; [done|]. split.
    + intros low ->. exists low. split; [done | lia].
    + by intros ? ?%elem_of_nil.
  - destruct (get_tower player suit) as [tower|] eqn:Htower; simpl; [|done].
    case_bool_decide as Hh.
    + destruct (match lowest with
                | Some low => bool_decide (penalty_after player tower < low)
                | None => true
                end) eqn:Hbetter.
      * intros Hrest Hinv.
        apply IH in Hrest as (Hinv' & Hlow & Hall); [|right; eauto 10].
        split; [done|]. split.
        -- intros low ->. apply bool_decide_eq_true in Hbetter.
           destruct (Hlow _ eq_refl) as (low' & -> & Hle). exists low'. split; [done | lia].
        -- intros su [-> | Hin]%elem_of_cons; [|by apply Hall].
           exists tower. split; [done|]. intros _. by apply Hlow.
      * intros Hrest Hinv.
        destruct lowest as [low|]; [|done]. apply bool_decide_eq_false in Hbetter.
        apply IH in Hrest as (Hinv' & Hlow & Hall); [|done].
        split; [done|]. split; [done|].
        intros su [-> | Hin]%elem_of_cons; [|by apply Hall].
        exists tower. split; [done|]. intros _.
        destruct (Hlow _ eq_refl) as (low' & -> & Hle). exists low'. split; [done | lia].
    + intros Hrest Hinv.
      apply IH in Hrest as (Hinv' & Hlow & Hall); [|done].
      split; [done|]. split; [done|].
      intros su [-> | Hin]%elem_of_cons; [|by apply Hall].
      exists tower. split; [done|]. intros ?. lia.
Qed.

Lemma auto_tear_down_shape s p c r s' :
  auto_tear_down_if_stuck s p c = Some (r, s') →
  (r = None ∧ s' = s)
  ∨ ∃ suit player tower ok,
      r = Some suit
      ∧ get_legal_placements s p c = Some []
      ∧ py_get (players s) p = Some player
      ∧ towers player !! suit = Some tower
      ∧ height tower > 0
      ∧ (∀ suit' tower', towers player !! suit' = Some tower' → height tower' > 0 →
           height tower ≤ height tower')
      ∧ tear_down_tower s p suit = Some (ok, s').
Proof.
  unfold auto_tear_down_if_stuck, mbind, option_bind.
  destruct (get_legal_placements s p c) as [[|? ?]|] eqn:Hlegal;
    [|intros [= <- <-]; by left|done].
  destruct (py_get (players s) p) as [player|] eqn:Hp; [|done].
  destruct (best_tear_down player all_suits None None) as [[best lowest]|] eqn:Hbest;
    [|done].
  apply best_tear_down_spec in Hbest as (Hinv & _ & Hall); [|by left].
  destruct Hinv as [[-> ->] | (suit & tower & -> & Htower & Hh & ->)];
    [intros [= <- <-]; by left|].
  destruct (tear_down_tower s p suit) as [[ok s1]|] eqn:Htear; [|done].
  intros [= <- <-]. right. exists suit, player, tower, ok.
  repeat (split; [done|]). split; [|done].
  intros suit' tower' Htower' Hh'.
  destruct (Hall suit' (all_suits_complete suit')) as (t & Ht & Hlow).
  unfold get_tower in Ht. rewrite Htower' in Ht. injection Ht as <-.
  destruct (Hlow Hh') as (low' & [= <-] & Hle).
  destruct (decide (height tower ≤ height tower')) as [|Hgt]; [done|]. exfalso.
  assert (penalty_after player tower' < penalty_after player tower); [|lia].
  unfold penalty_after.
  apply penalty_strictly_increasing; unfold count, height in *; lia.
Qed.

(** X11. When [auto_tear_down_if_stuck] reports a suit, the card had no legal
    placement, the player's tower of that suit is not empty and is a lowest
    one among the player's non-empty towers, which makes the penalty after
    the teardown the least possible, and the state returned is the one
    [tear_down_tower] returns for that suit. When it reports no suit the
    state is unchanged. *)
Theorem auto_tear_down_picks_lowest (s : GameState) (p : Z) (c : Card)
    (r : option TowerSuit) (s' : GameState) :
  auto_tear_down_if_stuck s p c = Some (r, s') →
  match r with
  | None => s' = s
  | Some suit =>
      get_legal_placements s p c = Some []
      ∧ ∃ player tower,
          py_get (players s) p = Some player
          ∧ towers player !! suit = Some tower
          ∧ height tower > 0
          ∧ (∀ suit' tower',
               towers player !! suit' = Some tower' → height tower' > 0 →
               height tower ≤ height tower'
               ∧ calculate_tear_down_penalty
                   (count (tear_down_pile player) + height tower)
                 ≤ calculate_tear_down_penalty
                     (count (tear_down_pile player) + height tower'))
          ∧ ∃ ok, tear_down_tower s p suit = Some (ok, s')
  end.
Proof.
  intros Hauto.
  apply auto_tear_down_shape in Hauto
    as [[-> ->] | (suit & player & tower & ok & -> & Hl & Hp & Ht & Hh & Hmin & Htear)];
    [done|].
  split; [done|]. exists player, tower. repeat (split; [done|]). split; [|eauto].
  intros suit' tower' Ht' Hh'. pose proof (Hmin suit' tower' Ht' Hh') as Hle.
  split; [done|].
  destruct (decide (height tower = height tower')) as [->|Hne]; [done|].
  apply Z.lt_le_incl, penalty_strictly_increasing; unfold count, height in *; lia.
Qed.

Lemma auto_tear_down_picks_lowest_witness :
  get_legal_placements stuck_state 0 sand_top = Some []
  ∧ ∃ player tower,
      py_get (players stuck_state) 0 = Some player
      ∧ towers player !! STONE = Some tower
      ∧ height tower > 0
      ∧ (∀ suit' tower',
           towers player !! suit' = Some tower' → height tower' > 0 →
           height tower ≤ height tower'
           ∧ calculate_tear_down_penalty
               (count (tear_down_pile player) + height tower)
             ≤ calculate_tear_down_penalty
                 (count (tear_down_pile player) + height tower'))
      ∧ ∃ ok, tear_down_tower stuck_state 0 STONE
              = Some (ok, default stuck_state
                            (snd <$> auto_tear_down_if_stuck stuck_state 0 sand_top)).
Proof.
  apply (auto_tear_down_picks_lowest stuck_state 0 sand_top (Some STONE)).
  vm_compute. reflexivity.
Defined.

(** X12. Unless the phase is Building and the player is the auction winner,
    [auto_tear_down_if_stuck] leaves the state as it is, even when it reports
    the suit of a tower: the refusal of [tear_down_tower] is not looked at. *)
Theorem auto_tear_down_outside_turn (s : GameState) (p : Z) (c : Card)
    (r : option TowerSuit) (s' : GameState) :
  phase s ≠ BUILDING ∨ auction_winner_index s ≠ Some p →
  auto_tear_down_if_stuck s p c = Some (r, s') →
  s' = s.
Proof.
  intros Hout Hauto.
  apply auto_tear_down_shape in Hauto
    as [[_ ->] | (suit & player & tower & ok & _ & _ & _ & _ & _ & _ & Htear)];
    [done|].
  assert (can_tear_down s p suit = Some false) as Hcan.
  { unfold can_tear_down. destruct (decide (phase s ≠ BUILDING)); [done|].
    destruct (decide (auction_winner_index s ≠ Some p)); [done|].
    destruct Hout; done. }
  rewrite (tear_down_tower_rejected _ _ _ Hcan) in Htear. congruence.
Qed.

Lemma auto_tear_down_outside_turn_witness :
  auto_tear_down_if_stuck (set_phase BIDDING stuck_state) 0 sand_top
  = Some (Some STONE, set_phase BIDDING stuck_state).
Proof.
  assert (∃ s', auto_tear_down_if_stuck (set_phase BIDDING stuck_state) 0 sand_top
                = Some (Some STONE, s')) as [s' Hs'].
  { eexists. vm_compute. reflexivity. }
  rewrite Hs'. f_equal. f_equal.
  apply (auto_tear_down_outside_turn (set_phase BIDDING stuck_state) 0 sand_top
           (Some STONE) s'); [by left | exact Hs'].
Defined.

(** ** The winner and the rankings (scoring.py, state.py) *)

(** [max] with a key returns the first element whose key is largest. *)
Lemma py_max_from_spec {A} (key : A → Z) (best : A) (l : list A) :
  ∃ i : nat,
    (best :: l) !! i = Some (py_max_from key best l)
    ∧ (∀ j x, (best :: l) !! j = Some x → key x ≤ key (py_max_from key best l))
    ∧ (∀ j x, (j < i)%nat → (best :: l) !! j = Some x →
         key x < key (py_max_from key best l)).
Proof.
  revert best. induction l as [|x l IH]; intros best; simpl.
  - exists 0%nat. split; [done|]. split.
    + intros [|j] y; simpl; [intros [= ->]; lia | done].
    + intros j y Hj. lia.
  - case_bool_decide as Hgt.
    + destruct (IH x) as (i & Hi & Hmax & Hfirst).
      pose proof (Hmax 0%nat x eq_refl) as Hx.
      exists (S i). split; [done|]. split.
      * intros [|j] y; simpl; [intros [= ->]; lia | apply Hmax].
      * intros [|j] y Hj; simpl; [intros [= ->]; lia|].
        apply Hfirst. lia.
    + destruct (IH best) as (i & Hi & Hmax & Hfirst).
      pose proof (Hmax 0%nat best eq_refl) as Hb.
      destruct i as [|i].
      * exists 0%nat. split; [done|]. split.
        -- intros [|[|j]] y; simpl; [intros [= ->]; lia | intros [= ->]; lia |].
           apply (Hmax (S j)).
        -- intros j y Hj. lia.
      * pose proof (Hfirst 0%nat best ltac:(lia) eq_refl) as Hlt.
        exists (S (S i)). split; [done|]. split.
        -- intros [|[|j]] y; simpl; [intros [= ->]; lia | intros [= ->]; lia |].
           apply (Hmax (S j)).
        -- intros [|[|j]] y Hj; simpl; [intros [= ->]; lia | intros [= ->]; lia |].
           apply (Hfirst (S j)). lia.
Qed.

Lemma calculate_all_scores_lookup s i :
  calculate_all_scores s !! i
  = (λ player, (Z.of_nat i, calculate_player_score player)) <$> players s !! i.
Proof. unfold calculate_all_scores. apply list_lookup_imap. Qed.

Lemma get_winner_spec s w :
  get_winner s = Some w →
  ∃ (i : nat) player,
    w = Z.of_nat i ∧ players s !! i = Some player
    ∧ (∀ j pl, players s !! j = Some pl →
         calculate_player_score pl ≤ calculate_player_score player)
    ∧ (∀ j pl, (j < i)%nat → players s !! j = Some pl →
         calculate_player_score pl < calculate_player_score player).
Proof.
  unfold get_winner. destruct (players s) as [|p0 l] eqn:Hpl; [done|].
  destruct (calculate_all_scores s) as [|x scores] eqn:Hsc.
  { apply (f_equal length) in Hsc. unfold calculate_all_scores in Hsc.
    rewrite length_imap, Hpl in Hsc. done. }
  simpl. intros [= <-].
  destruct (py_max_from_spec snd x scores) as (i & Hi & Hmax & Hfirst).
  rewrite <- Hsc in Hi, Hmax, Hfirst. rewrite <- Hpl.
  rewrite calculate_all_scores_lookup in Hi.
  destruct (players s !! i) as [player|] eqn:Hp; [|done].
  simpl in Hi. injection Hi as Hi.
  rewrite <- Hi in Hmax, Hfirst. simpl in Hmax, Hfirst.
  exists i, player. rewrite <- Hi. simpl. split; [done|]. split; [done|]. split.
  - intros j pl Hj.
    apply (Hmax j (Z.of_nat j, calculate_player_score pl)).
    by rewrite calculate_all_scores_lookup, Hj.
  - intros j pl Hlt Hj.
    apply (Hfirst j (Z.of_nat j, calculate_player_score pl) Hlt).
    by rewrite calculate_all_scores_lookup, Hj.
Qed.

Lemma get_winner_None s : get_winner s = None ↔ players s = [].
Proof.
  unfold get_winner. destruct (players s) as [|p0 l] eqn:Hpl; [done|].
  destruct (calculate_all_scores s) as [|x scores] eqn:Hsc; [|done].
  apply (f_equal length) in Hsc. unfold calculate_all_scores in Hsc.
  rewrite length_imap, Hpl in Hsc. done.
Qed.

(** X13. [get_winner] returns nothing exactly when there is no player;
    otherwise it returns the index of a player whose score no other player
    exceeds, and the first such index: every player before has a strictly
    lower score. *)
Theorem get_winner_first_highest (s : GameState) :
  (get_winner s = None ↔ players s = [])
  ∧ ∀ w, get_winner s = Some w →
      ∃ (i : nat) player,
        w = Z.of_nat i ∧ players s !! i = Some player
        ∧ (∀ j pl, players s !! j = Some pl →
             calculate_player_score pl ≤ calculate_player_score player)
        ∧ (∀ j pl, (j < i)%nat → players s !! j = Some pl →
             calculate_player_score pl < calculate_player_score player).
Proof.
  split; [apply get_winner_None | apply get_winner_spec].
Qed.

Lemma get_winner_first_highest_witness :
  ∃ (i : nat) player,
    1 = Z.of_nat i ∧ players final_state !! i = Some player
    ∧ (∀ j pl, players final_state !! j = Some pl →
         calculate_player_score pl ≤ calculate_player_score player)
    ∧ (∀ j pl, (j < i)%nat → players final_state !! j = Some pl →
         calculate_player_score pl < calculate_player_score player).
Proof.
  apply (proj2 (get_winner_first_highest final_state) 1).
  vm_compute. reflexivity.
Defined.

Lemma total_score_agrees (p : PlayerState) : total_score p = calculate_player_score p.
Proof.
  unfold total_score, calculate_player_score.
  rewrite tower_bonus_is_max_height.
  assert (0 ≤ max_default0 (height <$> tower_values p)) as Hge.
  { apply max_default0_nonneg, Forall_fmap, Forall_true. intros t. unfold height. simpl. lia. }
  rewrite (list_fmap_ext tower_calculate_score
             (λ t, calculate_tower_score (cards t)) (tower_values p))
    by (intros ? t _; apply tower_score_agree).
  assert (calculate_penalty p
          = calculate_tear_down_penalty (Z.of_nat (length (tear_down_pile p)))) as ->.
  { unfold calculate_penalty, calculate_tear_down_penalty.
    case_bool_decide as H0; [|done].
    assert (Z.of_nat (length (tear_down_pile p)) = 0) as -> by lia. done. }
  case_bool_decide; lia.
Qed.

(** X14. Once the game is over, the [winner] property of the game state
    (by [total_score]) is the player at the index [get_winner] returns (by
    [calculate_player_score]); before that it is [None]. *)
Theorem winner_is_get_winner (s : GameState) :
  winner s
  = if decide (phase s ≠ GAME_OVER) then None
    else w ← get_winner s; py_get (players s) w.
Proof.
  unfold winner. case_decide; [done|].
  destruct (get_winner s) as [w|] eqn:Hw; simpl.
  - apply get_winner_spec in Hw as (i & player & -> & Hp & Hmax & Hfirst).
    destruct (players s) as [|p0 l] eqn:Hpl; [done|]. simpl.
    destruct (py_max_from_spec total_score p0 l) as (i' & Hi' & Hmax' & Hfirst').
    set (r := py_max_from total_score p0 l) in *.
    assert (i' = i) as ->.
    { destruct (Nat.lt_trichotomy i' i) as [Hlt | [Heq | Hlt]]; [|done|].
      - pose proof (Hfirst i' r Hlt Hi'). pose proof (Hmax' i player Hp).
        rewrite !total_score_agrees in *. lia.
      - pose proof (Hfirst' i player Hlt Hp). pose proof (Hmax i' r Hi').
        rewrite !total_score_agrees in *. lia. }
    rewrite Hp in Hi'. injection Hi' as <-.
    symmetry. apply py_get_Some. exists i. split; [|done].
    unfold py_index. rewrite bool_decide_eq_true_2; [by rewrite Nat2Z.id|].
    apply lookup_lt_Some in Hp. lia.
  - apply get_winner_None in Hw. by rewrite Hw.
Qed.

Lemma insert_desc_Permutation {A} (key : A → Z) x (l : list A) :
  insert_desc key x l ≡ₚ x :: l.
Proof.
  induction l as [|y l IH]; simpl; [done|].
  case_bool_decide; [done|]. rewrite IH. apply Permutation_swap.
Qed.

Lemma insert_desc_sorted {A} (key : A → Z) x (l : list A) :
  StronglySorted (λ a b, key b ≤ key a) l →
  StronglySorted (λ a b, key b ≤ key a) (insert_desc key x l).
Proof.
  induction 1 as [|y l Hl IH Hy]; simpl; [by repeat constructor|].
  case_bool_decide as Hxy.
  - constructor; [by constructor|].
    constructor; [lia|]. eapply Forall_impl; [exact Hy|]. simpl. intros; lia.
  - constructor; [done|].
    rewrite (insert_desc_Permutation key x l). constructor; [lia | done].
Qed.

Lemma py_max_from_cons {A} (key : A → Z) x y (l : list A) :
  py_max_from key x (y :: l)
  = if bool_decide (key x >= key (py_max_from key y l)) then x
    else py_max_from key y l.
Proof.
  revert x y. induction l as [|z l IH]; intros x y.
  - simpl. repeat case_bool_decide; try done; lia.
  - change (py_max_from key x (y :: z :: l))
      with (py_max_from key (if bool_decide (key y > key x) then y else x) (z :: l)).
    rewrite (IH _ z), (IH y z).
    repeat case_bool_decide; try done; lia.
Qed.

Lemma sorted_desc_head {A} (key : A → Z) x (l : list A) :
  head (sorted_desc key (x :: l)) = Some (py_max_from key x l).
Proof.
  revert x. induction l as [|y l IH]; intros x; [done|].
  rewrite py_max_from_cons.
  change (sorted_desc key (x :: y :: l))
    with (insert_desc key x (sorted_desc key (y :: l))).
  specialize (IH y). destruct (sorted_desc key (y :: l)) as [|m rest]; [done|].
  simpl in IH. injection IH as ->. simpl. by case_bool_decide.
Qed.

(** X15. [get_score_rankings] lists every player's (index, score) pair once,
    in descending order of score, and its first entry is the player
    [get_winner] returns. *)
Theorem score_rankings_sorted (s : GameState) :
  get_score_rankings s ≡ₚ calculate_all_scores s
  ∧ StronglySorted (λ a b, b.2 ≤ a.2) (get_score_rankings s)
  ∧ fst <$> head (get_score_rankings s) = get_winner s.
Proof.
  unfold get_score_rankings. split; [|split].
  - induction (calculate_all_scores s) as [|x l IH]; [done|].
    simpl. by rewrite insert_desc_Permutation, IH.
  - induction (calculate_all_scores s) as [|x l IH]; [constructor|].
    simpl. by apply insert_desc_sorted.
  - unfold get_winner. destruct (players s) as [|p0 l] eqn:Hpl.
    + unfold calculate_all_scores. by rewrite Hpl.
    + destruct (calculate_all_scores s) as [|x scores]; [done|].
      by rewrite sorted_desc_head.
Qed.

(** ** Drawing and returning cards (deck.py) *)

Lemma py_pop_snoc (l : list Card) c : py_pop (l ++ [c]) = Some (c, l).
Proof.
  unfold py_pop. rewrite last_snoc, length_app. simpl.
  replace (length l + 1 - 1)%nat with (length l) by lia.
  by rewrite take_app_length.
Qed.

Lemma list_snoc_or_nil {A} (l : list A) : l = [] ∨ ∃ l' x, l = l' ++ [x].
Proof.
  induction l as [|x l _] using rev_ind; [by left | right; eauto].
Qed.

(** The loop of [deal_display_cards] and [draw_cards] takes the cards from
    the end of the deck, last card first. *)
Lemma deal_loop_spec n dk acc :
  deal_loop n dk acc
  = (take (length dk - n) dk, acc ++ reverse (drop (length dk - n) dk)).
Proof.
  revert dk acc. induction n as [|n IH]; intros dk acc; unfold deal_loop; fold deal_loop.
  - rewrite Nat.sub_0_r, take_ge, drop_ge by lia. by rewrite app_nil_r.
  - destruct (list_snoc_or_nil dk) as [-> | (dk' & c & ->)].
    + simpl. by rewrite app_nil_r.
    + rewrite py_pop_snoc, IH, length_app. simpl.
      replace (length dk' + 1 - S n)%nat with (length dk' - n)%nat by lia.
      assert (length dk' - n ≤ length dk')%nat as Hle by lia.
      rewrite take_app_le, drop_app_le by done.
      rewrite reverse_app. simpl. by rewrite <- app_assoc.
Qed.

(** X16. [draw_cards] and [deal_display_cards] take the last [n] cards of the
    deck (all of it when it is shorter, none when [n] is not positive), the
    last card first, and leave the cards before them as the deck; dealing
    also makes the taken cards the display row. *)
Theorem draw_cards_takes_the_end (s : GameState) (n : Z) :
  let keep := (length (deck s) - Z.to_nat n)%nat in
  draw_cards s n
  = (reverse (drop keep (deck s)), set_deck (take keep (deck s)) s)
  ∧ deal_display_cards s n
    = (reverse (drop keep (deck s)),
       set_display_cards (reverse (drop keep (deck s)))
         (set_deck (take keep (deck s)) s))
  ∧ length (draw_cards s n).1 = Nat.min (Z.to_nat n) (length (deck s)).
Proof.
  intros keep. unfold draw_cards, deal_display_cards.
  rewrite deal_loop_spec. fold keep. simpl. split; [done|]. split; [done|].
  rewrite length_reverse, length_drop. unfold keep. lia.
Qed.

Lemma return_cards_foldl (dk cs : list Card) :
  foldl (λ dk card, card :: dk) dk cs = reverse cs ++ dk.
Proof.
  revert dk. induction cs as [|c cs IH]; intros dk; simpl; [done|].
  rewrite IH, reverse_cons. by rewrite <- app_assoc.
Qed.

(** X17. Drawing [n] cards and returning them with [return_cards_to_deck]
    moves the drawn end of the deck, in its order, to the front: the deck is
    rotated, no card is lost. *)
Theorem draw_then_return_rotates (s : GameState) (n : Z) :
  let keep := (length (deck s) - Z.to_nat n)%nat in
  deck (return_cards_to_deck (draw_cards s n).2 (draw_cards s n).1)
  = drop keep (deck s) ++ take keep (deck s)
  ∧ deck (return_cards_to_deck (draw_cards s n).2 (draw_cards s n).1) ≡ₚ deck s.
Proof.
  intros keep. unfold draw_cards. rewrite deal_loop_spec. fold keep. simpl.
  rewrite return_cards_foldl, reverse_involutive. split; [done|].
  rewrite Permutation_app_comm. by rewrite take_drop.
Qed.

(** ** The turn pointer (state.py) *)

Lemma advance_turns_spec n s :
  players s ≠ [] →
  0 ≤ current_player_index s < Z.of_nat (length (players s)) →
  advance_turns n s
  = Some (set_current_player_index
            ((current_player_index s + Z.of_nat n) `mod` Z.of_nat (length (players s))) s).
Proof.
  intros Hne. revert s Hne. induction n as [|n IH]; intros s Hne Hc; simpl.
  - rewrite Z.add_0_r, Z.mod_small by done. by destruct s.
  - unfold advance_turn. rewrite decide_False by done. simpl.
    rewrite IH; simpl; [|done|apply Z.mod_pos_bound; lia].
    f_equal. unfold set_current_player_index. simpl. f_equal.
    rewrite Zplus_mod_idemp_l. f_equal. lia.
Qed.

(** X18. When the turn pointer indexes a player, [advance_turn] keeps it in
    range, and as many calls as there are players bring it back to where it
    was, the state being the same again. With no player [advance_turn] and
    [set_current_player] raise; otherwise [set_current_player] puts any
    integer in range. *)
Theorem advance_turn_cycles (s : GameState) :
  (players s = [] →
   advance_turn s = None ∧ ∀ i, set_current_player s i = None)
  ∧ (players s ≠ [] →
     (∀ i, ∃ s', set_current_player s i = Some s'
                 ∧ 0 ≤ current_player_index s' < Z.of_nat (length (players s)))
     ∧ (0 ≤ current_player_index s < Z.of_nat (length (players s)) →
        (∃ s', advance_turn s = Some s'
               ∧ 0 ≤ current_player_index s' < Z.of_nat (length (players s)))
        ∧ advance_turns (length (players s)) s = Some s)).
Proof.
  split.
  - intros Hnil. unfold advance_turn, set_current_player.
    rewrite decide_True by done. split; [done|]. intros i. by rewrite decide_True.
  - intros Hne.
    assert (0 < Z.of_nat (length (players s))) as HN.
    { destruct (players s); simpl; [done | lia]. }
    split.
    + intros i. unfold set_current_player. rewrite decide_False by done.
      eexists. split; [done|]. simpl. apply Z.mod_pos_bound. lia.
    + intros Hc. split.
      * unfold advance_turn. rewrite decide_False by done.
        eexists. split; [done|]. simpl. apply Z.mod_pos_bound. lia.
      * rewrite advance_turns_spec by done.
        replace (current_player_index s + Z.of_nat (length (players s)))
          with (current_player_index s + 1 * Z.of_nat (length (players s))) by lia.
        rewrite Z_mod_plus_full, Z.mod_small by done. by destruct s.
Qed.

Lemma advance_turn_cycles_witness :
  advance_turns (length (players two_player_start)) two_player_start
  = Some two_player_start.
Proof.
  refine (proj2 (proj2 (proj2 (advance_turn_cycles two_player_start) _) _)).
  - vm_compute. discriminate.
  - vm_compute. split; [discriminate | reflexivity].
Defined.

(** ** Towers (state.py) *)

(** X19. Taking the top card off a tower on which a card has just been
    placed gives that card back and restores the player as it was;
    [remove_top_card] on an empty tower returns no card and changes
    nothing, and both raise on a suit the player has no tower for. *)
Theorem remove_top_card_undoes_add_card (p : PlayerState) (suit : TowerSuit) :
  (towers p !! suit = None → remove_top_card p suit = None)
  ∧ (∀ tower, towers p !! suit = Some tower → cards tower = [] →
       remove_top_card p suit = Some (None, p))
  ∧ (∀ tower tower' c,
       towers p !! suit = Some tower → add_card tower c = Some tower' →
       remove_top_card (set_towers (<[suit := tower']> (towers p)) p) suit
       = Some (Some c, p)).
Proof.
  unfold remove_top_card, get_tower. split; [|split].
  - by intros ->.
  - intros tower -> Hnil. simpl. by rewrite Hnil.
  - intros tower tower' c Htower Hadd. unfold add_card in Hadd.
    destruct (can_place tower c); [|done]. injection Hadd as <-.
    simpl. rewrite lookup_insert_eq. simpl. rewrite py_pop_snoc.
    rewrite insert_insert_eq. f_equal. f_equal.
    destruct p as [id nm tw hd pile bid passed]. unfold set_towers. simpl in *.
    f_equal. destruct tower as [tsuit cs]. simpl. by apply insert_id.
Qed.

Lemma remove_top_card_undoes_add_card_witness :
  remove_top_card
    (set_towers (<[SAND := capped_sand_tower]> (towers (new_player 0 "Player0")))
       (new_player 0 "Player0")) SAND
  = Some (Some sand_top, new_player 0 "Player0").
Proof.
  apply (proj2 (proj2 (remove_top_card_undoes_add_card (new_player 0 "Player0") SAND))
           (mkTower SAND []) capped_sand_tower sand_top).
  - vm_compute. reflexivity.
  - vm_compute. reflexivity.
Defined.

(** ** Completing the building phase (phases/building.py) *)

Lemma filter_all {A} (P : A → Prop) `{∀ x, Decision (P x)} (l : list A) :
  (∀ x, x ∈ l → P x) → filter P l = l.
Proof.
  induction l as [|x l IH]; intros Hall; [done|].
  rewrite filter_cons_True by (apply Hall; left).
  f_equal. apply IH. intros y Hy. apply Hall. by right.
Qed.

Lemma can_place_false_height tower card : can_place tower card = false → height tower > 0.
Proof.
  unfold can_place, top_card, height.
  destruct (cards tower) as [|c cs] eqn:Hc; [done|]. simpl. lia.
Qed.

(** When a card of the winner's hand has no legal placement, every tower of
    the winner is non-empty. *)
Lemma no_placement_all_towers s p card player :
  phase s = BUILDING → auction_winner_index s = Some p →
  card ∈ cards_to_process s →
  get_legal_placements s p card = Some [] →
  py_get (players s) p = Some player →
  non_empty_towers player = Some all_suits.
Proof.
  intros Hph Hw Hin Hlegal Hp. unfold get_legal_placements in Hlegal.
  rewrite decide_False in Hlegal by (by intros ?).
  rewrite decide_False in Hlegal by (by intros ?).
  unfold py_in in Hlegal. rewrite bool_decide_eq_true_2 in Hlegal by done.
  cbn [negb] in Hlegal. rewrite Hp in Hlegal. unfold mbind, option_bind in Hlegal.
  apply select_suits_spec in Hlegal as [Hnone Hall].
  unfold non_empty_towers.
  destruct (select_suits (λ tower, bool_decide (height tower > 0)) player all_suits)
    as [l|] eqn:Hsel.
  - apply select_suits_spec in Hsel as [-> _]. f_equal. apply filter_all.
    intros suit Hsuit. destruct (Hall suit Hsuit) as [tower Ht]. rewrite Ht. simpl.
    apply bool_decide_eq_true_2, (can_place_false_height tower card).
    destruct (can_place tower card) eqn:Hacc; [|done].
    assert (suit ∈ filter
              (λ suit, from_option (λ tower, can_place tower card) false
                         (get_tower player suit) = true) all_suits) as Habs.
    { apply list_elem_of_filter. split; [|done]. by rewrite Ht. }
    rewrite <- Hnone in Habs. by apply elem_of_nil in Habs.
  - exfalso. clear Hnone. revert Hsel Hall. generalize all_suits.
    intros suits. induction suits as [|suit suits IH]; [done|]. intros Hsel Hall.
    cbn [select_suits] in Hsel. unfold mbind, option_bind in Hsel.
    destruct (Hall suit) as [tower Ht]; [left|]. rewrite Ht in Hsel.
    destruct (select_suits _ player suits) eqn:Hrest; [done|].
    apply IH; [done|]. intros su Hsu. apply Hall. by right.
Qed.

Lemma required_loop_spec s p cs l :
  phase s = BUILDING → auction_winner_index s = Some p →
  (∀ c, c ∈ cs → c ∈ cards_to_process s) →
  required_loop s p cs = Some l →
  (l = [] ∧ all_placeable s p cs = Some true)
  ∨ (l = all_suits ∧ all_placeable s p cs = Some false).
Proof.
  intros Hph Hw. induction cs as [|card cs IH]; intros Hin; cbn [required_loop all_placeable].
  - intros [= <-]. by left.
  - unfold mbind, option_bind.
    destruct (get_legal_placements s p card) as [[|suit legal]|] eqn:Hlegal; [| |done].
    + destruct (py_get (players s) p) as [player|] eqn:Hp; [|done].
      rewrite (no_placement_all_towers s p card player Hph Hw) by (done || apply Hin; left).
      intros [= <-]. by right.
    + apply IH. intros c Hc. apply Hin. by right.
Qed.

(** X20. Whenever [get_required_teardowns] returns, its list is empty or
    names all five suits, never a proper part of them: a card that no tower
    accepts means that no tower is empty. While building for a winner the
    list is empty exactly when [can_complete_building_phase] holds; in any
    other state the list is empty and [can_complete_building_phase] is
    false. *)
Theorem required_teardowns_all_or_nothing (s : GameState) (required : list TowerSuit) :
  get_required_teardowns s = Some required →
  (required = [] ∨ required = all_suits)
  ∧ (phase s = BUILDING → auction_winner_index s ≠ None →
     can_complete_building_phase s = Some (bool_decide (required = [])))
  ∧ (phase s ≠ BUILDING ∨ auction_winner_index s = None →
     required = [] ∧ can_complete_building_phase s = Some false).
Proof.
  unfold get_required_teardowns, can_complete_building_phase.
  destruct (decide (phase s ≠ BUILDING)) as [Hph|Hph%dec_stable].
  { intros [= <-]. split; [by left|]. split; [done|]. done. }
  destruct (auction_winner_index s) as [p|] eqn:Hw.
  2:{ intros [= <-]. split; [by left|]. split; [done|]. done. }
  intros Hreq.
  apply (required_loop_spec s p _ _ Hph Hw) in Hreq as [[-> Hall] | [-> Hall]]; [| |done].
  - split; [by left|]. split; [done|]. by intros [? | ?].
  - split; [by right|]. split; [done|]. by intros [? | ?].
Qed.

Lemma required_teardowns_all_or_nothing_witness :
  can_complete_building_phase stuck_state = Some (bool_decide (all_suits = [])).
Proof.
  apply (proj1 (proj2 (required_teardowns_all_or_nothing stuck_state all_suits eq_refl))).
  - vm_compute. reflexivity.
  - vm_compute. discriminate.
Defined.

(** ** The deck summary (deck.py) *)

Lemma suit_value_inj a b : suit_value a = suit_value b → a = b.
Proof. by destruct a, b. Qed.

Lemma suit_count_cons suit card l :
  suit_count suit (card :: l)
  = (if decide (card_suit card = suit) then 1 else 0) + suit_count suit l.
Proof.
  unfold suit_count. rewrite filter_cons. case_decide; simpl length; lia.
Qed.

Lemma value_count_cons v card l :
  value_count v (card :: l)
  = (if decide (card_value card = v) then 1 else 0) + value_count v l.
Proof.
  unfold value_count. rewrite filter_cons. case_decide; simpl length; lia.
Qed.

Lemma value_count_nonneg v l : 0 ≤ value_count v l.
Proof. unfold value_count. lia. Qed.

Lemma count_cards_spec l acc :
  (∀ suit, is_Some (by_suit acc !! suit_value suit)) →
  ∃ sm, foldl count_card (Some acc) l = Some sm
    ∧ summary_total sm = summary_total acc
    ∧ (∀ suit, by_suit sm !! suit_value suit
               = (λ n, n + suit_count suit l) <$> by_suit acc !! suit_value suit)
    ∧ (∀ k, (∀ suit, k ≠ suit_value suit) → by_suit sm !! k = by_suit acc !! k)
    ∧ (∀ v, by_value sm !! v
            = if decide (value_count v l = 0) then by_value acc !! v
              else Some (default 0 (by_value acc !! v) + value_count v l)).
Proof.
  revert acc. induction l as [|card l IH]; intros acc Hkeys.
  - exists acc. split; [done|]. split; [done|]. split; [|split].
    + intros suit. destruct (Hkeys suit) as [n ->]. simpl. f_equal.
      unfold suit_count. simpl. lia.
    + done.
    + intros v. by rewrite decide_True.
  - destruct (Hkeys (card_suit card)) as [n Hn].
    set (acc' := mkDeckSummary (summary_total acc)
                   (<[suit_value (card_suit card) := n + 1]> (by_suit acc))
                   (<[card_value card := default 0 (by_value acc !! card_value card) + 1]>
                      (by_value acc))).
    assert (count_card (Some acc) card = Some acc') as Hstep.
    { unfold count_card. simpl. by rewrite Hn. }
    destruct (IH acc') as (sm & Hsm & Htotal & Hsuit & Hother & Hvalue).
    { intros suit. simpl.
      destruct (decide (suit_value (card_suit card) = suit_value suit)) as [->|Hne].
      - rewrite lookup_insert_eq. eauto.
      - rewrite lookup_insert_ne by done. apply Hkeys. }
    exists sm. split.
    { change (foldl count_card (Some acc) (card :: l))
        with (foldl count_card (count_card (Some acc) card) l).
      by rewrite Hstep. }
    split; [done|]. split; [|split].
    + intros suit. rewrite Hsuit, suit_count_cons. simpl.
      destruct (decide (card_suit card = suit)) as [<-|Hne].
      * rewrite lookup_insert_eq, Hn. simpl. f_equal. lia.
      * rewrite lookup_insert_ne by (by intros ?%suit_value_inj).
        destruct (by_suit acc !! suit_value suit); simpl; [f_equal; lia | done].
    + intros k Hk. rewrite Hother by done. simpl. by rewrite lookup_insert_ne.
    + intros v. rewrite Hvalue, value_count_cons. simpl.
      pose proof (value_count_nonneg v l).
      destruct (decide (card_value card = v)) as [<-|Hne].
      * rewrite lookup_insert_eq. simpl.
        rewrite (decide_False (P := 1 + value_count _ l = 0)) by lia.
        case_decide as H0; f_equal; lia.
      * rewrite lookup_insert_ne by done.
        replace (0 + value_count v l) with (value_count v l) by lia. done.
Qed.

(** X21. [get_deck_summary] returns on every state (the per-suit counter
    exists for every suit a card can have): the total is the size of the
    deck, the counter of each suit is the number of deck cards of that suit,
    the keys of [by_suit] are the five suit names and no other, and
    [by_value] has an entry for exactly the values that occur in the deck,
    each with its number of cards. *)
Theorem deck_summary_counts (s : GameState) :
  ∃ sm, get_deck_summary s = Some sm
    ∧ summary_total sm = Z.of_nat (length (deck s))
    ∧ (∀ suit, by_suit sm !! suit_value suit = Some (suit_count suit (deck s)))
    ∧ (∀ k, is_Some (by_suit sm !! k) ↔ ∃ suit, k = suit_value suit)
    ∧ (∀ v, by_value sm !! v
            = if decide (value_count v (deck s) = 0) then None
              else Some (value_count v (deck s))).
Proof.
  unfold get_deck_summary.
  set (init := mkDeckSummary (Z.of_nat (length (deck s)))
                 (list_to_map ((λ suit, (suit_value suit, 0)) <$> all_suits)) ∅).
  assert (∀ suit, by_suit init !! suit_value suit = Some 0) as Hinit.
  { intros suit. by destruct suit. }
  destruct (count_cards_spec (deck s) init) as (sm & Hsm & Htotal & Hsuit & Hother & Hvalue).
  { intros suit. rewrite Hinit. eauto. }
  exists sm. split; [done|]. split; [done|]. split; [|split].
  - intros suit. rewrite Hsuit, Hinit. simpl; f_equal; lia.
  - intros k. split.
    + intros Hk.
      destruct (decide (k ∈ suit_value <$> all_suits)) as [Hin|Hnin].
      * apply list_elem_of_fmap in Hin as (suit & -> & _). eauto.
      * rewrite Hother in Hk.
        -- assert (by_suit init !! k = None) as Hnone.
           { apply not_elem_of_list_to_map_1. by rewrite <- list_fmap_compose. }
           rewrite Hnone in Hk. by destruct Hk.
        -- intros suit ->. apply Hnin, list_elem_of_fmap. exists suit.
           split; [done | apply all_suits_complete].
    + intros [suit ->]. rewrite Hsuit, Hinit. simpl. eauto.
  - intros v. rewrite Hvalue. simpl. rewrite lookup_empty. simpl.
    case_decide; [done|]. f_equal; lia.
Qed.

(** ** What an accepted building action does to the scores *)

Lemma score_holdings p p' :
  holdings p = holdings p' → calculate_player_score p = calculate_player_score p'.
Proof.
  unfold holdings. intros [= Ht Hp].
  unfold calculate_player_score, tower_values. by rewrite Ht, Hp.
Qed.

Lemma all_scores_holdings s1 s2 :
  holdings <$> players s1 = holdings <$> players s2 →
  calculate_all_scores s1 = calculate_all_scores s2.
Proof.
  intros Hh. apply list_eq. intros i. rewrite !calculate_all_scores_lookup.
  apply (f_equal (λ l, l !! i)) in Hh. rewrite !list_lookup_fmap in Hh.
  destruct (players s1 !! i) as [p1|], (players s2 !! i) as [p2|]; simpl in *; try done.
  assert (holdings p1 = holdings p2) as Heq by congruence.
  by rewrite (score_holdings p1 p2 Heq).
Qed.

Lemma all_scores_update s j p' :
  calculate_all_scores (update_player s j p')
  = <[j := (Z.of_nat j, calculate_player_score p')]> (calculate_all_scores s).
Proof.
  apply list_eq. intros i. rewrite calculate_all_scores_lookup. simpl.
  destruct (decide (i = j)) as [->|Hne].
  - destruct (decide (j < length (players s))%nat) as [Hlt|Hge].
    + rewrite list_lookup_insert_eq by done.
      rewrite list_lookup_insert_eq; [done|].
      unfold calculate_all_scores. by rewrite length_imap.
    + rewrite !list_insert_ge; [|unfold calculate_all_scores; rewrite length_imap; lia|lia].
      by rewrite calculate_all_scores_lookup.
  - rewrite !list_lookup_insert_ne by done. by rewrite calculate_all_scores_lookup.
Qed.

Lemma tower_sum_insert (f : Tower → Z) (m : gmap TowerSuit Tower) suit t t' :
  m !! suit = Some t →
  sum_Z (f <$> (map_to_list (<[suit := t']> m)).*2)
  = sum_Z (f <$> (map_to_list m).*2) - f t + f t'.
Proof.
  intros Hm.
  assert (map_to_list (<[suit := t']> m) ≡ₚ (suit, t') :: map_to_list (delete suit m))
    as Hnew.
  { rewrite <- insert_delete_eq. apply map_to_list_insert, lookup_delete_eq. }
  assert (map_to_list m ≡ₚ (suit, t) :: map_to_list (delete suit m)) as Hold.
  { symmetry. by apply map_to_list_delete. }
  rewrite (sum_Z_Permutation _ _
             (fmap_Permutation f _ _ (fmap_Permutation snd _ _ Hnew))).
  rewrite (sum_Z_Permutation _ _
             (fmap_Permutation f _ _ (fmap_Permutation snd _ _ Hold))).
  simpl. lia.
Qed.

Lemma max_default0_ge (l : list Z) y : y ∈ l → y ≤ max_default0 l.
Proof.
  destruct l as [|x l]; [by intros ?%elem_of_nil|]. simpl.
  induction l as [|z l IH]; simpl.
  - intros Hy%list_elem_of_singleton. lia.
  - intros Hy. apply elem_of_cons in Hy as [Hy | Hy].
    + assert (y ≤ foldr Z.max x l) by (apply IH; rewrite Hy; left). lia.
    + apply elem_of_cons in Hy as [Hy | Hy]; [lia|].
      assert (y ≤ foldr Z.max x l) by (apply IH; by right). lia.
Qed.

Lemma max_default0_le (l : list Z) b :
  0 ≤ b → (∀ y, y ∈ l → y ≤ b) → max_default0 l ≤ b.
Proof.
  intros Hb. destruct l as [|x l]; [done|]. simpl.
  induction l as [|z l IH]; simpl; intros Hall.
  - apply Hall. left.
  - assert (foldr Z.max x l ≤ b).
    { apply IH. intros y [-> | Hin]%elem_of_cons; apply Hall; [left | by right; right]. }
    assert (z ≤ b) by (apply Hall; right; left). lia.
Qed.

Lemma elem_of_heights (m : gmap TowerSuit Tower) y :
  y ∈ height <$> (map_to_list m).*2 ↔ ∃ suit t, m !! suit = Some t ∧ height t = y.
Proof.
  rewrite list_elem_of_fmap. split.
  - intros (t & -> & ([suit t'] & -> & Hin%elem_of_map_to_list)%list_elem_of_fmap).
    eauto.
  - intros (suit & t & Hm & <-). exists t. split; [done|].
    apply list_elem_of_fmap. exists (suit, t). split; [done|].
    by apply elem_of_map_to_list.
Qed.

Lemma heights_nonneg (m : gmap TowerSuit Tower) :
  0 ≤ max_default0 (height <$> (map_to_list m).*2).
Proof.
  apply max_default0_nonneg, Forall_fmap, Forall_true. intros t. unfold height. simpl. lia.
Qed.

(** Replacing a tower by one at least as tall does not lower the height of
    the tallest tower, and replacing it by one no taller does not raise
    it. *)
Lemma max_height_insert (m : gmap TowerSuit Tower) suit t t' :
  m !! suit = Some t →
  (height t ≤ height t' →
   max_default0 (height <$> (map_to_list m).*2)
   ≤ max_default0 (height <$> (map_to_list (<[suit := t']> m)).*2))
  ∧ (height t' ≤ height t →
     max_default0 (height <$> (map_to_list (<[suit := t']> m)).*2)
     ≤ max_default0 (height <$> (map_to_list m).*2)).
Proof.
  intros Hm. split; intros Hle.
  - apply max_default0_le; [apply heights_nonneg|].
    intros y (su & tw & Hsu & <-)%elem_of_heights.
    destruct (decide (su = suit)) as [->|Hne].
    + assert (tw = t) as -> by congruence.
      assert (height t' ≤ max_default0 (height <$> (map_to_list (<[suit := t']> m)).*2)).
      { apply max_default0_ge, elem_of_heights. exists suit, t'.
        by rewrite lookup_insert_eq. }
      lia.
    + apply max_default0_ge, elem_of_heights. exists su, tw.
      by rewrite lookup_insert_ne.
  - apply max_default0_le; [apply heights_nonneg|].
    intros y (su & tw & Hsu & <-)%elem_of_heights.
    destruct (decide (su = suit)) as [->|Hne].
    + rewrite lookup_insert_eq in Hsu. injection Hsu as <-.
      assert (height t ≤ max_default0 (height <$> (map_to_list m).*2)).
      { apply max_default0_ge, elem_of_heights. eauto. }
      lia.
    + rewrite lookup_insert_ne in Hsu by done.
      apply max_default0_ge, elem_of_heights. eauto.
Qed.

Lemma tower_score_uncapped tower c :
  can_place tower c = true → calculate_tower_score (cards tower) = height tower.
Proof.
  unfold can_place, calculate_tower_score, top_card, height, is_tower_top.
  destruct (last (cards tower)) as [top|] eqn:Hlast.
  - by case_bool_decide.
  - apply last_None in Hlast. by rewrite Hlast.
Qed.

Lemma tower_score_snoc (l : list Card) c :
  Z.of_nat (length l) + 1 ≤ calculate_tower_score (l ++ [c]).
Proof.
  unfold calculate_tower_score. rewrite last_snoc, length_app. simpl.
  case_bool_decide; lia.
Qed.

Lemma tower_score_ge_height tower : height tower ≤ calculate_tower_score (cards tower).
Proof.
  unfold calculate_tower_score, height.
  destruct (last (cards tower)) as [top|] eqn:Hlast.
  - case_bool_decide; lia.
  - apply last_None in Hlast. by rewrite Hlast.
Qed.

Lemma score_after_placement player suit tower c :
  towers player !! suit = Some tower → can_place tower c = true →
  calculate_player_score player + 1
  ≤ calculate_player_score
      (set_towers (<[suit := mkTower (tower_suit tower) (cards tower ++ [c])]>
                     (towers player)) player).
Proof.
  intros Ht Hacc. unfold calculate_player_score, tower_values.
  cbn [towers tear_down_pile set_towers].
  rewrite !tower_bonus_is_max_height.
  rewrite (tower_sum_insert (λ t, calculate_tower_score (cards t)) _ _ _ _ Ht).
  cbn [cards].
  pose proof (tower_score_uncapped tower c Hacc) as Hold.
  pose proof (tower_score_snoc (cards tower) c) as Hnew.
  pose proof (proj1 (max_height_insert (towers player) suit tower
                       (mkTower (tower_suit tower) (cards tower ++ [c])) Ht)) as Hmax.
  unfold height in Hmax at 1 2. cbn [cards] in Hmax. rewrite length_app in Hmax.
  unfold height in Hold. simpl in Hmax. lia.
Qed.

Lemma score_after_teardown player suit tower :
  towers player !! suit = Some tower → height tower > 0 →
  calculate_player_score
    (set_tear_down_pile (tear_down_pile player ++ cards tower)
       (set_towers (<[suit := mkTower (tower_suit tower) []]> (towers player)) player))
  + 2 * height tower
  ≤ calculate_player_score player.
Proof.
  intros Ht Hh. unfold calculate_player_score, tower_values.
  cbn [towers tear_down_pile set_towers set_tear_down_pile].
  rewrite !tower_bonus_is_max_height.
  rewrite (tower_sum_insert (λ t, calculate_tower_score (cards t)) _ _ _ _ Ht).
  cbn [cards].
  pose proof (tower_score_ge_height tower) as Hold.
  pose proof (proj2 (max_height_insert (towers player) suit tower
                       (mkTower (tower_suit tower) []) Ht)) as Hmax.
  unfold height in Hmax at 1 2. cbn [cards] in Hmax. simpl length in Hmax.
  rewrite length_app, Nat2Z.inj_add.
  fold (height tower).
  set (k := Z.of_nat (length (tear_down_pile player))).
  assert (0 ≤ k) as Hk by lia.
  assert (calculate_tear_down_penalty k + height tower
          ≤ calculate_tear_down_penalty (k + height tower)) as Hpen.
  { unfold calculate_tear_down_penalty.
    rewrite (bool_decide_eq_false_2 (k + height tower ≤ 0)) by lia.
    pose proof (penalty_exact (k + height tower) ltac:(lia)).
    case_bool_decide.
    - assert (k = 0) as Hk0 by lia. rewrite Hk0 in *. nia.
    - pose proof (penalty_exact k Hk). nia. }
  change (calculate_tower_score []) with 0.
  lia.
Qed.

(** X22. An accepted [place_card] changes one entry of the score table
    [calculate_all_scores], that of the placing player, and raises it by at
    least 1; this holds also when the placement ends the building phase and
    starts the next round. *)
Theorem placement_raises_score (rng : Rng) (s : GameState) (p : Z) (c : Card)
    (suit : TowerSuit) (s' : GameState) :
  place_card rng s p c suit = Some (true, s') →
  ∃ (j : nat) old new,
    py_index (length (players s)) p = Some j
    ∧ calculate_all_scores s !! j = Some (Z.of_nat j, old)
    ∧ calculate_all_scores s' = <[j := (Z.of_nat j, new)]> (calculate_all_scores s)
    ∧ old + 1 ≤ new.
Proof.
  intros Hplace.
  apply place_card_shape in Hplace
    as (j & player & tower & l & Hj & Hl & Ht & Hacc & _ & _ & _ & ->).
  set (player' := set_towers
                    (<[suit := mkTower (tower_suit tower) (cards tower ++ [c])]>
                       (towers player)) player).
  exists j, (calculate_player_score player), (calculate_player_score player').
  split; [done|]. split; [by rewrite calculate_all_scores_lookup, Hl|]. split.
  - rewrite <- all_scores_update. cbv zeta. fold player'.
    apply all_scores_holdings. case_decide; [|done].
    by rewrite end_building_phase_holdings.
  - by apply score_after_placement.
Qed.

Lemma placement_raises_score_witness :
  ∃ (j : nat) old new,
    py_index (length (players building_state)) 0 = Some j
    ∧ calculate_all_scores building_state !! j = Some (Z.of_nat j, old)
    ∧ calculate_all_scores capped_state
      = <[j := (Z.of_nat j, new)]> (calculate_all_scores building_state)
    ∧ old + 1 ≤ new.
Proof.
  apply (placement_raises_score rng_rev building_state 0 sand_top SAND capped_state).
  vm_compute. reflexivity.
Defined.

(** X23. An accepted [tear_down_tower] changes one entry of the score table,
    that of the player tearing down, and lowers it by at least twice the
    height of the tower torn down: its cards no longer count and the
    penalty grows by at least as much. *)
Theorem teardown_lowers_score (s : GameState) (p : Z) (suit : TowerSuit)
    (s' : GameState) :
  tear_down_tower s p suit = Some (true, s') →
  ∃ (j : nat) tower old new,
    py_index (length (players s)) p = Some j
    ∧ tower_at s j suit = Some tower
    ∧ height tower > 0
    ∧ calculate_all_scores s !! j = Some (Z.of_nat j, old)
    ∧ calculate_all_scores s' = <[j := (Z.of_nat j, new)]> (calculate_all_scores s)
    ∧ new + 2 * height tower ≤ old.
Proof.
  intros Htear.
  apply tear_down_tower_shape in Htear
    as (j & player & tower & Hj & Hl & Ht & Hh & _ & _ & ->).
  set (player' := set_tear_down_pile (tear_down_pile player ++ cards tower)
                    (set_towers (<[suit := mkTower (tower_suit tower) []]>
                                   (towers player)) player)).
  exists j, tower, (calculate_player_score player), (calculate_player_score player').
  split; [done|]. split; [by unfold tower_at; rewrite Hl|]. split; [done|].
  split; [by rewrite calculate_all_scores_lookup, Hl|]. split.
  - apply all_scores_update.
  - by apply score_after_teardown.
Qed.

Lemma teardown_lowers_score_witness :
  ∃ (j : nat) tower old new,
    py_index (length (players second_auction_state)) 0 = Some j
    ∧ tower_at second_auction_state j SAND = Some tower
    ∧ height tower > 0
    ∧ calculate_all_scores second_auction_state !! j = Some (Z.of_nat j, old)
    ∧ calculate_all_scores torn_down_state
      = <[j := (Z.of_nat j, new)]> (calculate_all_scores second_auction_state)
    ∧ new + 2 * height tower ≤ old.
Proof.
  apply (teardown_lowers_score second_auction_state 0 SAND torn_down_state).
  vm_compute. reflexivity.
Defined.

(** ** An accepted bid (phases/bidding.py) *)

Lemma flags_two_active (fl : list bool) (j : nat) :
  (2 ≤ length (filter (λ b, b = false) fl))%nat → ∃ a, a ≠ j ∧ fl !! a = Some false.
Proof.
  revert j. induction fl as [|b fl IH]; intros j; simpl; [lia|].
  rewrite filter_cons. destruct b; simpl.
  - intros H. destruct j as [|j].
    + destruct (IH 0%nat H) as (a & _ & Ha). by exists (S a).
    + destruct (IH j H) as (a & Hne & Ha). exists (S a). split; [lia | done].
  - intros H. destruct j as [|j].
    + destruct (flags_some_active fl ltac:(lia)) as [a Ha]. by exists (S a).
    + by exists 0%nat.
Qed.

(** With a player other than the one to move who has not passed, the
    rotation ends on the first player after the one to move who has not
    passed, before coming round. *)
Lemma advance_bidding_turn_next_active s s' (a : nat) :
  0 ≤ current_player_index s < Z.of_nat (length (players s)) →
  has_passed <$> players s !! a = Some false →
  Z.of_nat a ≠ current_player_index s →
  advance_bidding_turn s = Some s' →
  ∃ k : nat,
    (1 ≤ k < length (players s))%nat
    ∧ s' = set_current_player_index
             ((current_player_index s + Z.of_nat k) `mod` Z.of_nat (length (players s))) s
    ∧ passed_at s ((current_player_index s + Z.of_nat k)
                   `mod` Z.of_nat (length (players s))) = Some false
    ∧ ∀ k' : nat, (1 ≤ k' < k)%nat →
        passed_at s ((current_player_index s + Z.of_nat k')
                     `mod` Z.of_nat (length (players s))) = Some true.
Proof.
  intros Hc Ha Hne Hadv.
  set (N := Z.of_nat (length (players s))) in *.
  set (c := current_player_index s) in *.
  assert (0 ≤ Z.of_nat a < N) as HaN.
  { destruct (players s !! a) eqn:Hl; [|done]. apply lookup_lt_Some in Hl. lia. }
  assert (passed_at s (Z.of_nat a) = Some false) as Hpa.
  { unfold passed_at. by rewrite Nat2Z.id. }
  apply advance_bidding_loop_lands in Hadv as (k & Hk & -> & Hbefore & Hend); [|done].
  fold N c in Hbefore, Hend |- *. simpl in Hend.
  destruct (mod_reaches c (Z.of_nat a) N Hc HaN) as (ka & Hka & Hreach & Hfull).
  assert (ka < N) as HkaN.
  { destruct (decide (ka = N)) as [HkN|]; [|lia]. by specialize (Hfull HkN). }
  assert (Z.of_nat k ≤ ka) as Hkka.
  { destruct (decide (Z.of_nat k ≤ ka)) as [|Hgt]; [done|].
    specialize (Hbefore (Z.to_nat ka)). rewrite Z2Nat.id, Hreach in Hbefore by lia.
    rewrite Hbefore in Hpa by lia. done. }
  destruct Hend as [[-> Hall] | [Hk1 [Hstop | Horig]]].
  - lia.
  - exists k. split; [lia|]. split; [done|]. split; [done|]. done.
  - apply mod_wraps_once in Horig; [|done|lia]. lia.
Qed.

Lemma accepted_bid_shape (s : GameState) (p amount : Z) (s' : GameState) :
  reachable s → submit_bid s p amount = Some (true, s') → amount ≠ 5 →
  ∃ (j k : nat) player,
    p = Z.of_nat j ∧ players s !! j = Some player
    ∧ (1 ≤ k < length (players s))%nat
    ∧ s' = set_current_player_index
             ((p + Z.of_nat k) `mod` Z.of_nat (length (players s)))
             (set_high_bidder_index (Some p)
                (set_current_high_bid amount
                   (update_player s j (set_current_bid (Some amount) player))))
    ∧ passed_at s ((p + Z.of_nat k) `mod` Z.of_nat (length (players s))) = Some false
    ∧ ∀ k' : nat, (1 ≤ k' < k)%nat →
        passed_at s ((p + Z.of_nat k') `mod` Z.of_nat (length (players s))) = Some true.
Proof.
  intros Hs Hbid H5.
  pose proof (reachable_Inv _ Hs) as [Hturn _ _ _ _].
  pose proof (reachable_Playable _ Hs) as [_ _ Hplay _ _].
  apply submit_bid_result in Hbid
    as (j & player & Hph & Hcur & Hamt & Hj & Hl & Hpass & Hres).
  destruct (Hplay Hph) as (_ & Hact & _). cbv zeta in Hres.
  destruct Hres as [[-> _] | [_ Hadv]]; [done|].
  assert (p = Z.of_nat j) as Hpj.
  { apply py_index_nat in Hj; [|lia]. apply lookup_lt_Some in Hl. lia. }
  rewrite active_bidders_flags in Hact.
  destruct (flags_two_active _ j Hact) as (a & Hne & Ha).
  rewrite list_lookup_fmap in Ha.
  set (player' := set_current_bid (Some amount) player) in *.
  assert (has_passed <$> <[j := player']> (players s) = has_passed <$> players s)
    as Hflags by (by apply (flags_insert_same _ _ player player')).
  apply (advance_bidding_turn_next_active _ _ a) in Hadv
    as (k & Hk & -> & Hstop & Hbefore).
  - simpl in Hk, Hstop, Hbefore |- *. rewrite length_insert in *.
    rewrite Hcur in *.
    unfold passed_at in *. simpl in Hstop, Hbefore.
    rewrite <- list_lookup_fmap in Hstop.
    rewrite Hflags, list_lookup_fmap in Hstop.
    exists j, k, player. repeat (split; [done|]).
    intros k' Hk'. specialize (Hbefore k' Hk').
    rewrite <- list_lookup_fmap in Hbefore.
    by rewrite Hflags, list_lookup_fmap in Hbefore.
  - simpl. by rewrite length_insert.
  - simpl. rewrite <- list_lookup_fmap, Hflags, list_lookup_fmap. done.
  - simpl. lia.
Qed.

(** X24. In a reachable state an accepted bid below 5 records the amount as
    the bidder's bid and as the high bid, records the bidder as the high
    bidder, and passes the turn to the first player after the bidder, in
    rotation, who has not passed; that player is not the bidder. Nothing
    else changes: the phase stays Bidding. *)
Theorem accepted_bid_passes_turn (s : GameState) (p amount : Z) (s' : GameState) :
  reachable s → submit_bid s p amount = Some (true, s') → amount ≠ 5 →
  ∃ (j k : nat) player,
    p = Z.of_nat j ∧ players s !! j = Some player
    ∧ (1 ≤ k < length (players s))%nat
    ∧ s' = set_current_player_index
             ((p + Z.of_nat k) `mod` Z.of_nat (length (players s)))
             (set_high_bidder_index (Some p)
                (set_current_high_bid amount
                   (update_player s j (set_current_bid (Some amount) player))))
    ∧ passed_at s ((p + Z.of_nat k) `mod` Z.of_nat (length (players s))) = Some false
    ∧ ∀ k' : nat, (1 ≤ k' < k)%nat →
        passed_at s ((p + Z.of_nat k') `mod` Z.of_nat (length (players s))) = Some true.
Proof. apply accepted_bid_shape. Qed.

Lemma accepted_bid_passes_turn_witness :
  ∃ (j k : nat) player,
    0 = Z.of_nat j ∧ players two_player_start !! j = Some player
    ∧ (1 ≤ k < length (players two_player_start))%nat
    ∧ default two_player_start (run two_player_start [Bid 0 3])
      = set_current_player_index
          ((0 + Z.of_nat k) `mod` Z.of_nat (length (players two_player_start)))
          (set_high_bidder_index (Some 0)
             (set_current_high_bid 3
                (update_player two_player_start j (set_current_bid (Some 3) player))))
    ∧ passed_at two_player_start
        ((0 + Z.of_nat k) `mod` Z.of_nat (length (players two_player_start)))
      = Some false
    ∧ ∀ k' : nat, (1 ≤ k' < k)%nat →
        passed_at two_player_start
          ((0 + Z.of_nat k') `mod` Z.of_nat (length (players two_player_start)))
        = Some true.
Proof.
  apply (accepted_bid_passes_turn two_player_start 0 3).
  - apply two_player_start_reachable.
  - vm_compute. reflexivity.
  - discriminate.
Defined.

(** ** The bookkeeping of bids is kept by every action *)

Lemma book_phase ph ph' l high hb :
  (ph' = BIDDING → ph = BIDDING) →
  Bookkeeping ph l high hb → Bookkeeping ph' l high hb.
Proof. intros Hph [? ? ? ? ? ?]. split; auto. Qed.

Lemma book_bid ph ph' l high hb (j : nat) id old amount :
  l !! j = Some (id, old) → high < amount ≤ 5 → (ph' = BIDDING → amount ≤ 4) →
  Bookkeeping ph l high hb →
  Bookkeeping ph' (<[j := (id, Some amount)]> l) amount (Some (Z.of_nat j)).
Proof.
  intros Hj Hamt Hph [Hids Hhigh _ Hbids Hdistinct _].
  assert (j < length l)%nat as Hlt by (by eapply lookup_lt_Some).
  split.
  - intros i id' b Hi. destruct (decide (i = j)) as [->|Hne].
    + rewrite list_lookup_insert_eq in Hi by done. injection Hi as <- <-. eauto.
    + rewrite list_lookup_insert_ne in Hi by done. eauto.
  - lia.
  - done.
  - intros i id' b Hi. destruct (decide (i = j)) as [->|Hne].
    + rewrite list_lookup_insert_eq in Hi by done. injection Hi as <- <-. lia.
    + rewrite list_lookup_insert_ne in Hi by done.
      pose proof (Hbids _ _ _ Hi). lia.
  - intros i i' idi idj b Hi Hi'.
    destruct (decide (i = j)) as [->|Hne], (decide (i' = j)) as [->|Hne']; [done| | |].
    + rewrite list_lookup_insert_eq in Hi by done. injection Hi as <- <-.
      rewrite list_lookup_insert_ne in Hi' by done.
      pose proof (Hbids _ _ _ Hi'). lia.
    + rewrite list_lookup_insert_eq in Hi' by done. injection Hi' as <- <-.
      rewrite list_lookup_insert_ne in Hi by done.
      pose proof (Hbids _ _ _ Hi). lia.
    + rewrite list_lookup_insert_ne in Hi, Hi' by done. eauto.
  - split; [lia|]. exists id. rewrite Nat2Z.id. by apply list_lookup_insert_eq.
Qed.

Lemma book_reset ph ph' l high hb :
  Bookkeeping ph l high hb → Bookkeeping ph' ((λ x, (x.1, None)) <$> l) 0 None.
Proof.
  intros [Hids _ _ _ _ _].
  assert (∀ (i : nat) id b, ((λ x : Z * option Z, (x.1, @None Z)) <$> l) !! i = Some (id, b) →
            b = None ∧ ∃ b', l !! i = Some (id, b')) as Hlook.
  { intros i id b. rewrite list_lookup_fmap.
    destruct (l !! i) as [[id' b']|]; simpl; [|done]. intros [= <- <-]. eauto. }
  split; try done.
  - intros i id b (_ & b' & Hi)%Hlook. eauto.
  - intros i id b (? & _)%Hlook. done.
  - intros i j idi idj b (? & _)%Hlook. done.
Qed.

Lemma bids_of_set_bid s j player b :
  bids_of (update_player s j (set_current_bid b player))
  = <[j := (player_id player, b)]> (bids_of s).
Proof. unfold bids_of. simpl. by rewrite list_fmap_insert. Qed.

Lemma bids_of_update_same s j player player' :
  players s !! j = Some player →
  player_id player' = player_id player → current_bid player' = current_bid player →
  bids_of (update_player s j player') = bids_of s.
Proof.
  intros Hl Hid Hbid. unfold bids_of. simpl. rewrite list_fmap_insert, Hid, Hbid.
  apply list_insert_id. by rewrite list_lookup_fmap, Hl.
Qed.

Lemma bids_of_reset_flags (l : list PlayerState) :
  (λ p, (player_id p, current_bid p)) <$> (reset_auction_flags <$> l)
  = (λ x, (x.1, None)) <$> ((λ p, (player_id p, current_bid p)) <$> l).
Proof. by rewrite <- !list_fmap_compose. Qed.

Lemma start_new_round_Booked s : Booked s → Booked (start_new_round s).
Proof.
  intros Hs. destruct (start_new_round_shape s) as (ph & rn & dk & cs & -> & _ & _).
  unfold Booked, bids_of. simpl. rewrite bids_of_reset_flags.
  by eapply book_reset.
Qed.

Lemma award_to_winner_Booked s w s' :
  award_to_winner s w = Some s' →
  Bookkeeping BUILDING (bids_of s) (current_high_bid s) (high_bidder_index s) →
  Booked s'.
Proof.
  intros Haward Hs. unfold award_to_winner in Haward. simpl in Haward.
  destruct (py_get (players s) w) as [winner|]; simpl in Haward; [|done].
  destruct (decide (bid_or_0 (current_bid winner) = 0)) as [Hzero|Hnz].
  - destruct (start_new_round_shape
                (discard_display_cards (set_auction_winner_index (Some w) s)))
      as (ph & rn & dk & cs & Hshape & _ & _).
    rewrite Hshape in Haward. simpl in Haward. injection Haward as <-.
    unfold Booked, bids_of. simpl. rewrite bids_of_reset_flags.
    by eapply book_reset.
  - by injection Haward as <-.
Qed.

Lemma end_building_phase_Booked rng s : Booked s → Booked (end_building_phase rng s).
Proof.
  intros Hs. unfold end_building_phase, refill_deck_from_discard.
  case_decide.
  - destruct (discard_pile s) eqn:Hd.
    + unfold Booked, bids_of. simpl. by apply (book_phase (phase s)).
    + by apply start_new_round_Booked.
  - by apply start_new_round_Booked.
Qed.

Lemma step_Booked s a ok s' :
  Inv s → Booked s → step s a = Some (ok, s') → Booked s'.
Proof.
  intros [Hturn _ _ _ _] Hs Hstep.
  destruct ok; [|by apply step_false in Hstep as ->].
  destruct a as [p amount|p|rng p c su|p su]; simpl in Hstep.
  - apply submit_bid_result in Hstep
      as (j & player & Hph & Hcur & Hamt & Hj & Hl & Hpass & Hres).
    assert (p = Z.of_nat j) as Hpj.
    { apply py_index_nat in Hj; [|lia]. apply lookup_lt_Some in Hl. lia. }
    assert (bids_of s !! j = Some (player_id player, current_bid player)) as Hb.
    { unfold bids_of. by rewrite list_lookup_fmap, Hl. }
    cbv zeta in Hres. destruct Hres as [[-> Haward] | [H5 Hadv]].
    + apply award_to_winner_Booked in Haward; [done|].
      unfold Booked. simpl. rewrite Hpj.
      change (bids_of _) with (bids_of (update_player s j (set_current_bid (Some 5) player))).
      rewrite bids_of_set_bid.
      by apply (book_bid (phase s) BUILDING _ (current_high_bid s) (high_bidder_index s)
                  j _ (current_bid player)).
    + apply advance_bidding_loop_shape in Hadv as (x & -> & _).
      unfold Booked. simpl. rewrite Hpj.
      change (bids_of _)
        with (bids_of (update_player s j (set_current_bid (Some amount) player))).
      rewrite bids_of_set_bid.
      apply (book_bid (phase s) (phase s) _ (current_high_bid s) (high_bidder_index s)
               j _ (current_bid player)); [done | lia | lia | done].
  - apply submit_pass_result in Hstep
      as (j & player & Hph & Hcur & Hj & Hl & Hpass & Hres).
    assert (Booked (mark_passed s j player)) as Hs1.
    { unfold Booked. simpl.
      change (bids_of _) with (bids_of (update_player s j (set_has_passed true player))).
      by rewrite (bids_of_update_same s j player). }
    destruct Hres as [(only & w & _ & _ & Haward) | [_ Hadv]].
    + eapply award_to_winner_Booked; [done|]. by apply (book_phase (phase s)).
    + by apply advance_bidding_loop_shape in Hadv as (x & -> & _).
  - apply place_card_shape in Hstep
      as (j & player & tower & l & Hj & Hl & _ & _ & _ & _ & _ & ->).
    cbv zeta.
    assert (Booked (set_cards_to_process l
                      (update_player s j
                         (set_towers
                            (<[su := mkTower (tower_suit tower) (cards tower ++ [c])]>
                               (towers player)) player)))) as Hs2.
    { unfold Booked. simpl.
      change (bids_of _)
        with (bids_of (update_player s j
                         (set_towers
                            (<[su := mkTower (tower_suit tower) (cards tower ++ [c])]>
                               (towers player)) player))).
      by rewrite (bids_of_update_same s j player). }
    case_decide; [by apply end_building_phase_Booked | done].
  - apply tear_down_tower_shape in Hstep
      as (j & player & tower & Hj & Hl & _ & _ & _ & _ & ->).
    unfold Booked. simpl.
    change (bids_of _)
      with (bids_of (update_player s j
                       (set_tear_down_pile (tear_down_pile player ++ cards tower)
                          (set_towers (<[su := mkTower (tower_suit tower) []]>
                                         (towers player)) player)))).
    by rewrite (bids_of_update_same s j player).
Qed.

Lemma reset_Booked rng fresh n : Booked (reset rng fresh n).
Proof.
  unfold reset, deal_display_cards. simpl.
  destruct (deal_loop _ _ _) as [dk cs]. unfold Booked, bids_of. simpl.
  rewrite <- list_fmap_compose.
  assert (∀ (i : nat) id b,
            ((λ p, (player_id p, current_bid p))
              ∘ (λ i, new_player i ("Player" +:+ pretty i)) <$> seqZ 0 n) !! i
            = Some (id, b) → id = Z.of_nat i ∧ b = None) as Hlook.
  { intros i id b. rewrite list_lookup_fmap.
    destruct (seqZ 0 n !! i) as [x|] eqn:Hx; simpl; [|done].
    apply lookup_seqZ in Hx as [-> _]. intros [= <- <-]. split; [lia | done]. }
  split; try done.
  - intros i id b (? & _)%Hlook. done.
  - intros i id b (_ & ?)%Hlook. done.
  - intros i j idi idj b (_ & ?)%Hlook. done.
Qed.

Lemma run_Booked s acts s' : Inv s → Booked s → run s acts = Some s' → Booked s'.
Proof.
  revert s. induction acts as [|a acts IH]; intros s HI Hs; simpl.
  - by intros [= <-].
  - destruct (step s a) as [[ok s1]|] eqn:Hstep; simpl; [|done].
    apply IH.
    + by destruct (step_effect _ _ _ _ HI Hstep).
    + by eapply step_Booked.
Qed.

Lemma reachable_Booked s : reachable s → Booked s.
Proof.
  intros (rng & fresh & n & acts & Hn & Hrun).
  exact (run_Booked _ _ _ (reset_Inv rng fresh n Hn) (reset_Booked rng fresh n) Hrun).
Qed.

Lemma get_player_index_from_positions i (l : list PlayerState) id :
  (∀ (k : nat) pl, l !! k = Some pl → player_id pl = i + Z.of_nat k) →
  get_player_index_from i l id
  = if bool_decide (i ≤ id < i + Z.of_nat (length l)) then Some id else None.
Proof.
  revert i. induction l as [|p l IH]; intros i Hids; simpl.
  - rewrite bool_decide_eq_false_2 by lia. done.
  - pose proof (Hids 0%nat p eq_refl) as Hp.
    rewrite IH.
    2:{ intros k pl Hk. rewrite (Hids (S k) pl Hk). lia. }
    case_decide as Hid.
    + rewrite bool_decide_eq_true_2 by lia. f_equal. lia.
    + case_bool_decide; [by rewrite bool_decide_eq_true_2 by lia|].
      by rewrite bool_decide_eq_false_2 by lia.
Qed.

Lemma bids_of_lookup s (i : nat) pl :
  players s !! i = Some pl → bids_of s !! i = Some (player_id pl, current_bid pl).
Proof. intros Hl. unfold bids_of. by rewrite list_lookup_fmap, Hl. Qed.

(** X25. In every reachable state the player at position [i] has the
    identifier [i] that [reset] gave it, so [get_player_index] returns every
    identifier from 0 to the number of players, excluded, as it is, and
    raises on any other. *)
Theorem player_ids_are_positions (s : GameState) :
  reachable s →
  (∀ (i : nat) pl, players s !! i = Some pl → player_id pl = Z.of_nat i)
  ∧ ∀ id, get_player_index s id
          = if bool_decide (0 ≤ id < Z.of_nat (length (players s))) then Some id
            else None.
Proof.
  intros Hs. pose proof (reachable_Booked _ Hs) as [Hids _ _ _ _ _].
  assert (∀ (i : nat) pl, players s !! i = Some pl → player_id pl = Z.of_nat i) as Hpos.
  { intros i pl Hl. by eapply Hids, bids_of_lookup. }
  split; [done|]. intros id. unfold get_player_index.
  rewrite (get_player_index_from_positions 0); [done|].
  intros k pl Hk. rewrite (Hpos k pl Hk). lia.
Qed.

Lemma player_ids_are_positions_witness :
  (∀ (i : nat) pl, players final_state !! i = Some pl → player_id pl = Z.of_nat i)
  ∧ ∀ id, get_player_index final_state id
          = if bool_decide (0 ≤ id < Z.of_nat (length (players final_state)))
            then Some id else None.
Proof.
  apply (player_ids_are_positions final_state).
  apply final_state_reachable.
Defined.

(** X26. In every reachable state the high bid is between 0 and 5, and at
    most 4 while the phase is Bidding; every recorded bid is between 1 and
    the high bid; no two players have recorded the same bid; when no high
    bidder is recorded the high bid is 0 and nobody has a recorded bid; and
    a recorded high bidder is a player whose recorded bid is the high bid. *)
Theorem bids_are_consistent (s : GameState) :
  reachable s →
  0 ≤ current_high_bid s ≤ 5
  ∧ (phase s = BIDDING → current_high_bid s ≤ 4)
  ∧ (∀ (i : nat) pl b,
       players s !! i = Some pl → current_bid pl = Some b →
       1 ≤ b ≤ current_high_bid s)
  ∧ (∀ (i j : nat) pi pj b,
       players s !! i = Some pi → players s !! j = Some pj →
       current_bid pi = Some b → current_bid pj = Some b → i = j)
  ∧ match high_bidder_index s with
    | None =>
        current_high_bid s = 0
        ∧ ∀ (i : nat) pl, players s !! i = Some pl → current_bid pl = None
    | Some h =>
        ∃ pl, py_get (players s) h = Some pl
              ∧ current_bid pl = Some (current_high_bid s)
    end.
Proof.
  intros Hs.
  pose proof (reachable_Booked _ Hs) as [_ Hhigh Hbidding Hbids Hdistinct Hbidder].
  split; [done|]. split; [done|].
  assert (∀ (i : nat) pl b,
            players s !! i = Some pl → current_bid pl = Some b →
            1 ≤ b ≤ current_high_bid s) as Hb.
  { intros i pl b Hl Hbid. apply (Hbids i (player_id pl)).
    by rewrite (bids_of_lookup s i pl Hl), Hbid. }
  split; [done|]. split.
  - intros i j pi pj b Hi Hj Hbi Hbj.
    apply (Hdistinct i j (player_id pi) (player_id pj) b).
    + by rewrite (bids_of_lookup s i pi Hi), Hbi.
    + by rewrite (bids_of_lookup s j pj Hj), Hbj.
  - destruct (high_bidder_index s) as [h|].
    + destruct Hbidder as (Hh & id & Hl). unfold bids_of in Hl.
      rewrite list_lookup_fmap in Hl.
      destruct (players s !! Z.to_nat h) as [pl|] eqn:Hpl; [|done].
      simpl in Hl. exists pl. split; [|congruence].
      apply py_get_Some. exists (Z.to_nat h). split; [|done].
      apply lookup_lt_Some in Hpl. unfold py_index.
      rewrite bool_decide_eq_true_2 by lia. done.
    + split; [done|]. intros i pl Hl.
      destruct (current_bid pl) as [b|] eqn:Hbid; [|done].
      pose proof (Hb i pl b Hl Hbid). lia.
Qed.

Lemma bids_are_consistent_witness :
  0 ≤ current_high_bid building_state ≤ 5
  ∧ (phase building_state = BIDDING → current_high_bid building_state ≤ 4)
  ∧ (∀ (i : nat) pl b,
       players building_state !! i = Some pl → current_bid pl = Some b →
       1 ≤ b ≤ current_high_bid building_state)
  ∧ (∀ (i j : nat) pi pj b,
       players building_state !! i = Some pi → players building_state !! j = Some pj →
       current_bid pi = Some b → current_bid pj = Some b → i = j)
  ∧ match high_bidder_index building_state with
    | None =>
        current_high_bid building_state = 0
        ∧ ∀ (i : nat) pl, players building_state !! i = Some pl → current_bid pl = None
    | Some h =>
        ∃ pl, py_get (players building_state) h = Some pl
              ∧ current_bid pl = Some (current_high_bid building_state)
    end.
Proof.
  apply (bids_are_consistent building_state).
  apply building_state_reachable.
Defined.

(** ** An accepted pass (phases/bidding.py) *)

Lemma passed_at_mark_passed s j player i :
  players s !! j = Some player →
  passed_at (mark_passed s j player) i
  = if decide (Z.to_nat i = j) then Some true else passed_at s i.
Proof.
  intros Hl. unfold passed_at, mark_passed. simpl. case_decide as Hi.
  - rewrite Hi, list_lookup_insert_eq by (by eapply lookup_lt_Some). done.
  - by rewrite list_lookup_insert_ne.
Qed.

Lemma active_after_pass s j player :
  players s !! j = Some player → has_passed player = false →
  S (length (active_bidders (mark_passed s j player))) = length (active_bidders s).
Proof.
  intros Hl Hpass. rewrite !active_bidders_flags. simpl.
  rewrite list_fmap_insert. apply flags_mark_passed.
  by rewrite list_lookup_fmap, Hl, <- Hpass.
Qed.

(** A pass that returns [True], in a reachable state: the player to move is
    marked as passed; when one bidder is left the auction is ended for that
    player, and otherwise the turn goes to the first player after, in
    rotation, who has not passed. *)
Lemma accepted_pass_shape (s : GameState) (p : Z) (s' : GameState) :
  reachable s → submit_pass s p = Some (true, s') →
  ∃ (j : nat) player,
    p = Z.of_nat j ∧ players s !! j = Some player ∧ has_passed player = false
    ∧ phase s = BIDDING ∧ current_player_index s = p
    ∧ ((∃ (w : nat) winner,
          w ≠ j ∧ players s !! w = Some winner ∧ has_passed winner = false
          ∧ active_bidders (mark_passed s j player) = [winner]
          ∧ award_to_winner (mark_passed s j player) (Z.of_nat w) = Some s')
       ∨ ((2 ≤ length (active_bidders (mark_passed s j player)))%nat
          ∧ ∃ k : nat,
              (1 ≤ k < length (players s))%nat
              ∧ s' = set_current_player_index
                       ((p + Z.of_nat k) `mod` Z.of_nat (length (players s)))
                       (mark_passed s j player)
              ∧ passed_at s ((p + Z.of_nat k) `mod` Z.of_nat (length (players s)))
                = Some false
              ∧ (p + Z.of_nat k) `mod` Z.of_nat (length (players s)) ≠ p
              ∧ ∀ k' : nat, (1 ≤ k' < k)%nat →
                  passed_at s ((p + Z.of_nat k') `mod` Z.of_nat (length (players s)))
                  = Some true)).
Proof.
  intros Hs Hsubmit.
  pose proof (reachable_Inv _ Hs) as [Hturn _ _ _ _].
  pose proof (reachable_Playable _ Hs) as [_ _ Hplay _ _].
  pose proof (reachable_Booked _ Hs) as [Hids _ _ _ _ _].
  apply submit_pass_result in Hsubmit
    as (j & player & Hph & Hcur & Hj & Hl & Hpass & Hres).
  destruct (Hplay Hph) as (_ & Hact & _).
  assert (p = Z.of_nat j) as Hpj.
  { apply py_index_nat in Hj; [|lia]. apply lookup_lt_Some in Hl. lia. }
  pose proof (active_after_pass s j player Hl Hpass) as Hless.
  set (s1 := mark_passed s j player) in *.
  assert (length (players s1) = length (players s)) as Hlen.
  { unfold s1. simpl. apply length_insert. }
  exists j, player. repeat (split; [done|]).
  destruct Hres as [(only & w & Honly & Hw & Haward) | [Hne Hadv]].
  - left.
    assert (only ∈ active_bidders s1) as Hin by (rewrite Honly; left).
    apply list_elem_of_filter in Hin as [Hactive Hin].
    apply list_elem_of_lookup in Hin as [i Hi].
    assert (i ≠ j) as Hij.
    { intros ->. unfold s1 in Hi. simpl in Hi.
      rewrite list_lookup_insert_eq in Hi by (by eapply lookup_lt_Some).
      injection Hi as <-. done. }
    assert (players s !! i = Some only) as Hi0.
    { unfold s1 in Hi. simpl in Hi. by rewrite list_lookup_insert_ne in Hi. }
    assert (w = Z.of_nat i) as ->.
    { unfold get_player_index in Hw.
      rewrite (get_player_index_from_positions 0) in Hw.
      - rewrite (Hids i _ _ (bids_of_lookup s i only Hi0)) in Hw.
        case_bool_decide; by simplify_eq.
      - intros k pl Hk. unfold s1 in Hk. simpl in Hk.
        destruct (decide (k = j)) as [->|Hkj].
        + rewrite list_lookup_insert_eq in Hk by (by eapply lookup_lt_Some).
          injection Hk as <-. simpl.
          rewrite (Hids j _ _ (bids_of_lookup s j player Hl)). lia.
        + rewrite list_lookup_insert_ne in Hk by done.
          rewrite (Hids k _ _ (bids_of_lookup s k pl Hk)). lia. }
    exists i, only. done.
  - right.
    assert (2 ≤ length (active_bidders s1))%nat as Htwo by lia.
    split; [done|].
    rewrite active_bidders_flags in Htwo.
    destruct (flags_two_active _ j Htwo) as (a & Haj & Ha).
    rewrite list_lookup_fmap in Ha.
    apply (advance_bidding_turn_next_active _ _ a) in Hadv
      as (k & Hk & -> & Hstop & Hbefore).
    + rewrite Hlen in *. change (current_player_index s1) with (current_player_index s) in *.
      rewrite Hcur in *.
      assert (Z.to_nat ((p + Z.of_nat k) `mod` Z.of_nat (length (players s))) ≠ j) as Hkj.
      { intros Heq. unfold s1 in Hstop.
        rewrite (passed_at_mark_passed s j player _ Hl), decide_True in Hstop by done.
        done. }
      exists k. split; [done|]. split; [done|]. split; [|split].
      * unfold s1 in Hstop.
        by rewrite (passed_at_mark_passed s j player _ Hl), decide_False in Hstop.
      * intros Heq. apply Hkj. rewrite Heq, Hpj. apply Nat2Z.id.
      * intros k' Hk'. specialize (Hbefore k' Hk'). unfold s1 in Hbefore.
        rewrite (passed_at_mark_passed s j player _ Hl) in Hbefore.
        case_decide as Hk'j; [|done].
        exfalso.
        assert ((p + Z.of_nat k') `mod` Z.of_nat (length (players s)) = p) as Hmod.
        { pose proof (Z.mod_pos_bound (p + Z.of_nat k') (Z.of_nat (length (players s)))
                        ltac:(lia)). lia. }
        apply mod_wraps_once in Hmod; lia.
    + rewrite Hlen. exact Hturn.
    + done.
    + change (current_player_index s1) with (current_player_index s). lia.
Qed.

(** ** The winner of an auction is the high bidder *)

Lemma first_bid_state_reachable : reachable first_bid_state.
Proof.
  apply (reachable_run two_player_start [Bid 0 1]); [apply two_player_start_reachable|].
  vm_compute. reflexivity.
Qed.

Lemma py_get_nat {A} (l : list A) (i : nat) x : l !! i = Some x → py_get l (Z.of_nat i) = Some x.
Proof.
  intros Hi. apply py_get_Some. exists i. split; [|done].
  apply lookup_lt_Some in Hi. unfold py_index.
  rewrite bool_decide_eq_true_2 by lia. by rewrite Nat2Z.id.
Qed.

Lemma mod_offset h d x N : ((h + d) `mod` N + x) `mod` N = (h + (d + x)) `mod` N.
Proof. rewrite Zplus_mod_idemp_l. f_equal. lia. Qed.

Lemma mod_step_differs h d N : 0 ≤ h < N → 1 ≤ d < N → (h + d) `mod` N ≠ h.
Proof. intros Hh Hd Hmod. apply mod_wraps_once in Hmod; lia. Qed.

Lemma end_building_phase_Auction rng s :
  phase s = BUILDING →
  (∀ w, auction_winner_index s = Some w → high_bidder_index s = Some w) →
  Auction (end_building_phase rng s).
Proof.
  intros Hph Hwin. unfold end_building_phase, refill_deck_from_discard.
  assert (∀ t, Auction (start_new_round t)) as Hround.
  { intros t. destruct (start_new_round_shape t) as (ph & rn & dk & cs & -> & _ & _).
    split; simpl; [done | done | by intros _ h ?]. }
  case_decide; [|done].
  destruct (discard_pile s) eqn:Hd; [|done].
  split; simpl; [done | done | done].
Qed.

Lemma reset_Auction rng fresh n : Auction (reset rng fresh n).
Proof.
  unfold reset, deal_display_cards. simpl.
  destruct (deal_loop _ _ _) as [dk cs].
  split; simpl; [done | done | by intros _ h ?].
Qed.

Lemma high_bidder_in_range s h :
  Booked s → high_bidder_index s = Some h →
  0 ≤ h < Z.of_nat (length (players s))
  ∧ ∃ pl, players s !! Z.to_nat h = Some pl
          ∧ player_id pl = h ∧ current_bid pl = Some (current_high_bid s).
Proof.
  intros [Hids _ _ _ _ Hbidder] Hhb. rewrite Hhb in Hbidder.
  destruct Hbidder as (Hh & id & Hl).
  pose proof (Hids _ _ _ Hl) as Hid.
  unfold bids_of in Hl. rewrite list_lookup_fmap in Hl.
  destruct (players s !! Z.to_nat h) as [pl|] eqn:Hpl; [|done].
  simpl in Hl. apply lookup_lt_Some in Hpl as Hlt.
  split; [lia|]. exists pl. split; [done|]. split; [|congruence].
  injection Hl as -> _. lia.
Qed.

(** The last bidder left by a pass is the high bidder, when there is one. *)
Lemma last_bidder_is_high_bidder s (j w : nat) player winner h :
  Booked s → Auction s → phase s = BIDDING →
  current_player_index s = Z.of_nat j →
  players s !! j = Some player →
  players s !! w = Some winner →
  active_bidders (mark_passed s j player) = [winner] →
  high_bidder_index s = Some h →
  h = Z.of_nat w.
Proof.
  intros HB [_ _ Hrot] Hph Hcur Hl Hw Hactive Hhb.
  destruct (high_bidder_in_range s h HB Hhb) as (Hh & ph & Hlh & Hidh & _).
  destruct (Hrot Hph h Hhb) as (Hhpass & d & Hd & Hc & _).
  assert (Z.to_nat h ≠ j) as Hhj.
  { intros Heq. rewrite Hcur in Hc.
    apply (mod_step_differs h (Z.of_nat d) (Z.of_nat (length (players s)))); lia. }
  unfold passed_at in Hhpass. rewrite Hlh in Hhpass. simpl in Hhpass.
  assert (ph ∈ active_bidders (mark_passed s j player)) as Hin.
  { apply list_elem_of_filter. split; [congruence|].
    apply list_elem_of_lookup. exists (Z.to_nat h). simpl.
    by rewrite list_lookup_insert_ne. }
  rewrite Hactive in Hin. apply list_elem_of_singleton in Hin as ->.
  destruct HB as [Hids _ _ _ _ _].
  rewrite (Hids w _ _ (bids_of_lookup s w winner Hw)) in Hidh. done.
Qed.

(** After a pass that leaves two bidders or more, the player the turn goes
    to still comes after the high bidder, less than once round, with only
    players who have passed in between. *)
Lemma rotation_after_pass s (j k : nat) player h :
  Booked s → Auction s → phase s = BIDDING →
  current_player_index s = Z.of_nat j →
  players s !! j = Some player →
  (2 ≤ length (active_bidders (mark_passed s j player)))%nat →
  (1 ≤ k < length (players s))%nat →
  (∀ k' : nat, (1 ≤ k' < k)%nat →
     passed_at s ((Z.of_nat j + Z.of_nat k') `mod` Z.of_nat (length (players s)))
     = Some true) →
  high_bidder_index s = Some h →
  passed_at (mark_passed s j player) h = Some false
  ∧ ∃ d' : nat,
      (1 ≤ d' < length (players s))%nat
      ∧ (Z.of_nat j + Z.of_nat k) `mod` Z.of_nat (length (players s))
        = (h + Z.of_nat d') `mod` Z.of_nat (length (players s))
      ∧ ∀ k'' : nat, (1 ≤ k'' < d')%nat →
          passed_at (mark_passed s j player)
            ((h + Z.of_nat k'') `mod` Z.of_nat (length (players s)))
          = Some true.
Proof.
  intros HB [_ _ Hrot] Hph Hcur Hl Htwo Hk Hbefore Hhb.
  destruct (high_bidder_in_range s h HB Hhb) as (Hh & _).
  destruct (Hrot Hph h Hhb) as (Hhpass & d & Hd & Hc & Hbetween).
  set (N := Z.of_nat (length (players s))) in *.
  rewrite Hcur in Hc.
  assert (Z.to_nat h ≠ j) as Hhj.
  { intros Heq. apply (mod_step_differs h (Z.of_nat d) N); lia. }
  split.
  { by rewrite (passed_at_mark_passed s j player h Hl), decide_False. }
  (* a bidder other than the high bidder is left *)
  rewrite active_bidders_flags in Htwo.
  destruct (flags_two_active _ (Z.to_nat h) Htwo) as (a & Hah & Ha).
  assert (passed_at (mark_passed s j player) (Z.of_nat a) = Some false) as Hpa.
  { unfold passed_at. by rewrite Nat2Z.id, <- list_lookup_fmap. }
  rewrite (passed_at_mark_passed s j player _ Hl), Nat2Z.id in Hpa.
  case_decide as Haj; [done|].
  assert (0 ≤ Z.of_nat a < N) as HaN.
  { unfold passed_at in Hpa. rewrite Nat2Z.id in Hpa.
    destruct (players s !! a) eqn:Hla; [|done]. apply lookup_lt_Some in Hla. lia. }
  destruct (mod_reaches h (Z.of_nat a) N Hh HaN) as (m & Hm & Hreach & Hfull).
  assert (m < N) as HmN.
  { destruct (decide (m = N)) as [HmN|]; [|lia]. specialize (Hfull HmN). lia. }
  assert (Z.of_nat d < m) as Hdm.
  { destruct (decide (Z.of_nat d < m)) as [|Hge]; [done|]. exfalso.
    destruct (decide (m = Z.of_nat d)) as [Heq|Hneq].
    - rewrite Heq, <- Hc in Hreach. lia.
    - specialize (Hbetween (Z.to_nat m)). rewrite Z2Nat.id, Hreach in Hbetween by lia.
      rewrite Hbetween in Hpa by lia. done. }
  assert (Z.of_nat k ≤ m - Z.of_nat d) as Hkm.
  { destruct (decide (Z.of_nat k ≤ m - Z.of_nat d)) as [|Hgt]; [done|]. exfalso.
    specialize (Hbefore (Z.to_nat (m - Z.of_nat d))).
    rewrite Z2Nat.id, Hc, mod_offset in Hbefore by lia.
    replace (Z.of_nat d + (m - Z.of_nat d)) with m in Hbefore by lia.
    rewrite Hreach, Hpa in Hbefore. by specialize (Hbefore ltac:(lia)). }
  exists (d + k)%nat. split; [lia|]. split.
  { rewrite Hc, mod_offset. f_equal. lia. }
  intros k'' Hk''.
  rewrite (passed_at_mark_passed s j player _ Hl). case_decide as Hj; [done|].
  destruct (decide (k'' < d)%nat) as [Hlt|Hge]; [apply Hbetween; lia|].
  destruct (decide (k'' = d)) as [->|Hne].
  { exfalso. apply Hj. rewrite <- Hc. apply Nat2Z.id. }
  specialize (Hbefore (k'' - d)%nat ltac:(lia)).
  rewrite Hc, mod_offset in Hbefore.
  replace (Z.of_nat d + Z.of_nat (k'' - d)) with (Z.of_nat k'') in Hbefore by lia.
  done.
Qed.

Lemma step_Auction s a ok s' :
  reachable s → Auction s → step s a = Some (ok, s') → Auction s'.
Proof.
  intros Hs HA Hstep.
  destruct ok; [|by apply step_false in Hstep as ->].
  pose proof (reachable_Booked _ Hs) as HB.
  pose proof (reachable_Playable _ Hs) as [_ _ Hplay _ _].
  pose proof HA as [Hnow Hwin Hrot].
  destruct a as [p amount|p|rng p c su|p su]; simpl in Hstep.
  - destruct (decide (amount = 5)) as [->|H5].
    + apply submit_bid_result in Hstep
        as (j & player & Hph & Hcur & Hamt & Hj & Hl & Hpass & Hres).
      cbv zeta in Hres. destruct Hres as [[_ Haward] | [? _]]; [|done].
      rewrite (award_to_winner_nonzero _ p (set_current_bid (Some 5) player) 5)
        in Haward; [|simpl; by apply py_get_insert|done|done].
      injection Haward as <-.
      split; simpl; [done | by intros w [= <-] | done].
    + pose proof Hstep as Hph. apply submit_bid_result in Hph as (_ & _ & Hph & Hcur & _).
      destruct (Hplay Hph) as (_ & _ & Hactive).
      apply accepted_bid_shape in Hstep
        as (j & k & player & Hpj & Hl & Hk & -> & Hstop & Hbefore); [|done|done].
      assert (∀ x, passed_at
                     (set_current_player_index
                        ((p + Z.of_nat k) `mod` Z.of_nat (length (players s)))
                        (set_high_bidder_index (Some p)
                           (set_current_high_bid amount
                              (update_player s j (set_current_bid (Some amount) player)))))
                     x = passed_at s x) as Hflags.
      { intros x. unfold passed_at. simpl.
        rewrite <- !list_lookup_fmap.
        by rewrite (flags_insert_same _ _ player (set_current_bid (Some amount) player)). }
      split; simpl.
      * done.
      * intros w Hw. rewrite (Hnow Hph) in Hw. done.
      * intros _ h [= <-]. rewrite Hflags, length_insert.
        split; [by rewrite <- Hcur|].
        exists k. split; [done|]. split; [done|].
        intros k' Hk'. rewrite Hflags. by apply Hbefore.
  - apply accepted_pass_shape in Hstep
      as (j & player & Hpj & Hl & Hpass & Hph & Hcur & Hres); [|done].
    destruct Hres
      as [(w & winner & Hwj & Hlw & Hwpass & Hactive & Haward)
         | (Htwo & k & Hk & -> & Hstop & Hne & Hbefore)].
    + assert (py_get (players (mark_passed s j player)) (Z.of_nat w) = Some winner)
        as Hget.
      { apply py_get_nat. simpl. by rewrite list_lookup_insert_ne. }
      destruct (decide (bid_or_0 (current_bid winner) = 0)) as [Hzero|Hnz].
      * assert (end_auction (mark_passed s j player) (Some (Z.of_nat w)) = Some s')
          as Hend by done.
        apply (award_zero_bid_phase _ _ _ _ Hget Hzero) in Hend as (Hph' & Hw' & _).
        split.
        -- by rewrite Hph'.
        -- intros w'. by rewrite Hw'.
        -- by rewrite Hph'.
      * destruct (current_bid winner) as [b|] eqn:Hb; [|done]. simpl in Hnz.
        rewrite (award_to_winner_nonzero _ _ winner b Hget Hb Hnz) in Haward.
        injection Haward as <-.
        split; simpl; [done| |done].
        intros w' [= <-].
        destruct (high_bidder_index s) as [h|] eqn:Hhb.
        -- f_equal. subst p.
           by apply (last_bidder_is_high_bidder s j w player winner h).
        -- exfalso. destruct HB as [_ _ _ Hbids _ Hbidder].
           rewrite Hhb in Hbidder.
           pose proof (Hbids w (player_id winner) b) as Hbw.
           rewrite (bids_of_lookup s w winner Hlw), Hb in Hbw.
           specialize (Hbw eq_refl). lia.
    + subst p. split; simpl.
      * done.
      * intros w Hw. rewrite (Hnow Hph) in Hw. done.
      * intros _ h Hhb. rewrite length_insert.
        destruct (rotation_after_pass s j k player h HB HA Hph Hcur Hl Htwo Hk Hbefore Hhb)
          as (Hhpass & d' & Hd' & Hcur' & Hbetween).
        split; [done|]. exists d'. done.
  - apply place_card_shape in Hstep
      as (j & player & tower & l & Hj & Hl & _ & _ & Hph & Hw & _ & ->).
    cbv zeta. case_decide.
    + by apply end_building_phase_Auction.
    + split; simpl; [by rewrite Hph | done | by rewrite Hph].
  - apply tear_down_tower_shape in Hstep
      as (j & player & tower & Hj & Hl & _ & _ & Hph & Hw & ->).
    split; simpl; [by rewrite Hph | done | by rewrite Hph].
Qed.

Lemma run_Auction s acts s' :
  reachable s → Auction s → run s acts = Some s' → Auction s'.
Proof.
  revert s. induction acts as [|a acts IH]; intros s Hs HA; simpl.
  - by intros [= <-].
  - destruct (step s a) as [[ok s1]|] eqn:Hstep; simpl; [|done].
    apply IH.
    + apply (reachable_run s [a]); [done|]. simpl. by rewrite Hstep.
    + by eapply step_Auction.
Qed.

Lemma reachable_Auction s : reachable s → Auction s.
Proof.
  intros (rng & fresh & n & acts & Hn & Hrun).
  apply (run_Auction (reset rng fresh n) acts); [|apply reset_Auction|done].
  exists rng, fresh, n, []. done.
Qed.

(** X27. While the phase is Bidding in a reachable state, a recorded high
    bidder is a player who has not passed and is not the player to move, so
    that it can neither pass nor raise its own bid; the player to move
    comes less than once round after it, and every player between the two
    has passed. *)
Theorem high_bidder_stays_in (s : GameState) (h : Z) :
  reachable s → phase s = BIDDING → high_bidder_index s = Some h →
  0 ≤ h < Z.of_nat (length (players s))
  ∧ passed_at s h = Some false
  ∧ current_player_index s ≠ h
  ∧ can_pass s h = Some false
  ∧ (∀ amount, can_bid s h amount = Some false)
  ∧ ∃ d : nat,
      (1 ≤ d < length (players s))%nat
      ∧ current_player_index s
        = (h + Z.of_nat d) `mod` Z.of_nat (length (players s))
      ∧ ∀ k : nat, (1 ≤ k < d)%nat →
          passed_at s ((h + Z.of_nat k) `mod` Z.of_nat (length (players s)))
          = Some true.
Proof.
  intros Hs Hph Hhb.
  destruct (high_bidder_in_range s h (reachable_Booked _ Hs) Hhb) as (Hh & _).
  destruct (auct_rotation s (reachable_Auction _ Hs) Hph h Hhb)
    as (Hhpass & d & Hd & Hc & Hbetween).
  assert (current_player_index s ≠ h) as Hne.
  { rewrite Hc. apply mod_step_differs; lia. }
  split; [done|]. split; [done|]. split; [done|]. split; [|split].
  - unfold can_pass. rewrite decide_False by (by intros ?). by rewrite decide_True.
  - intros amount. unfold can_bid.
    rewrite decide_False by (by intros ?). by rewrite decide_True.
  - exists d. done.
Qed.

Lemma high_bidder_stays_in_witness : can_pass first_bid_state 0 = Some false.
Proof.
  refine (proj1 (proj2 (proj2 (proj2
            (high_bidder_stays_in first_bid_state 0 _ _ _))))).
  - apply first_bid_state_reachable.
  - vm_compute. reflexivity.
  - vm_compute. reflexivity.
Defined.

(** X28. In every reachable state an auction winner, when there is one, is
    the recorded high bidder: the phase is not Bidding, the winner is a
    player whose recorded bid is the high bid, and that bid is between 1 and
    5. An auction is never won by a player who was outbid. *)
Theorem auction_winner_is_high_bidder (s : GameState) (w : Z) :
  reachable s → auction_winner_index s = Some w →
  phase s ≠ BIDDING
  ∧ high_bidder_index s = Some w
  ∧ 1 ≤ current_high_bid s ≤ 5
  ∧ ∃ winner, py_get (players s) w = Some winner
              ∧ player_id winner = w
              ∧ current_bid winner = Some (current_high_bid s).
Proof.
  intros Hs Hw.
  pose proof (reachable_Auction _ Hs) as [Hnow Hwin _].
  pose proof (reachable_Booked _ Hs) as HB.
  pose proof (Hwin w Hw) as Hhb.
  destruct (high_bidder_in_range s w HB Hhb) as (Hrange & winner & Hl & Hid & Hbid).
  split; [|split; [done|split]].
  - intros Hph. rewrite (Hnow Hph) in Hw. done.
  - pose proof (book_bids _ _ _ _ HB (Z.to_nat w) (player_id winner)
                  (current_high_bid s)) as Hb.
    rewrite (bids_of_lookup s _ winner Hl), Hbid in Hb. specialize (Hb eq_refl).
    pose proof (book_high _ _ _ _ HB). lia.
  - exists winner. split; [|done].
    replace w with (Z.of_nat (Z.to_nat w)) by lia. by apply py_get_nat.
Qed.

Lemma auction_winner_is_high_bidder_witness :
  phase building_state ≠ BIDDING
  ∧ high_bidder_index building_state = Some 0
  ∧ 1 ≤ current_high_bid building_state ≤ 5
  ∧ ∃ winner, py_get (players building_state) 0 = Some winner
              ∧ player_id winner = 0
              ∧ current_bid winner = Some (current_high_bid building_state).
Proof.
  apply (auction_winner_is_high_bidder building_state 0).
  - apply building_state_reachable.
  - vm_compute. reflexivity.
Defined.

(** X29. An accepted pass in a reachable state marks the player to move as
    passed and then does one of two things. When one bidder is left, the
    auction ends for that bidder: with a recorded bid [b], which is then the
    high bid and the bidder the high bidder, the phase becomes Building, the
    bidder becomes the auction winner and the player to move, receives the
    first [b] cards of the display row and the rest is discarded; with no
    recorded bid, nobody has bid and the state is left in the Building
    phase without an auction winner. When two bidders or more are left, the
    turn goes to the first player after, in rotation, who has not
    passed. *)
Theorem accepted_pass_outcome (s : GameState) (p : Z) (s' : GameState) :
  reachable s → submit_pass s p = Some (true, s') →
  ∃ (j : nat) player,
    p = Z.of_nat j ∧ players s !! j = Some player
    ∧ ((∃ (w : nat) winner,
          w ≠ j ∧ players s !! w = Some winner
          ∧ active_bidders (mark_passed s j player) = [winner]
          ∧ match current_bid winner with
            | Some b =>
                high_bidder_index s = Some (Z.of_nat w) ∧ b = current_high_bid s
                ∧ s' = mkGame BUILDING (round_number s) (deck s) []
                         (discard_pile s ++ py_suffix (display_cards s) b)
                         (players (mark_passed s j player)) (Z.of_nat w)
                         (current_high_bid s) (high_bidder_index s)
                         (Some (Z.of_nat w)) (py_prefix (display_cards s) b)
            | None =>
                high_bidder_index s = None
                ∧ phase s' = BUILDING ∧ auction_winner_index s' = None
            end)
       ∨ ((2 ≤ length (active_bidders (mark_passed s j player)))%nat
          ∧ ∃ k : nat,
              (1 ≤ k < length (players s))%nat
              ∧ s' = set_current_player_index
                       ((p + Z.of_nat k) `mod` Z.of_nat (length (players s)))
                       (mark_passed s j player)
              ∧ passed_at s ((p + Z.of_nat k) `mod` Z.of_nat (length (players s)))
                = Some false
              ∧ ∀ k' : nat, (1 ≤ k' < k)%nat →
                  passed_at s ((p + Z.of_nat k') `mod` Z.of_nat (length (players s)))
                  = Some true)).
Proof.
  intros Hs Hsubmit.
  pose proof (reachable_Booked _ Hs) as HB.
  pose proof (reachable_Auction _ Hs) as HA.
  apply accepted_pass_shape in Hsubmit
    as (j & player & Hpj & Hl & Hpass & Hph & Hcur & Hres); [|done].
  exists j, player. split; [done|]. split; [done|].
  destruct Hres
    as [(w & winner & Hwj & Hlw & Hwpass & Hactive & Haward)
       | (Htwo & k & Hk & -> & Hstop & Hne & Hbefore)].
  - left. exists w, winner. split; [done|]. split; [done|]. split; [done|].
    assert (py_get (players (mark_passed s j player)) (Z.of_nat w) = Some winner)
      as Hget.
    { apply py_get_nat. simpl. by rewrite list_lookup_insert_ne. }
    assert (∀ h, high_bidder_index s = Some h →
              h = Z.of_nat w ∧ current_bid winner = Some (current_high_bid s)) as Hhigh.
    { intros h Hhb. subst p.
      pose proof (last_bidder_is_high_bidder s j w player winner h
                    HB HA Hph Hcur Hl Hlw Hactive Hhb) as ->.
      split; [done|].
      destruct (high_bidder_in_range s _ HB Hhb) as (_ & pl & Hlpl & _ & Hbid).
      rewrite Nat2Z.id in Hlpl. congruence. }
    destruct (current_bid winner) as [b|] eqn:Hb.
    + assert (1 ≤ b ≤ current_high_bid s) as Hb1.
      { apply (book_bids _ _ _ _ HB w (player_id winner)).
        by rewrite (bids_of_lookup s w winner Hlw), Hb. }
      destruct (high_bidder_index s) as [h|] eqn:Hhb.
      * destruct (Hhigh h eq_refl) as [-> [= ->]].
        split; [done|]. split; [done|].
        rewrite (award_to_winner_nonzero _ _ winner (current_high_bid s) Hget Hb)
          in Haward by lia.
        injection Haward as <-. simpl. by rewrite Hhb.
      * exfalso. pose proof (book_bidder _ _ _ _ HB) as Hbidder.
        rewrite Hhb in Hbidder. lia.
    + destruct (high_bidder_index s) as [h|] eqn:Hhb.
      * by destruct (Hhigh h eq_refl) as [_ ?].
      * split; [done|].
        assert (end_auction (mark_passed s j player) (Some (Z.of_nat w)) = Some s')
          as Hend by done.
        apply (award_zero_bid_phase _ _ winner) in Hend as (? & ? & _); [done|done|].
        by rewrite Hb.
  - right. split; [done|]. exists k. done.
Qed.

Lemma accepted_pass_outcome_witness :
  ∃ (j : nat) player,
    1 = Z.of_nat j ∧ players first_bid_state !! j = Some player
    ∧ ((∃ (w : nat) winner,
          w ≠ j ∧ players first_bid_state !! w = Some winner
          ∧ active_bidders (mark_passed first_bid_state j player) = [winner]
          ∧ match current_bid winner with
            | Some b =>
                high_bidder_index first_bid_state = Some (Z.of_nat w)
                ∧ b = current_high_bid first_bid_state
                ∧ building_state
                  = mkGame BUILDING (round_number first_bid_state)
                      (deck first_bid_state) []
                      (discard_pile first_bid_state
                       ++ py_suffix (display_cards first_bid_state) b)
                      (players (mark_passed first_bid_state j player)) (Z.of_nat w)
                      (current_high_bid first_bid_state)
                      (high_bidder_index first_bid_state)
                      (Some (Z.of_nat w))
                      (py_prefix (display_cards first_bid_state) b)
            | None =>
                high_bidder_index first_bid_state = None
                ∧ phase building_state = BUILDING
                ∧ auction_winner_index building_state = None
            end)
       ∨ ((2 ≤ length (active_bidders (mark_passed first_bid_state j player)))%nat
          ∧ ∃ k : nat,
              (1 ≤ k < length (players first_bid_state))%nat
              ∧ building_state
                = set_current_player_index
                    ((1 + Z.of_nat k) `mod` Z.of_nat (length (players first_bid_state)))
                    (mark_passed first_bid_state j player)
              ∧ passed_at first_bid_state
                  ((1 + Z.of_nat k) `mod` Z.of_nat (length (players first_bid_state)))
                = Some false
              ∧ ∀ k' : nat, (1 ≤ k' < k)%nat →
                  passed_at first_bid_state
                    ((1 + Z.of_nat k')
                     `mod` Z.of_nat (length (players first_bid_state)))
                  = Some true)).
Proof.
  apply (accepted_pass_outcome first_bid_state 1 building_state).
  - apply first_bid_state_reachable.
  - vm_compute. reflexivity.
Defined.

(** ** Towers in reachable states *)

Lemma cap_on_top_snoc tower c :
  cap_on_top tower → can_place tower c = true →
  cap_on_top (mkTower (tower_suit tower) (cards tower ++ [c])).
Proof.
  intros Hcap Hacc i c' Hi Htop. simpl in *. rewrite length_app. simpl.
  destruct (decide (i < length (cards tower))%nat) as [Hlt|Hge].
  - exfalso. rewrite lookup_app_l in Hi by done.
    pose proof (Hcap i c' Hi Htop) as Hlast.
    unfold can_place, top_card in Hacc. rewrite last_lookup in Hacc.
    replace (Nat.pred (length (cards tower))) with i in Hacc by lia.
    rewrite Hi, Htop in Hacc. done.
  - apply lookup_lt_Some in Hi. rewrite length_app in Hi. simpl in Hi. lia.
Qed.

Lemma towers_ok_insert (player : PlayerState) pile suit tower tower' :
  towers_ok (holdings player) →
  towers player !! suit = Some tower →
  tower_suit tower' = tower_suit tower → cap_on_top tower' →
  towers_ok (<[suit := tower']> (towers player), pile).
Proof.
  intros Hok Ht Hsuit Hcap su t. simpl.
  destruct (decide (su = suit)) as [->|Hne].
  - rewrite lookup_insert_eq. intros [= <-]. split; [|done].
    rewrite Hsuit. by apply (Hok suit tower).
  - rewrite lookup_insert_ne by done. apply (Hok su t).
Qed.

Lemma step_towers s a ok s' :
  step s a = Some (ok, s') →
  Forall towers_ok (holdings <$> players s) →
  Forall towers_ok (holdings <$> players s').
Proof.
  intros Hstep Hok.
  destruct ok; [|by apply step_false in Hstep as ->].
  destruct a as [p amount|p|rng p c su|p su]; simpl in Hstep.
  - by rewrite (submit_bid_holdings _ _ _ _ _ Hstep).
  - by rewrite (submit_pass_holdings _ _ _ _ Hstep).
  - apply place_card_shape in Hstep
      as (j & player & tower & l & Hj & Hl & Ht & Hacc & _ & _ & _ & ->).
    cbv zeta.
    assert (towers_ok (holdings player)) as Hp.
    { apply (Forall_lookup_1 _ _ j _ Hok). by rewrite list_lookup_fmap, Hl. }
    assert (Forall towers_ok
              (holdings <$> <[j := set_towers
                                      (<[su := mkTower (tower_suit tower)
                                                 (cards tower ++ [c])]> (towers player))
                                      player]> (players s))) as Hnew.
    { rewrite list_fmap_insert. apply Forall_insert; [done|].
      apply (towers_ok_insert player _ su tower); [done | done | done |].
      apply cap_on_top_snoc; [|done]. by apply (Hp su tower). }
    case_decide; [|done]. by rewrite end_building_phase_holdings.
  - apply tear_down_tower_shape in Hstep
      as (j & player & tower & Hj & Hl & Ht & _ & _ & _ & ->).
    assert (towers_ok (holdings player)) as Hp.
    { apply (Forall_lookup_1 _ _ j _ Hok). by rewrite list_lookup_fmap, Hl. }
    simpl. rewrite list_fmap_insert. apply Forall_insert; [done|].
    apply (towers_ok_insert player _ su tower); [done | done | done |].
    by intros i c' ?.
Qed.

Lemma reset_towers rng fresh n :
  Forall towers_ok (holdings <$> players (reset rng fresh n)).
Proof.
  unfold reset, deal_display_cards. simpl. destruct (deal_loop _ _ _) as [dk cs].
  simpl. rewrite <- list_fmap_compose. apply Forall_fmap, Forall_true.
  intros i suit t. simpl. intros Ht.
  assert (t = mkTower suit []) as ->.
  { destruct suit; vm_compute in Ht; by injection Ht as <-. }
  split; [done|]. by intros k c ?.
Qed.

Lemma run_towers s acts s' :
  run s acts = Some s' →
  Forall towers_ok (holdings <$> players s) →
  Forall towers_ok (holdings <$> players s').
Proof.
  revert s. induction acts as [|a acts IH]; intros s; simpl.
  - by intros [= <-].
  - destruct (step s a) as [[ok s1]|] eqn:Hstep; simpl; [|done].
    intros Hrun Hok. apply (IH s1 Hrun). by eapply step_towers.
Qed.

(** X30. In every reachable state every player has a tower for each of the
    five suits, each tower is filed under its own suit, and a Tower Top (a
    card of value 0) is nowhere in a tower but on top: a tower is capped
    exactly when it holds a card of value 0. *)
Theorem tower_top_is_on_top (s : GameState) (i : nat) (player : PlayerState)
    (suit : TowerSuit) (tower : Tower) :
  reachable s → players s !! i = Some player → towers player !! suit = Some tower →
  (∀ suit', has_tower_for player suit' = true)
  ∧ tower_suit tower = suit
  ∧ (∀ (k : nat) c,
       cards tower !! k = Some c → card_value c = 0 → S k = length (cards tower))
  ∧ (is_capped tower = true ↔ ∃ c, c ∈ cards tower ∧ card_value c = 0).
Proof.
  intros Hs Hl Ht. split.
  { intros suit'. apply bool_decide_eq_true_2.
    pose proof (reachable_WellFormed _ Hs) as [Htw _].
    apply (Forall_lookup_1 _ _ _ _ Htw Hl). }
  destruct Hs as (rng & fresh & n & acts & Hn & Hrun).
  pose proof (run_towers _ _ _ Hrun (reset_towers rng fresh n)) as Hok.
  assert (towers_ok (holdings player)) as Hp.
  { apply (Forall_lookup_1 _ _ i _ Hok). by rewrite list_lookup_fmap, Hl. }
  destruct (Hp suit tower Ht) as [Hsuit Hcap].
  assert (∀ (k : nat) c,
            cards tower !! k = Some c → card_value c = 0 → S k = length (cards tower))
    as Hzero.
  { intros k c Hk Hc. apply (Hcap k c Hk). unfold is_tower_top.
    by apply bool_decide_eq_true_2. }
  split; [done|]. split; [done|].
  unfold is_capped, top_card, is_tower_top. rewrite last_lookup. split.
  - destruct (cards tower !! Nat.pred (length (cards tower))) as [c|] eqn:Hc; [|done].
    intros Hv%bool_decide_eq_true. exists c. split; [|done].
    by eapply list_elem_of_lookup_2.
  - intros (c & [k Hk]%list_elem_of_lookup & Hv).
    pose proof (Hzero k c Hk Hv) as Hlen.
    replace (Nat.pred (length (cards tower))) with k by lia.
    rewrite Hk. by apply bool_decide_eq_true_2.
Qed.

Lemma tower_top_is_on_top_witness :
  (∀ suit',
     has_tower_for (default (new_player 0 "Player0") (players capped_state !! 0%nat))
       suit' = true)
  ∧ tower_suit capped_sand_tower = SAND
  ∧ (∀ (k : nat) c,
       cards capped_sand_tower !! k = Some c → card_value c = 0 →
       S k = length (cards capped_sand_tower))
  ∧ (is_capped capped_sand_tower = true
     ↔ ∃ c, c ∈ cards capped_sand_tower ∧ card_value c = 0).
Proof.
  apply (tower_top_is_on_top capped_state 0
           (default (new_player 0 "Player0") (players capped_state !! 0%nat)) SAND).
  - apply capped_state_reachable.
  - vm_compute. reflexivity.
  - vm_compute. reflexivity.
Defined.
